(** * vibe-code: the orchestration core, embedded and verified

    A shallow embedding of the analysis pipeline of the vibe-code CLI:
    the error classifier (error-handler.ts), the quota estimator
    (quota-checker.ts), the prompt builder and the retry orchestrator
    (analyzer.ts), the repository scanner (scanner.ts), the fallback
    analyzer (fallback-analyzer.ts) and the top-level handler (index.ts);
    and, around it, the questions that make the configuration (prompts.ts),
    the generation parameters and the model table (gemini-client.ts), the
    choice of the port (port-utils.ts, server.ts) and the key files and the
    description of the report (report.ts).

    Conventions of the embedding.
    - A JavaScript string is a [string]: the sequence of the bytes of its
      text in UTF-8 (a lone surrogate as its three bytes).  Its length and
      the positions of [slice] count UTF-16 code units, as the source's
      do; white space is the class of ECMAScript (WhiteSpace and
      LineTerminator), characters outside ASCII included.  Case mapping
      ([toLowerCase], the regular expression flag [i]) acts on the ASCII
      letters and leaves every other byte as it is; the messages the
      classifier looks for are ASCII.
    - A number that the source reads from a text ([Number.parseInt]) is a
      [JsNumber]: NaN, an integer that is a double, or an infinity.  A
      count or a size that the source computes in small steps from lengths
      and list positions is an [N].
    - [async] functions are run sequentially: the only effects that matter
      (Gateway calls, timed waits, terminal questions) are recorded in an
      explicit world state that every effectful function threads. *)

From Stdlib Require Import List String Ascii NArith ZArith Lia Bool Arith.
From Stdlib Require Import DecimalString Permutation Sorted.
From Stdlib Require Import Decimal DecimalPos DecimalN QArith.
Close Scope Q_scope.
Import ListNotations.
Open Scope string_scope.

(** ** JavaScript strings *)

Module JsString.

(** ASCII upper-case letters go to lower case, other bytes stay. *)
Definition lower_char (c : ascii) : ascii :=
  let n := N_of_ascii c in
  if ((65 <=? n) && (n <=? 90))%N then ascii_of_N (n + 32) else c.

Definition is_lower_letter (c : ascii) : bool :=
  let n := N_of_ascii c in ((97 <=? n) && (n <=? 122))%N.

(** [String.prototype.toLowerCase]. *)
Fixpoint toLowerCase (s : string) : string :=
  match s with
  | EmptyString => EmptyString
  | String c s' => String (lower_char c) (toLowerCase s')
  end.

(** [s.includes(p)]: [p] occurs in [s] as a contiguous substring. *)
Fixpoint includes (s p : string) : bool :=
  String.prefix p s ||
  match s with
  | EmptyString => false
  | String _ s' => includes s' p
  end.

(** The length of a string and the positions in it count UTF-16 code
    units.  The first byte of a character tells how many units the
    character takes: two when it opens a sequence of four bytes (a
    character outside the basic plane, a surrogate pair in UTF-16), one
    otherwise.  The bytes that continue a sequence (10xxxxxx) take none. *)
Definition is_continuation (c : ascii) : bool :=
  let n := N_of_ascii c in ((128 <=? n) && (n <? 192))%N.

Definition code_units (c : ascii) : nat :=
  if is_continuation c then 0
  else if (240 <=? N_of_ascii c)%N then 2 else 1.

(** [s.length] *)
Fixpoint utf16_length (s : string) : nat :=
  match s with
  | EmptyString => 0
  | String c s' => code_units c + utf16_length s'
  end.

(** The first half of the surrogate pair of the four-byte character that
    starts with [lead] and goes on in [rest], as the three bytes of a lone
    surrogate: 0xD7C0 plus the code point without its low ten bits. *)
Definition high_surrogate (lead : ascii) (rest : string) : string :=
  let b0 := N_of_ascii lead in
  let b1 := match rest with
            | String c _ => N_of_ascii c
            | EmptyString => 128%N
            end in
  let b2 := match rest with
            | String _ (String c _) => N_of_ascii c
            | _ => 128%N
            end in
  let high := (55232 + (b0 mod 8) * 256 + (b1 mod 64) * 4
               + (b2 mod 64) / 16)%N in
  String (ascii_of_N 237)
    (String (ascii_of_N (128 + (high / 64) mod 64))
       (String (ascii_of_N (128 + high mod 64)) EmptyString)).

(** [s.slice(0, n)] for a non-negative [n]: the first [n] code units.  A
    cut between the halves of a surrogate pair keeps the first half. *)
Fixpoint slice0 (n : nat) (s : string) : string :=
  match s with
  | EmptyString => EmptyString
  | String c s' =>
      match code_units c with
      | 0 => String c (slice0 n s')
      | 1 =>
          match n with
          | S n' => String c (slice0 n' s')
          | O => EmptyString
          end
      | _ =>
          match n with
          | S (S n') => String c (slice0 n' s')
          | S O => high_surrogate c s'
          | O => EmptyString
          end
      end
  end.

(** White space: the characters that [trim], [Number.parseInt] and the
    class [\s] of a pattern treat as such, by the bytes of their encoding.
    In one byte: tab, line feed, vertical tab, form feed, carriage return,
    space. *)
Definition white1 (c1 : ascii) : bool :=
  let n := N_of_ascii c1 in (((9 <=? n) && (n <=? 13)) || (n =? 32))%N.

(** In two bytes: U+00A0. *)
Definition white2 (c1 c2 : ascii) : bool :=
  ((N_of_ascii c1 =? 194) && (N_of_ascii c2 =? 160))%N.

(** In three bytes: U+1680; U+2000 to U+200A, U+2028, U+2029, U+202F;
    U+205F; U+3000; U+FEFF. *)
Definition white3 (c1 c2 c3 : ascii) : bool :=
  let a := N_of_ascii c1 in
  let b := N_of_ascii c2 in
  let c := N_of_ascii c3 in
  (((a =? 225) && (b =? 154) && (c =? 128))
   || ((a =? 226) && (b =? 128)
       && (((128 <=? c) && (c <=? 138)) || (c =? 168) || (c =? 169)
           || (c =? 175)))
   || ((a =? 226) && (b =? 129) && (c =? 159))
   || ((a =? 227) && (b =? 128) && (c =? 128))
   || ((a =? 239) && (b =? 187) && (c =? 191)))%N.

(** What follows the white-space character at the head of [s], if there
    is one. *)
Definition white_rest (s : string) : option string :=
  match s with
  | String c1 s1 =>
      if white1 c1 then Some s1
      else
        match s1 with
        | String c2 s2 =>
            if white2 c1 c2 then Some s2
            else
              match s2 with
              | String c3 s3 =>
                  if white3 c1 c2 c3 then Some s3 else None
              | EmptyString => None
              end
        | EmptyString => None
        end
  | EmptyString => None
  end.

(** [s.trimStart()] *)
Fixpoint trimStart (s : string) : string :=
  match s with
  | String c1 s1 =>
      if white1 c1 then trimStart s1
      else
        match s1 with
        | String c2 s2 =>
            if white2 c1 c2 then trimStart s2
            else
              match s2 with
              | String c3 s3 =>
                  if white3 c1 c2 c3 then trimStart s3 else s
              | EmptyString => s
              end
        | EmptyString => s
        end
  | EmptyString => s
  end.

(** The string consists of white-space characters. *)
Fixpoint all_white (s : string) : bool :=
  match s with
  | String c1 s1 =>
      if white1 c1 then all_white s1
      else
        match s1 with
        | String c2 s2 =>
            if white2 c1 c2 then all_white s2
            else
              match s2 with
              | String c3 s3 => white3 c1 c2 c3 && all_white s3
              | EmptyString => false
              end
        | EmptyString => false
        end
  | EmptyString => true
  end.

(** [s.trimEnd()]: the longest tail of white-space characters is cut. *)
Fixpoint trimEnd (s : string) : string :=
  match s with
  | EmptyString => EmptyString
  | String c s' => if all_white s then EmptyString else String c (trimEnd s')
  end.

(** [s.trim()] *)
Definition trim (s : string) : string := trimEnd (trimStart s).

(** [parts.join(sep)]. *)
Fixpoint join (sep : string) (parts : list string) : string :=
  match parts with
  | [] => ""
  | [x] => x
  | x :: rest => x ++ sep ++ join sep rest
  end.

(** [s.split(sep).length] for a one-character separator: one more than
    the number of separators in [s]. *)
Fixpoint split_count (sep : ascii) (s : string) : N :=
  match s with
  | EmptyString => 1
  | String c s' =>
      (if Ascii.eqb c sep then 1 else 0) + split_count sep s'
  end%N.

(** Rendering of a non-negative integer in a template literal. *)
Definition of_N (n : N) : string := NilZero.string_of_uint (N.to_uint n).

Definition dquote : ascii := "034"%char.
Definition squote : ascii := "039"%char.
Definition newline : string := String "010"%char EmptyString.

Definition is_digit (c : ascii) : bool :=
  let n := N_of_ascii c in ((48 <=? n) && (n <=? 57))%N.

Definition digit_value (c : ascii) : N := N_of_ascii c - 48.

(** Value of the leading run of decimal digits, continuing from [acc]. *)
Fixpoint digits_from (acc : N) (s : string) : N :=
  match s with
  | String c s' =>
      if is_digit c then digits_from (10 * acc + digit_value c) s' else acc
  | EmptyString => acc
  end.

End JsString.

Import JsString.

(** ** JavaScript numbers *)

(** The numbers that reading an integer from a text can give. *)
Inductive JsNumber : Set :=
| NaN
| Num (z : Z)
| Infinity (negative : bool).

Module Number.

(** The double nearest to a natural number, as a natural number: below
    2^53 the number itself; from there on the 53 leading bits, rounded to
    the nearest, a tie to the even one. *)
Definition round53 (n : N) : N :=
  let k := N.log2 n in
  if (k <? 53)%N then n
  else
    let shift := (k - 52)%N in
    let q := N.shiftr n shift in
    let r := (n - N.shiftl q shift)%N in
    let half := N.shiftl 1 (shift - 1) in
    let q' := if (half <? r)%N || ((r =? half)%N && N.odd q)
              then (q + 1)%N else q in
    N.shiftl q' shift.

(** The Number value of a natural number: what rounds to 2^1024 is
    infinite. *)
Definition of_N (n : N) : JsNumber :=
  let r := round53 n in
  if (r <? 2 ^ 1024)%N then Num (Z.of_N r) else Infinity false.

(** The Number value of an integer. *)
Definition of_Z (z : Z) : JsNumber :=
  match z with
  | Zneg _ =>
      match of_N (Z.abs_N z) with
      | Num m => Num (- m)
      | Infinity _ => Infinity true
      | NaN => NaN
      end
  | _ => of_N (Z.abs_N z)
  end.

(** [-x] *)
Definition negate (x : JsNumber) : JsNumber :=
  match x with
  | NaN => NaN
  | Num z => Num (- z)
  | Infinity negative => Infinity (negb negative)
  end.

(** [isNaN(x)] *)
Definition isNaN (x : JsNumber) : bool :=
  match x with NaN => true | _ => false end.

(** [x < y] *)
Definition ltb (x y : JsNumber) : bool :=
  match x, y with
  | NaN, _ | _, NaN => false
  | Num a, Num b => (a <? b)%Z
  | Num _, Infinity negative => negb negative
  | Infinity negative, Num _ => negative
  | Infinity a, Infinity b => a && negb b
  end.

(** The truth value of a number in a condition: zero and NaN are false. *)
Definition truthy (x : JsNumber) : bool :=
  match x with
  | NaN => false
  | Num z => negb (z =? 0)%Z
  | Infinity _ => true
  end.

(** [x - 1] *)
Definition decrement (x : JsNumber) : JsNumber :=
  match x with
  | Num z => of_Z (z - 1)
  | _ => x
  end.

(** The number of digits of a natural number. *)
Definition decimal_digits (n : N) : N :=
  N.of_nat (String.length (JsString.of_N n)).

(** The shortest decimal that denotes the double [x]: the multiples of
    10^p next to [x] are tried for p from the highest on, and the first
    that rounds to [x] is taken; of two, the nearer one, and of two equally
    near ones the one with the even last digit. *)
Fixpoint shortest_from (fuel : nat) (x p : N) : N :=
  let unit := (10 ^ p)%N in
  let below := (x / unit * unit)%N in
  let above := (below + unit)%N in
  let r := (x - below)%N in
  match (round53 below =? x)%N, (round53 above =? x)%N with
  | true, true =>
      if (2 * r <? unit)%N then below
      else if (unit <? 2 * r)%N then above
      else if N.even (x / unit) then below else above
  | true, false => below
  | false, true => above
  | false, false =>
      match fuel with
      | O => x
      | S fuel' => shortest_from fuel' x (p - 1)
      end
  end.

Definition shortest (x : N) : N :=
  let digits := decimal_digits x in
  shortest_from (N.to_nat digits) x (digits - 1).

Fixpoint strip_trailing_zeros (s : string) : string :=
  match s with
  | EmptyString => EmptyString
  | String c s' =>
      match strip_trailing_zeros s' with
      | EmptyString => if Ascii.eqb c "0" then EmptyString
                       else String c EmptyString
      | rest => String c rest
      end
  end.

(** The text of a double that is a natural number: its digits below 2^53;
    from there on the digits of its shortest decimal, filled up with
    zeros below 10^21 and in exponent notation from 10^21 on. *)
Definition natToString (x : N) : string :=
  if (x <? 2 ^ 53)%N then JsString.of_N x
  else
    let c := shortest x in
    let text := JsString.of_N c in
    if (c <? 10 ^ 21)%N then text
    else
      let e := JsString.of_N (N.of_nat (String.length text) - 1) in
      match strip_trailing_zeros text with
      | String d EmptyString => String d ("e+" ++ e)
      | String d more => String d ("." ++ more ++ "e+" ++ e)
      | EmptyString => text
      end.

(** The text of a number in a template literal. *)
Definition toString (x : JsNumber) : string :=
  match x with
  | NaN => "NaN"
  | Infinity false => "Infinity"
  | Infinity true => "-Infinity"
  | Num z => if (z <? 0)%Z then "-" ++ natToString (Z.abs_N z)
             else natToString (Z.abs_N z)
  end.

End Number.

(** [Number.parseInt(s, 10)] on a text without white space or sign in
    front: the Number value of the leading run of digits, NaN when [s]
    does not start with a digit. *)
Definition parseInt10 (s : string) : JsNumber :=
  match s with
  | String c _ => if is_digit c then Number.of_N (digits_from 0 s) else NaN
  | EmptyString => NaN
  end.

(** [Number.parseInt(s, 10)]: leading white space is skipped, one sign is
    read, then the leading run of decimal digits. *)
Definition parseInt (s : string) : JsNumber :=
  match trimStart s with
  | String "-"%char rest => Number.negate (parseInt10 rest)
  | String "+"%char rest => parseInt10 rest
  | rest => parseInt10 rest
  end.

(** ** Regular expressions: a backtracking matcher in continuation style

    A pattern is a function from the continuation (what must match after
    it) to a matcher on the rest of the input.  Greedy repetition tries the
    longest run first and falls back to shorter ones when the continuation
    fails, as the ECMAScript matcher does. *)

Module Regex.

Section Matcher.
Context {R : Type}.

Definition Cont := string -> option R.

(** One character of a class. *)
Definition class (p : ascii -> bool) (k : Cont) : Cont :=
  fun s =>
    match s with
    | String c s' => if p c then k s' else None
    | EmptyString => None
    end.

(** A literal, compared modulo ASCII case (flag [i]). *)
Fixpoint lit_ci (lit : string) (k : Cont) : Cont :=
  match lit with
  | EmptyString => k
  | String l lit' =>
      class (fun c => Ascii.eqb (lower_char c) (lower_char l))
            (lit_ci lit' k)
  end.

(** Zero or more characters of a class, greedy. *)
Fixpoint star (p : ascii -> bool) (k : Cont) (s : string) : option R :=
  match s with
  | String c s' =>
      if p c then
        match star p k s' with
        | Some r => Some r
        | None => k s
        end
      else k s
  | EmptyString => k s
  end.

(** The same inside a capturing group: the captured text is handed to
    the continuation. *)
Fixpoint star_cap (p : ascii -> bool) (acc : string)
         (k : string -> Cont) (s : string) : option R :=
  match s with
  | String c s' =>
      if p c then
        match star_cap p (acc ++ String c EmptyString) k s' with
        | Some r => Some r
        | None => k acc s
        end
      else k acc s
  | EmptyString => k acc s
  end.

(** One or more characters of a class inside a capturing group, greedy. *)
Definition plus_cap (p : ascii -> bool) (k : string -> Cont) : Cont :=
  fun s =>
    match s with
    | String c s' =>
        if p c then star_cap p (String c EmptyString) k s' else None
    | EmptyString => None
    end.

(** Zero or more white-space characters, greedy: the class [\s], whose
    characters take one, two or three bytes. *)
Fixpoint star_space (k : Cont) (s : string) : option R :=
  match s with
  | String c1 s1 =>
      if white1 c1 then
        match star_space k s1 with
        | Some r => Some r
        | None => k s
        end
      else
        match s1 with
        | String c2 s2 =>
            if white2 c1 c2 then
              match star_space k s2 with
              | Some r => Some r
              | None => k s
              end
            else
              match s2 with
              | String c3 s3 =>
                  if white3 c1 c2 c3 then
                    match star_space k s3 with
                    | Some r => Some r
                    | None => k s
                    end
                  else k s
              | EmptyString => k s
              end
        | EmptyString => k s
        end
  | EmptyString => k s
  end.
End Matcher.

Definition is_quote (c : ascii) : bool :=
  Ascii.eqb c squote || Ascii.eqb c dquote.

Definition is_quote_or_colon (c : ascii) : bool :=
  is_quote c || Ascii.eqb c ":"%char.

Definition is_s_ci (c : ascii) : bool :=
  Ascii.eqb (lower_char c) "s"%char.

(** The retry-delay pattern of [parseQuotaError], anchored at the head of
    [s]: the word retrydelay; one quote or colon; white space, any number;
    quotes, any number; a capturing group of one or more digits; the
    letter s; all modulo case.  The result is the text of group 1. *)
Definition retryDelay_here : string -> option string :=
  lit_ci "retrydelay"
    (class is_quote_or_colon
       (star_space
          (star is_quote
             (plus_cap is_digit
                (fun cap => class is_s_ci (fun _ => Some cap)))))).

(** [s.match(re)] without flag [g]: the leftmost position where the
    pattern matches. *)
Fixpoint retryDelay_match (s : string) : option string :=
  match retryDelay_here s with
  | Some cap => Some cap
  | None =>
      match s with
      | String _ s' => retryDelay_match s'
      | EmptyString => None
      end
  end.

(** The pattern matches in [pre ++ rest] at a position of [pre]. *)
Fixpoint retryDelay_within (pre rest : string) : bool :=
  match pre with
  | EmptyString => false
  | String _ pre' =>
      match retryDelay_here (pre ++ rest) with
      | Some _ => true
      | None => retryDelay_within pre' rest
      end
  end.

End Regex.

(** ** error-handler.ts *)

Inductive ErrorType : Set :=
| quota_exceeded
| rate_limit
| invalid_key
| model_unavailable
| content_too_large
| unknown.

Definition ErrorType_eqb (a b : ErrorType) : bool :=
  match a, b with
  | quota_exceeded, quota_exceeded
  | rate_limit, rate_limit
  | invalid_key, invalid_key
  | model_unavailable, model_unavailable
  | content_too_large, content_too_large
  | unknown, unknown => true
  | _, _ => false
  end.

Record GeminiErrorInfo : Set := mkErrorInfo {
  type : ErrorType;
  message : string;
  suggestions : list string;
  (** optional in the source: [None] when it is not set *)
  retryAfter : option JsNumber
}.

(** [if (c) xs.push(...)]: the items are appended when [c] holds. *)
Definition push_if (c : bool) (items xs : list string) : list string :=
  if c then (xs ++ items)%list else xs.

Definition perMinuteSuggestion : string :=
  "⏱️  Free tier: 15 requests per minute limit".

Definition retrySuggestion (retryAfter : JsNumber) : string :=
  "⏰ Suggested retry time: " ++ Number.toString retryAfter ++ " seconds".

Definition freeTierSuggestions (errorMessage : string) : list string :=
  let s0 := ["🆓 You're using the FREE tier of Gemini API"] in
  let s1 := push_if (includes errorMessage "input_token_count")
              ["📊 Too many input tokens used (text sent to AI)";
               "💡 Try analyzing smaller files or fewer files at once"] s0 in
  let s2 :=
    if includes errorMessage "requests" then
      let r0 := (s1 ++ ["🔄 Too many requests made to the API"])%list in
      let r1 := push_if (includes errorMessage "PerMinute")
                  [perMinuteSuggestion;
                   "⏳ Wait 1-2 minutes before trying again"] r0 in
      push_if (includes errorMessage "PerDay")
        ["📅 Free tier: 1,500 requests per day limit";
         "🌅 Wait until tomorrow or upgrade to paid plan"] r1
    else s1 in
  (s2 ++ ["💳 Consider upgrading to a paid plan for higher limits";
          "🔗 Billing info: https://console.cloud.google.com/billing"])%list.

Definition parseQuotaError (errorMessage : string) : GeminiErrorInfo :=
  let free := includes errorMessage "free_tier" in
  let specificMessage :=
    if free then "You have exceeded your free tier quota limits"
    else "You have exceeded your API quota limits" in
  let suggestions0 :=
    if free then freeTierSuggestions errorMessage
    else ["💳 Check your billing and payment details";
          "📈 You may need to increase your quota limits"] in
  match Regex.retryDelay_match errorMessage with
  | Some cap =>
      let retryAfter := parseInt10 cap in
      {| type := quota_exceeded;
         message := specificMessage;
         suggestions := (suggestions0 ++ [retrySuggestion retryAfter])%list;
         retryAfter := Some retryAfter |}
  | None =>
      {| type := quota_exceeded;
         message := specificMessage;
         suggestions := suggestions0;
         retryAfter := None |}
  end.

Definition parseRateLimitError (errorMessage : string) : GeminiErrorInfo :=
  let perMinute := includes errorMessage "requests per minute" in
  let specificMessage :=
    if perMinute then "Too many requests per minute"
    else "Rate limit exceeded" in
  let s0 := push_if perMinute
              ["⏱️  You're making requests too quickly";
               "⏳ Wait 1-2 minutes before trying again"] [] in
  let s1 := push_if (includes errorMessage "quota metric")
              ["📊 API quota limits reached";
               "💡 Try using a lighter model like gemini-1.5-flash"] s0 in
  {| type := rate_limit;
     message := specificMessage;
     suggestions :=
       (s1 ++ ["🔄 The system will automatically retry with delays"])%list;
     retryAfter := None |}.

(** [parseGeminiError(error)], as a function of [error.message]. *)
Definition parseGeminiError (error_message : string) : GeminiErrorInfo :=
  let errorMessage := toLowerCase error_message in
  if includes errorMessage "exceeded your current quota"
     || includes errorMessage "quotafailure" then
    parseQuotaError error_message
  else if includes errorMessage "429"
          && includes errorMessage "rate_limit_exceeded" then
    parseRateLimitError error_message
  else if includes errorMessage "401" || includes errorMessage "api_key" then
    {| type := invalid_key;
       message := "Invalid or missing API key";
       suggestions :=
         ["Check that your API key is correct";
          "Ensure your API key has the necessary permissions";
          "Get a new API key at: https://makersuite.google.com/app/apikey"];
       retryAfter := None |}
  else if includes errorMessage "400" || includes errorMessage "content" then
    {| type := content_too_large;
       message := "Request content is too large or malformed";
       suggestions :=
         ["Try analyzing a smaller repository";
          "Reduce the number of files being analyzed";
          "Use a different model that supports larger inputs"];
       retryAfter := None |}
  else if includes errorMessage "model"
          && includes errorMessage "not found" then
    {| type := model_unavailable;
       message := "The selected model is not available";
       suggestions :=
         ["Try a different model like gemini-1.5-flash";
          "Check if the model name is correct";
          "Some models may not be available in your region"];
       retryAfter := None |}
  else
    {| type := unknown;
       message := error_message;
       suggestions :=
         ["Try again in a few minutes";
          "Check your internet connection";
          "Contact support if the issue persists"];
       retryAfter := None |}.

(** ** types.ts *)

Inductive ModelType : Set := standard | advanced.

Record GeminiConfig : Set := mkConfig {
  model : string;
  apiKey : string;
  modelType : ModelType;
  (** optional in the source; an absent flag is falsy *)
  enableAdvancedFeatures : bool
}.

Record FileInfo : Set := mkFile {
  path : string;
  content : string;
  size : N;
  extension : string
}.

(** [file.content.length] *)
Definition content_length (f : FileInfo) : N :=
  N.of_nat (utf16_length (content f)).

(** ** quota-checker.ts *)

(** [Math.ceil(a / b)] on non-negative integers. *)
Definition ceil_div (a b : N) : N :=
  let (q, r) := N.div_eucl a b in
  if (r =? 0)%N then q else (q + 1)%N.

(** The reducer of [estimateTokenUsage]. *)
Definition totalChars (files : list FileInfo) : N :=
  fold_left (fun sum file => (sum + N.min (content_length file) 2000)%N)
            files 0%N.

Definition promptOverhead : N := 1000.

Definition estimateTokenUsage (files : list FileInfo) : N :=
  ceil_div (totalChars files + promptOverhead) 4.

(** ** analyzer.ts: the prompt builder *)

Definition maxFiles (config : GeminiConfig) : nat :=
  match modelType config with advanced => 20 | standard => 12 end.

Definition maxContentLength (config : GeminiConfig) : nat :=
  match modelType config with advanced => 2000 | standard => 1200 end.

Definition truncationMarker : string := newline ++ "... (truncated)".

(** What the [map] callback of [createAnalysisPrompt] computes for one
    file, before it is rendered. *)
Record PromptBlock : Set := mkBlock {
  block_file : FileInfo;
  block_content : string;
  block_truncated : string
}.

Definition makeBlock (config : GeminiConfig) (f : FileInfo) : PromptBlock :=
  {| block_file := f;
     block_content := slice0 (maxContentLength config) (content f);
     block_truncated :=
       if (maxContentLength config <? utf16_length (content f))%nat
       then truncationMarker else "" |}.

(** [files.filter(f => f.size < 30000).slice(0, maxFiles).map(...)] *)
Definition promptBlocks (files : list FileInfo) (config : GeminiConfig)
  : list PromptBlock :=
  map (makeBlock config)
      (firstn (maxFiles config)
              (filter (fun f => (size f <? 30000)%N) files)).

Definition renderBlock (b : PromptBlock) : string :=
  "File: " ++ path (block_file b) ++ newline ++
  "Content:" ++ newline ++
  block_content b ++ block_truncated b ++ newline ++
  "---" ++ newline.

Definition fileList (files : list FileInfo) (config : GeminiConfig) : string :=
  join newline (map renderBlock (promptBlocks files config)).

Definition createAnalysisPrompt (files : list FileInfo) (config : GeminiConfig)
  : string :=
  let prompt := "
Analyze this codebase and provide a comprehensive summary. Focus on:

1. **Project Purpose**: What does this project do?
2. **Technology Stack**: What frameworks, libraries, and tools are used?
3. **Key Files**: Identify the most important files and their purposes
4. **Architecture**: How is the project structured?
5. **Main Features**: What are the core functionalities?

Files to analyze (" ++ of_N (N.of_nat (List.length files)) ++
    " total files, showing first " ++
    of_N (N.of_nat (Nat.min (maxFiles config) (List.length files))) ++ "):
" ++ fileList files config ++ "

Please provide a detailed analysis in a structured format that explains:
- The overall purpose and goal of this project
- The main technologies and frameworks used
- The most important files and what they do
- The project's architecture and organization
- Key features and functionality

Be specific and technical, but also accessible to developers who are new to this codebase.
" in
  match modelType config, enableAdvancedFeatures config with
  | advanced, true => prompt ++ "

ENHANCED ANALYSIS MODE:
- Provide deeper insights into code patterns and best practices
- Identify potential improvements or architectural concerns
- Analyze the development workflow and tooling setup
- Comment on code quality and maintainability
- Suggest areas for optimization or refactoring

Keep your response comprehensive and well-structured (aim for 800-1200 words).
"
  | _, _ => prompt ++ newline ++
      "Keep your response concise but informative (aim for 500-700 words)."
  end.

(** ** Array.prototype.sort

    The sort of ECMAScript is stable, and for a consistent comparator its
    result is fixed by that: the stable insertion sort below computes it. *)

Section JsSort.
Context {A : Type}.
Variable compare : A -> A -> Z.

Fixpoint insert_sorted (x : A) (l : list A) : list A :=
  match l with
  | [] => [x]
  | y :: ys =>
      if (compare x y <=? 0)%Z then x :: y :: ys
      else y :: insert_sorted x ys
  end.

Definition js_sort (l : list A) : list A :=
  fold_right insert_sorted [] l.
End JsSort.

(** ** scanner.ts *)

Definition IMPORTANT_EXTENSIONS : list string :=
  [".js"; ".ts"; ".jsx"; ".tsx"; ".vue"; ".py"; ".go"; ".rs"; ".java";
   ".json"; ".md"; ".yml"; ".yaml"; ".toml"; ".config.js"; ".config.ts"].

(** [IMPORTANT_EXTENSIONS.includes(extension)] *)
Definition hasImportantExtension (extension : string) : bool :=
  existsb (String.eqb extension) IMPORTANT_EXTENSIONS.

(** One path that [glob] returned (ignore patterns applied, directories and
    dot files left out), with what the library calls of the loop body give
    for it: [fs.stat(...).size], [path.extname(...)], and the text that
    [fs.readFile(..., utf-8)] returns, [None] when it throws. *)
Record DirEntry : Set := mkEntry {
  entry_path : string;
  entry_size : N;
  entry_extname : string;
  entry_text : option string
}.

(** [isImportant] of the scan loop. *)
Definition isImportant (e : DirEntry) : bool :=
  hasImportantExtension (entry_extname e)
  || includes (entry_path e) "package.json"
  || includes (entry_path e) "README"
  || includes (entry_path e) "config".

(** One iteration of the scan loop over the list [files] built so far. *)
Definition scanStep (files : list FileInfo) (e : DirEntry) : list FileInfo :=
  if (1024 * 1024 <? entry_size e)%N then files
  else if isImportant e || (List.length files <? 50)%nat then
    match entry_text e with
    | Some text =>
        (files ++ [{| path := entry_path e;
                      content := text;
                      size := entry_size e;
                      extension := entry_extname e |}])%list
    | None => files
    end
  else files.

(** The comparator handed to [files.sort]. *)
Definition scanCompare (a b : FileInfo) : Z :=
  let aImportant := hasImportantExtension (extension a) in
  let bImportant := hasImportantExtension (extension b) in
  if aImportant && negb bImportant then (-1)%Z
  else if negb aImportant && bImportant then 1%Z
  else (Z.of_N (size a) - Z.of_N (size b))%Z.

Definition scanRepository (allFiles : list DirEntry) : list FileInfo :=
  js_sort scanCompare (fold_left scanStep allFiles []).

(** Importance of a scanned file as the scan loop decides it, read off the
    record the loop stored. *)
Definition fileIsImportant (f : FileInfo) : bool :=
  hasImportantExtension (extension f)
  || includes (path f) "package.json"
  || includes (path f) "README"
  || includes (path f) "config".

(** ** fallback-analyzer.ts *)

(** [files.some(...)] guarding a push on the technology list. *)
Definition detect (files : list FileInfo) (test : FileInfo -> bool)
           (label : string) (techStack : list string) : list string :=
  push_if (existsb test files) [label] techStack.

(** The technology list that [generateBasicAnalysis] builds. *)
Definition detectTechStack (files : list FileInfo) : list string :=
  let t0 := detect files (fun f => includes (path f) "package.json")
                   "Node.js/JavaScript" [] in
  let t1 := detect files (fun f => String.eqb (extension f) ".tsx"
                                   || String.eqb (extension f) ".jsx")
                   "React" t0 in
  let t2 := detect files (fun f => String.eqb (extension f) ".ts")
                   "TypeScript" t1 in
  let t3 := detect files (fun f => includes (path f) "next.config")
                   "Next.js" t2 in
  let t4 := detect files (fun f => includes (path f) "tailwind")
                   "Tailwind CSS" t3 in
  let t5 := detect files (fun f => String.eqb (extension f) ".py")
                   "Python" t4 in
  detect files (fun f => String.eqb (extension f) ".go") "Go" t5.

(** [techStack.includes(label)] *)
Definition stackIncludes (techStack : list string) (label : string) : bool :=
  existsb (String.eqb label) techStack.

Definition guessProjectType (files : list FileInfo) (techStack : list string)
  : string :=
  if stackIncludes techStack "Next.js" then "Next.js web application"
  else if stackIncludes techStack "React" then "React application"
  else if existsb (fun f => includes (path f) "package.json") files
       then "Node.js application"
  else if stackIncludes techStack "Python" then "Python application"
  else if stackIncludes techStack "Go" then "Go application"
  else "software".

(** [totalLines] of [generateBasicAnalysis]. *)
Definition totalLines (files : list FileInfo) : N :=
  fold_left (fun sum file => (sum + split_count "010"%char (content file))%N)
            files 0%N.

(** The computed parts of the text of [generateBasicAnalysis]: the counts,
    the technology list and the project-type sentence. *)
Record BasicAnalysis : Set := mkBasic {
  basic_fileCount : nat;
  basic_totalLines : N;
  basic_techStack : list string;
  basic_projectType : string
}.

Definition generateBasicAnalysis (files : list FileInfo) : BasicAnalysis :=
  let techStack := detectTechStack files in
  {| basic_fileCount := List.length files;
     basic_totalLines := totalLines files;
     basic_techStack := techStack;
     basic_projectType := guessProjectType files techStack |}.

(** ** analyzer.ts: the retry and recovery orchestrator *)

(** What a [catch] clause can receive. *)
Inductive Thrown : Set :=
| UserExitError (message : string)     (* an instance of the class *)
| PlainError (name message : string)   (* any other [Error] *)
| NotAnError.                          (* a thrown value that is no [Error] *)

(** [error instanceof Error && error.name], when there is one. *)
Definition errorName (t : Thrown) : option string :=
  match t with
  | UserExitError _ => Some "UserExitError"
  | PlainError name _ => Some name
  | NotAnError => None
  end.

(** [error.message], when [error instanceof Error]. *)
Definition errorMessage (t : Thrown) : option string :=
  match t with
  | UserExitError message => Some message
  | PlainError _ message => Some message
  | NotAnError => None
  end.

Inductive Completion (A : Type) : Type :=
| Returned (a : A)
| Threw (t : Thrown).
Arguments Returned {A} a.
Arguments Threw {A} t.

(** One call of [client.generateContent]: the text, or what it throws.  The
    class [UserExitError] is private to analyzer.ts, so the Gateway throws
    an [Error] of another class or a value that is no [Error]. *)
Inductive GatewayResult : Set :=
| Generated (text : string)
| Failed (name message : string)
| FailedNotAnError.

(** The answers of the decision menu. *)
Inductive Action : Set := fallback | retry | exit.

(** The collaborators of one run: the files the scanner finds, the Gateway
    (its n-th call, for a configuration and a prompt), and the user (the
    n-th answer to each kind of question). *)
Record Env : Type := mkEnv {
  scanned : list FileInfo;
  gateway : nat -> GeminiConfig -> string -> GatewayResult;
  menuAnswer : nat -> Action;
  confirmAnswer : nat -> bool;
  passwordAnswer : nat -> string
}.

Inductive Event : Set :=
| Scanned
| GatewayCalled (prompt : string)
| Waited (milliseconds : N)          (* the backoff of [generateWithRetry] *)
| MenuAsked (answer : Action)
| CountedDown (seconds : N)          (* the one-second ticks before a retry *)
| ConfirmAsked (answer : bool)
| PasswordAsked.

Record World : Set := mkWorld {
  gatewayCalls : nat;
  menusAsked : nat;
  confirmsAsked : nat;
  passwordsAsked : nat;
  trace : list Event
}.

Definition initialWorld : World :=
  {| gatewayCalls := 0; menusAsked := 0; confirmsAsked := 0;
     passwordsAsked := 0; trace := [] |}.

Definition log (e : Event) (w : World) : World :=
  {| gatewayCalls := gatewayCalls w;
     menusAsked := menusAsked w;
     confirmsAsked := confirmsAsked w;
     passwordsAsked := passwordsAsked w;
     trace := (trace w ++ [e])%list |}.

Definition callGateway (E : Env) (config : GeminiConfig) (prompt : string)
           (w : World) : GatewayResult * World :=
  (gateway E (gatewayCalls w) config prompt,
   log (GatewayCalled prompt)
       {| gatewayCalls := S (gatewayCalls w);
          menusAsked := menusAsked w;
          confirmsAsked := confirmsAsked w;
          passwordsAsked := passwordsAsked w;
          trace := trace w |}).

Definition askMenu (E : Env) (w : World) : Action * World :=
  let a := menuAnswer E (menusAsked w) in
  (a, log (MenuAsked a)
          {| gatewayCalls := gatewayCalls w;
             menusAsked := S (menusAsked w);
             confirmsAsked := confirmsAsked w;
             passwordsAsked := passwordsAsked w;
             trace := trace w |}).

Definition askConfirm (E : Env) (w : World) : bool * World :=
  let b := confirmAnswer E (confirmsAsked w) in
  (b, log (ConfirmAsked b)
          {| gatewayCalls := gatewayCalls w;
             menusAsked := menusAsked w;
             confirmsAsked := S (confirmsAsked w);
             passwordsAsked := passwordsAsked w;
             trace := trace w |}).

Definition askPassword (E : Env) (w : World) : string * World :=
  (passwordAnswer E (passwordsAsked w),
   log PasswordAsked
       {| gatewayCalls := gatewayCalls w;
          menusAsked := menusAsked w;
          confirmsAsked := confirmsAsked w;
          passwordsAsked := S (passwordsAsked w);
          trace := trace w |}).

(** What the Gateway throws, as the [catch] clause sees it. *)
Definition thrownBy (r : GatewayResult) : Thrown :=
  match r with
  | Failed name message => PlainError name message
  | _ => NotAnError
  end.

(** The [for] loop of [generateWithRetry], entered with the counter at
    [attempt] and [remaining] iterations to go. *)
Fixpoint retryLoop (E : Env) (config : GeminiConfig) (prompt : string)
         (maxRetries : nat) (remaining attempt : nat) (w : World)
  : Completion string * World :=
  match remaining with
  | O => (Threw (PlainError "Error" "Max retries exceeded"), w)
  | S remaining' =>
      match callGateway E config prompt w with
      | (Generated text, w1) => (Returned text, w1)
      | (failure, w1) =>
          let error := thrownBy failure in
          if (attempt =? maxRetries)%nat then (Threw error, w1)
          else
            match errorMessage error with
            | Some message =>
                match type (parseGeminiError message) with
                | rate_limit =>
                    let waitTime := (2 ^ N.of_nat attempt * 1000)%N in
                    retryLoop E config prompt maxRetries remaining'
                              (S attempt) (log (Waited waitTime) w1)
                | _ => (Threw error, w1)
                end
            | None => (Threw error, w1)
            end
      end
  end.

Definition generateWithRetry (E : Env) (config : GeminiConfig)
           (prompt : string) (maxRetries : nat) (w : World)
  : Completion string * World :=
  retryLoop E config prompt maxRetries maxRetries 1 w.

(** The default of the parameter [maxRetries]. *)
Definition defaultMaxRetries : nat := 2.

(** The arguments with which [generateReport] is called; building and
    saving the report is the business of report.ts. *)
Inductive AnalysisText : Set :=
| AiText (text : string)
| BasicText (analysis : BasicAnalysis).

Record RunReport : Set := mkReport {
  report_files : list FileInfo;
  report_analysis : AnalysisText;
  report_modelUsed : string;
  report_modelType : ModelType
}.

(** fallback-analyzer.ts, [analyzeFallback]. *)
Definition analyzeFallback (E : Env) (w : World)
  : Completion RunReport * World :=
  let files := scanned E in
  (Returned {| report_files := files;
               report_analysis := BasicText (generateBasicAnalysis files);
               report_modelUsed := "fallback-analyzer";
               report_modelType := standard |},
   log Scanned w).

(** [errorInfo.retryAfter || 60] *)
Definition waitTimeOf (errorInfo : GeminiErrorInfo) : JsNumber :=
  match retryAfter errorInfo with
  | Some n => if Number.truthy n then n else Num 60
  | None => Num 60
  end.

(** The countdown [for (let i = waitTime; i > 0; i--)], one second a
    round, as the loop that it is: the number of its rounds, [None] when
    [fuel] rounds do not end it. *)
Fixpoint countdownLoop (fuel : nat) (i : JsNumber) : option N :=
  match fuel with
  | O => None
  | S fuel' =>
      if Number.ltb (Num 0) i
      then option_map N.succ (countdownLoop fuel' (Number.decrement i))
      else Some 0%N
  end.

(** The countdown in closed form: the number of its rounds, [None] when it
    never ends.  The counter is a double.  Up to 2^53 every round lowers
    it by 1.  From 2^53 + 2 one round leads to 2^53.  Above that, and at
    infinity, subtracting 1 gives, in one round or two, a counter that
    subtracting 1 no longer changes.  ([countdown_is_the_loop] below shows
    that this is what the loop does.) *)
Definition countdown (waitTime : JsNumber) : option N :=
  match waitTime with
  | NaN => Some 0%N
  | Infinity negative => if negative then Some 0%N else None
  | Num z =>
      if (z <=? 0)%Z then Some 0%N
      else if (z <=? 2 ^ 53)%Z then Some (Z.to_N z)
      else if (z =? 2 ^ 53 + 2)%Z then Some (2 ^ 53 + 1)%N
      else None
  end.

Definition withApiKey (config : GeminiConfig) (key : string) : GeminiConfig :=
  {| model := model config;
     apiKey := key;
     modelType := modelType config;
     enableAdvancedFeatures := enableAdvancedFeatures config |}.

(** [analyzeRepository].  The function calls itself for a retry the user
    asks for, as often as the user asks: [fuel] bounds the depth of these
    calls, and [None] says that it did not suffice.  No fuel suffices for
    a run that enters a countdown without end. *)
Fixpoint analyzeRepository (fuel : nat) (E : Env) (config : GeminiConfig)
         (w : World) : option (Completion RunReport * World) :=
  match fuel with
  | O => None
  | S fuel' =>
      let files := scanned E in
      let prompt := createAnalysisPrompt files config in
      match generateWithRetry E config prompt defaultMaxRetries
                              (log Scanned w) with
      | (Returned analysis, w1) =>
          Some (Returned {| report_files := files;
                            report_analysis := AiText analysis;
                            report_modelUsed := model config;
                            report_modelType := modelType config |}, w1)
      | (Threw error, w1) =>
          match error with
          | UserExitError _ => Some (Threw error, w1)
          | PlainError _ message =>
              let errorInfo := parseGeminiError message in
              match type errorInfo with
              | quota_exceeded | rate_limit =>
                  match askMenu E w1 with
                  | (fallback, w2) => Some (analyzeFallback E w2)
                  | (retry, w2) =>
                      match countdown (waitTimeOf errorInfo) with
                      | Some seconds =>
                          analyzeRepository fuel' E config
                            (log (CountedDown seconds) w2)
                      | None => None
                      end
                  | (exit, w2) =>
                      Some (Threw (UserExitError "User chose to exit"), w2)
                  end
              | invalid_key =>
                  match askConfirm E w1 with
                  | (true, w2) =>
                      let (newKey, w3) := askPassword E w2 in
                      analyzeRepository fuel' E (withApiKey config newKey) w3
                  | (false, w2) =>
                      Some (Threw (UserExitError
                                     "User chose not to provide new API key"),
                            w2)
                  end
              | _ => Some (Threw error, w1)
              end
          | NotAnError => Some (Threw error, w1)
          end
      end
  end.

(** ** index.ts *)

(** How [handleAnalysis] ends: the report is handed to the local server, or
    the process exits with a status code. *)
Inductive ProcessEnd : Set :=
| Serving (report : RunReport)
| Exited (code : N).

(** The test of the [catch] clause of [handleAnalysis]. *)
Definition isUserExit (error : Thrown) : bool :=
  match errorName error with
  | Some name => String.eqb name "UserExitError"
  | None => false
  end.

Definition handleAnalysis (fuel : nat) (E : Env) (config : GeminiConfig)
  : option (ProcessEnd * World) :=
  match analyzeRepository fuel E config initialWorld with
  | None => None
  | Some (Returned report, w) => Some (Serving report, w)
  | Some (Threw error, w) =>
      Some (Exited (if isUserExit error then 0 else 1), w)
  end.

(** ** Sample data for the properties *)

(** The text retryDelay: "30s", quotes included. *)
Definition retryDelay30 : string :=
  "retryDelay: " ++ String dquote ("30s" ++ String dquote "").

(** The same with a delay of 7 seconds. *)
Definition retryDelay7 : string :=
  "retryDelay: " ++ String dquote ("7s" ++ String dquote "").

(** A suggestion mentions a minute when the word occurs in it, in any
    case. *)
Definition mentionsMinute (suggestion : string) : bool :=
  includes (toLowerCase suggestion) "minute".

Fixpoint repeat_char (n : nat) (c : ascii) : string :=
  match n with
  | O => EmptyString
  | S n' => String c (repeat_char n' c)
  end.

(** A file of 1500 characters, above the cap of the standard tier. *)
Definition longFile : FileInfo :=
  mkFile "src/long.ts" (repeat_char 1500 "x") 1500 ".ts".

Definition standardConfig : GeminiConfig :=
  mkConfig "gemini-1.5-flash" "key" standard false.

(** A directory with a plain text file and a README without extension. *)
Definition notesEntry : DirEntry :=
  mkEntry "notes.txt" 5 ".txt" (Some "hello").

Definition readmeEntry : DirEntry :=
  mkEntry "README" 10 "" (Some "0123456789").

Definition notesFile : FileInfo := mkFile "notes.txt" "hello" 5 ".txt".

Definition readmeFile : FileInfo := mkFile "README" "0123456789" 10 "".

(** The order of a comparator: [a] may stand before [b]. *)
Definition leBy {A : Type} (compare : A -> A -> Z) (a b : A) : Prop :=
  (compare a b <= 0)%Z.

(** The order that the comparator of the scanner sorts by. *)
Definition scanLe : FileInfo -> FileInfo -> Prop := leBy scanCompare.

(** Case analysis on a byte. *)
Ltac ascii_cases c := destruct c as [[] [] [] [] [] [] [] []].

(** The kinds for which [analyzeRepository] offers no recovery. *)
Definition fatalKind (t : ErrorType) : bool :=
  match t with
  | model_unavailable | content_too_large | unknown => true
  | _ => false
  end.

(** The kinds for which [analyzeRepository] shows the decision menu. *)
Definition menuKind (t : ErrorType) : bool :=
  match t with
  | quota_exceeded | rate_limit => true
  | _ => false
  end.

(** The world after one more Gateway call. *)
Definition afterCall (prompt : string) (w : World) : World :=
  {| gatewayCalls := S (gatewayCalls w);
     menusAsked := menusAsked w;
     confirmsAsked := confirmsAsked w;
     passwordsAsked := passwordsAsked w;
     trace := (trace w ++ [GatewayCalled prompt])%list |}.



(** The message of the provider for a rate limit. *)
Definition rateLimitMessage : string :=
  "[429 Too Many Requests] rate_limit_exceeded".

(** A Gateway stub that fails twice with a rate limit and then succeeds. *)
Definition flakyGateway (n : nat) (_ : GeminiConfig) (_ : string)
  : GatewayResult :=
  match n with
  | 0 | 1 => Failed "Error" rateLimitMessage
  | _ => Generated "analysis of the third call"
  end.

(** A Gateway stub that always fails with the given message. *)
Definition failingGateway (message : string) (_ : nat) (_ : GeminiConfig)
           (_ : string) : GatewayResult :=
  Failed "Error" message.


(** A scripted user who gives the same answers every time. *)
Definition stubEnv (g : nat -> GeminiConfig -> string -> GatewayResult)
           (answer : Action) (confirm : bool) : Env :=
  {| scanned := [notesFile];
     gateway := g;
     menuAnswer := fun _ => answer;
     confirmAnswer := fun _ => confirm;
     passwordAnswer := fun _ => "new-key" |}.

(** ** More of JavaScript: splitting, replacing, rendering integers *)

(** [s.split(sep)] for a one-character separator. *)
Fixpoint split_on (sep : ascii) (s : string) : list string :=
  match s with
  | EmptyString => [EmptyString]
  | String c s' =>
      if Ascii.eqb c sep then EmptyString :: split_on sep s'
      else
        match split_on sep s' with
        | [] => [String c EmptyString]
        | x :: xs => String c x :: xs
        end
  end.

(** [s.replace(re, empty)] for a global pattern that is one character
    class: the characters of the class are dropped. *)
Fixpoint remove_chars (p : ascii -> bool) (s : string) : string :=
  match s with
  | EmptyString => EmptyString
  | String c s' =>
      if p c then remove_chars p s' else String c (remove_chars p s')
  end.

(** [s.endsWith(suffix)] *)
Fixpoint endsWith (s suffix : string) : bool :=
  String.eqb s suffix ||
  match s with
  | EmptyString => false
  | String _ s' => endsWith s' suffix
  end.

(** Rendering of an integer in a template literal. *)
Definition of_Z (z : Z) : string := NilZero.string_of_int (Z.to_int z).

(** Value of a decimal numeral read from the left, continuing from [acc]. *)
Fixpoint uint_value (acc : N) (d : Decimal.uint) : N :=
  match d with
  | Decimal.Nil => acc
  | Decimal.D0 d' => uint_value (10 * acc) d'
  | Decimal.D1 d' => uint_value (10 * acc + 1) d'
  | Decimal.D2 d' => uint_value (10 * acc + 2) d'
  | Decimal.D3 d' => uint_value (10 * acc + 3) d'
  | Decimal.D4 d' => uint_value (10 * acc + 4) d'
  | Decimal.D5 d' => uint_value (10 * acc + 5) d'
  | Decimal.D6 d' => uint_value (10 * acc + 6) d'
  | Decimal.D7 d' => uint_value (10 * acc + 7) d'
  | Decimal.D8 d' => uint_value (10 * acc + 8) d'
  | Decimal.D9 d' => uint_value (10 * acc + 9) d'
  end%N.

(** All characters of a string satisfy a test. *)
Fixpoint all_chars (p : ascii -> bool) (s : string) : bool :=
  match s with
  | EmptyString => true
  | String c s' => p c && all_chars p s'
  end.

(** The first character of a string, if any, fails a test. *)
Definition head_fails (p : ascii -> bool) (s : string) : bool :=
  match s with
  | EmptyString => true
  | String c _ => negb (p c)
  end.

(** ** index.ts: the port option *)

(** The check of the action of the default command on [options.port], the
    text that commander hands to it for the option [--port]: the port that
    goes to [handleAnalysis], or [None] when the process exits with status
    1.  (The actions of the sub-commands analyze and serve hold the same
    lines; which text commander hands to them is not part of this
    development.) *)
Definition parsePortOption (value : string) : option JsNumber :=
  let port := parseInt value in
  if Number.isNaN port || Number.ltb port (Num 1024)
     || Number.ltb (Num 65535) port
  then None
  else Some port.

(** ** port-utils.ts *)

Definition getPortSuggestions (currentPort : N) : list N :=
  filter (fun port => negb (port =? currentPort)%N)
         [3000; 3001; 4000; 5000; 8000; 8080; 9000]%N.

(** The loop of [findAvailablePort], with [remaining] ports to try from
    [port] on.  [isPortAvailable] tells which ports can be bound; the search
    takes it not to change while it runs. *)
Fixpoint findPortLoop (isPortAvailable : N -> bool) (remaining : nat)
         (port : N) : option N :=
  match remaining with
  | O => None
  | S remaining' =>
      if isPortAvailable port then Some port
      else findPortLoop isPortAvailable remaining' (port + 1)
  end.

Definition findAvailablePort (isPortAvailable : N -> bool)
           (startPort maxAttempts : N) : Completion N :=
  match findPortLoop isPortAvailable (N.to_nat maxAttempts) startPort with
  | Some port => Returned port
  | None =>
      Threw (PlainError "Error"
               ("No available ports found in range " ++ of_N startPort ++ "-"
                ++ of_Z (Z.of_N startPort + Z.of_N maxAttempts - 1)))
  end.

(** The default of the parameter [maxAttempts]. *)
Definition defaultMaxAttempts : N := 10.

(** The answer to the port menu of [promptForPort]: one of the listed
    ports, or one of the two other entries. *)
Inductive PortChoice : Set :=
| listedPort (port : N)
| customPort
| autoPort.

(** The port that a number denotes, for [isPortAvailable]. *)
Definition portNumber (port : JsNumber) : N :=
  match port with
  | Num z => Z.to_N z
  | _ => 0%N
  end.

(** The validation of [promptForCustomPort]: [None] when the input is
    accepted, or the message shown before the question is asked again. *)
Definition validateCustomPort (isPortAvailable : N -> bool) (input : string)
  : option string :=
  let port := parseInt input in
  if Number.isNaN port || Number.ltb port (Num 1024)
     || Number.ltb (Num 65535) port
  then Some "Please enter a valid port number between 1024 and 65535"
  else if isPortAvailable (portNumber port) then None
  else Some ("Port " ++ Number.toString port
             ++ " is already in use. Please choose another port.").

(** [promptForCustomPort]: the question is asked until an input passes the
    validation; [inputs] are the successive inputs as the validation gets
    them (the default 3000 for an empty line), [fuel] bounds their number,
    and [None] says that it did not suffice. *)
Fixpoint promptForCustomPort (isPortAvailable : N -> bool)
         (inputs : nat -> string) (fuel : nat) (asked : nat)
  : option JsNumber :=
  match fuel with
  | O => None
  | S fuel' =>
      match validateCustomPort isPortAvailable (inputs asked) with
      | None => Some (parseInt (inputs asked))
      | Some _ => promptForCustomPort isPortAvailable inputs fuel' (S asked)
      end
  end.

(** The suggested ports that [promptForPort] finds available. *)
Definition availableSuggestions (isPortAvailable : N -> bool)
           (defaultPort : N) : list N :=
  filter isPortAvailable (firstn 5 (getPortSuggestions defaultPort)).

(** [promptForPort]: the port, or what the automatic search throws;
    [None] when the fuel of the custom question did not suffice. *)
Definition promptForPort (isPortAvailable : N -> bool)
           (choice : PortChoice) (inputs : nat -> string) (fuel : nat)
           (defaultPort : N) : option (Completion JsNumber) :=
  let auto :=
    match findAvailablePort isPortAvailable (defaultPort + 1)
                            defaultMaxAttempts with
    | Returned port => Returned (Num (Z.of_N port))
    | Threw error => Threw error
    end in
  let custom :=
    match promptForCustomPort isPortAvailable inputs fuel 0 with
    | Some port => Some (Returned port)
    | None => None
    end in
  match availableSuggestions isPortAvailable defaultPort with
  | _ :: _ =>
      match choice with
      | customPort => custom
      | autoPort => Some auto
      | listedPort port => Some (Returned (Num (Z.of_N port)))
      end
  | [] =>
      match choice with
      | customPort => custom
      | _ => Some auto
      end
  end.

(** server.ts, [startServer]: the choice of the port to listen on. *)
Definition serverPort (isPortAvailable : N -> bool)
           (choice : PortChoice) (inputs : nat -> string) (fuel : nat)
           (preferredPort : N) : option (Completion JsNumber) :=
  if isPortAvailable preferredPort
  then Some (Returned (Num (Z.of_N preferredPort)))
  else promptForPort isPortAvailable choice inputs fuel preferredPort.

(** ** gemini-client.ts *)

Record GenerationConfig : Set := mkGeneration {
  temperature : Q;
  topK : N;
  topP : Q;
  maxOutputTokens : N
}.

Definition getGenerationConfig (config : GeminiConfig) : GenerationConfig :=
  match modelType config, enableAdvancedFeatures config with
  | advanced, true =>
      {| temperature := 0.7%Q; topK := 40; topP := 0.95%Q;
         maxOutputTokens := 8192 |}
  | _, _ =>
      {| temperature := 0.9%Q; topK := 1; topP := 1%Q;
         maxOutputTokens := 2048 |}
  end.

(** ** quota-checker.ts: the warning *)

(** The limit of tokens per minute that [checkQuotaLimits] compares with. *)
Definition tokensPerMinute : N := 32000.

(** [checkQuotaLimits]: [true] when it prints the warning of a high token
    usage, [false] when it prints that the usage looks reasonable. *)
Definition checkQuotaLimits (files : list FileInfo) : bool :=
  (tokensPerMinute <? estimateTokenUsage files)%N.

(** ** report.ts *)

(** [path.basename] of a POSIX path that does not end in a slash: what
    follows the last slash. *)
Fixpoint basename (p : string) : string :=
  match p with
  | EmptyString => EmptyString
  | String c p' =>
      if includes p' "/" then basename p'
      else if Ascii.eqb c "/"%char then p' else p
  end.

Definition keyFileNames : list string :=
  ["package.json"; "README.md"; "index.js"; "index.ts"; "app.js"; "app.ts";
   "main.js"; "main.ts"; "next.config.js"; "vite.config.js";
   "webpack.config.js"].

Definition getPurpose (filePath : string) : string :=
  let fileName := toLowerCase (basename filePath) in
  if includes fileName "package.json"
  then "Project configuration and dependencies"
  else if includes fileName "readme" then "Project documentation"
  else if includes fileName "index" then "Main entry point"
  else if includes fileName "app" then "Application main file"
  else if includes fileName "config" then "Configuration file"
  else if includes fileName "route" then "API route handler"
  else if includes fileName "component" then "React component"
  else "Core project file".

Inductive Importance : Set := high | medium | low.

Record KeyFile : Set := mkKeyFile {
  key_path : string;
  key_purpose : string;
  key_importance : Importance
}.

(** The test of the loop of [identifyKeyFiles]. *)
Definition isKeyFile (file : FileInfo) : bool :=
  let fileName := basename (path file) in
  existsb (fun important =>
             includes (toLowerCase fileName) (toLowerCase important))
          keyFileNames.

Definition identifyKeyFiles (files : list FileInfo) : list KeyFile :=
  firstn 10
    (map (fun file => {| key_path := path file;
                         key_purpose := getPurpose (path file);
                         key_importance := high |})
         (filter isKeyFile files)).

(** The characters that [extractDescription] removes. *)
Definition is_markup (c : ascii) : bool :=
  Ascii.eqb c "#"%char || Ascii.eqb c "*"%char || Ascii.eqb c "-"%char.

(** The test with which [extractDescription] picks its line. *)
Definition describes (line : string) : bool :=
  includes (toLowerCase line) "purpose"
  || includes (toLowerCase line) "project"
  || includes (toLowerCase line) "does".

Definition extractDescription (analysis : string) : string :=
  let lines := split_on "010"%char analysis in
  match find describes lines with
  | Some descriptionLine =>
      match trim (remove_chars is_markup descriptionLine) with
      | EmptyString => "AI-analyzed project"
      | description => description
      end
  | None => "AI-analyzed project"
  end.

(** ** Reference data for the properties of the classifier *)

(** Every fixed suggestion text of error-handler.ts. *)
Definition suggestionPool : list string :=
  ["🆓 You're using the FREE tier of Gemini API";
   "📊 Too many input tokens used (text sent to AI)";
   "💡 Try analyzing smaller files or fewer files at once";
   "🔄 Too many requests made to the API";
   perMinuteSuggestion;
   "⏳ Wait 1-2 minutes before trying again";
   "📅 Free tier: 1,500 requests per day limit";
   "🌅 Wait until tomorrow or upgrade to paid plan";
   "💳 Consider upgrading to a paid plan for higher limits";
   "🔗 Billing info: https://console.cloud.google.com/billing";
   "💳 Check your billing and payment details";
   "📈 You may need to increase your quota limits";
   "⏱️  You're making requests too quickly";
   "📊 API quota limits reached";
   "💡 Try using a lighter model like gemini-1.5-flash";
   "🔄 The system will automatically retry with delays";
   "Check that your API key is correct";
   "Ensure your API key has the necessary permissions";
   "Get a new API key at: https://makersuite.google.com/app/apikey";
   "Try analyzing a smaller repository";
   "Reduce the number of files being analyzed";
   "Use a different model that supports larger inputs";
   "Try a different model like gemini-1.5-flash";
   "Check if the model name is correct";
   "Some models may not be available in your region";
   "Try again in a few minutes";
   "Check your internet connection";
   "Contact support if the issue persists"].

(** The fixed message texts of the kinds other than [unknown]. *)
Definition fixedMessages : list string :=
  ["You have exceeded your free tier quota limits";
   "You have exceeded your API quota limits";
   "Too many requests per minute";
   "Rate limit exceeded";
   "Invalid or missing API key";
   "Request content is too large or malformed";
   "The selected model is not available"].

(** The head of every suggestion that states a retry time. *)
Definition retrySuggestionHead : string := "⏰ Suggested retry time: ".

(** ** The events of the retry wrapper *)

(** [retries] rounds of a Gateway call followed by the backoff wait, the
    first round with the loop counter at [attempt]. *)
Fixpoint retriedEvents (prompt : string) (retries attempt : nat)
  : list Event :=
  match retries with
  | O => []
  | S retries' =>
      GatewayCalled prompt :: Waited (2 ^ N.of_nat attempt * 1000)
        :: retriedEvents prompt retries' (S attempt)
  end.

(** A run of the wrapper with [calls] Gateway calls: every call but the
    last is followed by its wait. *)
Definition backoffEvents (prompt : string) (calls attempt : nat)
  : list Event :=
  match calls with
  | O => []
  | S retries =>
      (retriedEvents prompt retries attempt ++ [GatewayCalled prompt])%list
  end.

(** The time waited in a list of events, in milliseconds. *)
Fixpoint totalWait (events : list Event) : N :=
  match events with
  | [] => 0
  | Waited ms :: rest => ms + totalWait rest
  | _ :: rest => totalWait rest
  end%N.

(** The world after [calls] more Gateway calls with these events. *)
Definition afterCalls (calls : nat) (events : list Event) (w : World)
  : World :=
  {| gatewayCalls := gatewayCalls w + calls;
     menusAsked := menusAsked w;
     confirmsAsked := confirmsAsked w;
     passwordsAsked := passwordsAsked w;
     trace := (trace w ++ events)%list |}.

(** The Gateway fails with a rate limit at its call number [n]. *)
Definition rateLimitedAt (E : Env) (config : GeminiConfig) (prompt : string)
           (n : nat) : Prop :=
  exists name message,
    gateway E n config prompt = Failed name message /\
    type (parseGeminiError message) = rate_limit.

(** ** The reports of a run *)

(** The report of a run that the Gateway answered. *)
Definition aiReport (E : Env) (config : GeminiConfig) (text : string)
  : RunReport :=
  {| report_files := scanned E;
     report_analysis := AiText text;
     report_modelUsed := model config;
     report_modelType := modelType config |}.

(** The report of a run that fell back to the basic analysis. *)
Definition fallbackReport (E : Env) : RunReport :=
  {| report_files := scanned E;
     report_analysis := BasicText (generateBasicAnalysis (scanned E));
     report_modelUsed := "fallback-analyzer";
     report_modelType := standard |}.

(** The wait before a retry that the user asked for, for a delay that the
    provider suggested or did not. *)
Definition countdownFor (suggested : option JsNumber) : JsNumber :=
  match suggested with
  | Some (Num 0%Z) | Some NaN | None => Num 60
  | Some n => n
  end.

(** ** The two modes of a request *)

(** The test that [createAnalysisPrompt] and [getGenerationConfig] share. *)
Definition usesEnhancedMode (config : GeminiConfig) : bool :=
  match modelType config, enableAdvancedFeatures config with
  | advanced, true => true
  | _, _ => false
  end.

Definition enhancedInstructions : string := "

ENHANCED ANALYSIS MODE:
- Provide deeper insights into code patterns and best practices
- Identify potential improvements or architectural concerns
- Analyze the development workflow and tooling setup
- Comment on code quality and maintainability
- Suggest areas for optimization or refactoring

Keep your response comprehensive and well-structured (aim for 800-1200 words).
".

Definition conciseInstruction : string :=
  newline ++
  "Keep your response concise but informative (aim for 500-700 words).".

(** ** The record that the scan loop stores for an entry *)

Definition fileOfEntry (e : DirEntry) (text : string) : FileInfo :=
  {| path := entry_path e;
     content := text;
     size := entry_size e;
     extension := entry_extname e |}.

(** The files of a list that the scan loop did not take for important. *)
Definition plainFiles (files : list FileInfo) : list FileInfo :=
  filter (fun f => negb (fileIsImportant f)) files.

(** ** The recognition table of the fallback analyzer *)

(** The labels of [generateBasicAnalysis] with their tests, in the order
    of the source. *)
Definition techTable : list (string * (FileInfo -> bool)) :=
  [("Node.js/JavaScript", fun f => includes (path f) "package.json");
   ("React", fun f => String.eqb (extension f) ".tsx"
                      || String.eqb (extension f) ".jsx");
   ("TypeScript", fun f => String.eqb (extension f) ".ts");
   ("Next.js", fun f => includes (path f) "next.config");
   ("Tailwind CSS", fun f => includes (path f) "tailwind");
   ("Python", fun f => String.eqb (extension f) ".py");
   ("Go", fun f => String.eqb (extension f) ".go")].

(** Some file passes the test. *)
Definition anyFile (files : list FileInfo) (test : FileInfo -> bool) : bool :=
  existsb test files.

(** ** Reference data for the description of a report *)

Definition defaultDescription : string := "AI-analyzed project".

(** A character that is neither a heading mark, nor an emphasis mark, nor
    a line feed. *)
Definition plainChar (c : ascii) : bool :=
  negb (Ascii.eqb c "#"%char || Ascii.eqb c "*"%char
        || Ascii.eqb c "010"%char).

(** ** prompts.ts *)

Record ModelInfo : Set := mkModelInfo {
  info_name : string;
  info_value : string;
  info_description : string;
  info_modelType : ModelType;
  info_isNew : bool;
  info_recommended : bool
}.

Definition GEMINI_MODELS : list ModelInfo :=
  [ {| info_name := "🚀 Gemini Pro Advanced (Enhanced Analysis)";
       info_value := "gemini-1.5-pro-advanced";
       info_description := "Enhanced model with advanced reasoning";
       info_modelType := advanced;
       info_isNew := true;
       info_recommended := true |};
    {| info_name := "⚡ Gemini Flash Advanced (Fast & Smart)";
       info_value := "gemini-1.5-flash-advanced";
       info_description := "Fast model with enhanced capabilities";
       info_modelType := advanced;
       info_isNew := true;
       info_recommended := true |};
    {| info_name := "📚 Gemini 1.5 Flash (Recommended)";
       info_value := "gemini-1.5-flash";
       info_description := "Fast and reliable model";
       info_modelType := standard;
       info_isNew := false;
       info_recommended := true |};
    {| info_name := "🎯 Gemini 1.5 Pro (Detailed Analysis)";
       info_value := "gemini-1.5-pro";
       info_description := "Detailed analysis with comprehensive insights";
       info_modelType := standard;
       info_isNew := false;
       info_recommended := false |} ].

(** The validation of the API key question: [None] when the input is
    accepted, or the message shown before the question is asked again. *)
Definition validateApiKey (input : string) : option string :=
  if (String.length input =? 0)%nat || (utf16_length (trim input) =? 0)%nat
  then Some "API key is required"
  else if (utf16_length (trim input) <? 20)%nat
  then Some "API key seems too short. Please check your key."
  else None.

(** The API key question, asked until an input passes the validation;
    [None] when the fuel did not suffice. *)
Fixpoint askApiKey (inputs : nat -> string) (fuel asked : nat)
  : option string :=
  match fuel with
  | O => None
  | S fuel' =>
      match validateApiKey (inputs asked) with
      | None => Some (inputs asked)
      | Some _ => askApiKey inputs fuel' (S asked)
      end
  end.

(** [getGeminiConfig], for a user who picks the entry number [picked] of
    the model list, types [keyInputs] and answers [enableAdvanced] when
    asked about the advanced features.  [None] when the list has no such
    entry or the fuel of the key question did not suffice. *)
Definition getGeminiConfig (picked : nat) (keyInputs : nat -> string)
           (fuel : nat) (enableAdvanced : bool) : option GeminiConfig :=
  match nth_error GEMINI_MODELS picked with
  | None => None
  | Some choice =>
      let modelAnswer := info_value choice in
      match find (fun m => String.eqb (info_value m) modelAnswer)
                 GEMINI_MODELS with
      | None => None
      | Some selectedModel =>
          match askApiKey keyInputs fuel 0 with
          | None => None
          | Some key =>
              Some {| model := modelAnswer;
                      apiKey := trim key;
                      modelType := info_modelType selectedModel;
                      enableAdvancedFeatures :=
                        match info_modelType selectedModel with
                        | advanced => enableAdvanced
                        | standard => false
                        end |}
          end
      end
  end.

(** ** gemini-client.ts: the model table *)

Definition modelMap : list (string * string) :=
  [("gemini-1.5-pro-advanced", "gemini-1.5-pro");
   ("gemini-1.5-flash-advanced", "gemini-1.5-flash");
   ("gemini-1.5-flash", "gemini-1.5-flash");
   ("gemini-1.5-pro", "gemini-1.5-pro");
   ("gemini-1.0-pro", "gemini-1.0-pro")].

(** The names that every object literal inherits from [Object.prototype]. *)
Definition objectPrototypeKeys : list string :=
  ["constructor"; "__defineGetter__"; "__defineSetter__"; "hasOwnProperty";
   "__lookupGetter__"; "__lookupSetter__"; "isPrototypeOf";
   "propertyIsEnumerable"; "toString"; "valueOf"; "__proto__";
   "toLocaleString"].

(** [mapToActualModel]: the entry of the table, the default for a name that
    the table does not have, and [None] for a name that the lookup finds
    among the inherited members, where the result is no model name. *)
Definition mapToActualModel (modelName : string) : option string :=
  match find (fun entry => String.eqb (fst entry) modelName) modelMap with
  | Some entry => Some (snd entry)
  | None =>
      if existsb (String.eqb modelName) objectPrototypeKeys then None
      else Some "gemini-1.5-flash"
  end.

(** ** Sample data for the properties of the orchestrator *)

(** A Gateway that accepts one API key only, and a user who agrees to
    enter it. *)
Definition keyCheckingEnv : Env :=
  {| scanned := [notesFile];
     gateway := fun _ config _ =>
                  if String.eqb (apiKey config) "new-key"
                  then Generated "analysis"
                  else Failed "Error" "[401] API_KEY invalid";
     menuAnswer := fun _ => exit;
     confirmAnswer := fun _ => true;
     passwordAnswer := fun _ => "new-key" |}.

(** * Properties *)

(** ** Strings *)

Section StringFacts.

Lemma prefix_app (p s : string) : String.prefix p (p ++ s) = true.
Proof.
  induction p as [|c p IH]; simpl.
  - now destruct s.
  - destruct (ascii_dec c c) as [_|ne]; [exact IH | now elim ne].
Qed.

Lemma prefix_split (p s : string) :
  String.prefix p s = true -> exists t, s = p ++ t.
Proof.
  revert s; induction p as [|c p IH]; intros s H.
  - now exists s.
  - destruct s as [|d s]; [discriminate|].
    simpl in H. destruct (ascii_dec c d) as [->|]; [|discriminate].
    destruct (IH _ H) as [t ->]. now exists t.
Qed.

Lemma includes_tail (c : ascii) (s p : string) :
  includes s p = true -> includes (String c s) p = true.
Proof. intros H; cbn [includes]; rewrite H; apply orb_true_r. Qed.

Lemma includes_head (c : ascii) (s p : string) :
  includes (String c s) p = false -> includes s p = false.
Proof. cbn [includes]; intros H; now apply orb_false_elim in H. Qed.

Lemma includes_prefix (s p : string) :
  String.prefix p s = true -> includes s p = true.
Proof. intros H; destruct s; cbn [includes]; rewrite H; reflexivity. Qed.

(** An occurrence between any two strings is found. *)
Lemma includes_app (a p b : string) : includes (a ++ p ++ b) p = true.
Proof.
  induction a as [|c a IH]; cbn [append].
  - apply includes_prefix, prefix_app.
  - now apply includes_tail.
Qed.

(** And what is found is an occurrence. *)
Lemma includes_split (s p : string) :
  includes s p = true -> exists a b, s = a ++ p ++ b.
Proof.
  induction s as [|c s IH]; cbn [includes]; intros H.
  - rewrite orb_false_r in H. destruct (prefix_split _ _ H) as [t ->].
    now exists "", t.
  - apply orb_true_iff in H as [H|H].
    + destruct (prefix_split _ _ H) as [t ->]. now exists "", t.
    + destruct (IH H) as (a & b & ->). now exists (String c a), b.
Qed.

Lemma string_app_assoc (a b c : string) : (a ++ b) ++ c = a ++ (b ++ c).
Proof. induction a as [|x a IH]; cbn; [|rewrite IH]; reflexivity. Qed.

Lemma string_app_nil_r (a : string) : a ++ "" = a.
Proof. induction a as [|x a IH]; cbn; [|rewrite IH]; reflexivity. Qed.

Lemma toLowerCase_app (a b : string) :
  toLowerCase (a ++ b) = toLowerCase a ++ toLowerCase b.
Proof. induction a as [|c a IH]; simpl; [|rewrite IH]; reflexivity. Qed.

Lemma toLowerCase_length (s : string) :
  String.length (toLowerCase s) = String.length s.
Proof. induction s; simpl; congruence. Qed.

(** A pattern that lower-casing does not change is still found after
    lower-casing the text. *)
Lemma includes_toLowerCase (s p : string) :
  toLowerCase p = p ->
  includes s p = true -> includes (toLowerCase s) p = true.
Proof.
  intros Hp H. destruct (includes_split _ _ H) as (a & b & ->).
  rewrite !toLowerCase_app, Hp. apply includes_app.
Qed.

End StringFacts.

(** ** The error classifier *)

Lemma parseQuotaError_type (m : string) :
  type (parseQuotaError m) = quota_exceeded.
Proof.
  unfold parseQuotaError. now destruct (Regex.retryDelay_match m).
Qed.

Lemma parseGeminiError_quota (m : string) :
  includes (toLowerCase m) "exceeded your current quota"
  || includes (toLowerCase m) "quotafailure" = true ->
  parseGeminiError m = parseQuotaError m.
Proof. intros H. unfold parseGeminiError. now rewrite H. Qed.

Lemma parseGeminiError_not_quota (m : string) :
  type (parseGeminiError m) <> quota_exceeded ->
  includes (toLowerCase m) "exceeded your current quota"
  || includes (toLowerCase m) "quotafailure" = false.
Proof.
  intros H. destruct (_ || _) eqn:Hq; [|reflexivity].
  elim H. rewrite (parseGeminiError_quota _ Hq). apply parseQuotaError_type.
Qed.

(** The suggestions of the free tier, when the message names requests and
    the per-minute dimension. *)
Lemma freeTier_perMinute (m : string) :
  includes m "requests" = true ->
  includes m "PerMinute" = true ->
  In perMinuteSuggestion (freeTierSuggestions m).
Proof.
  intros Hr Hp. unfold freeTierSuggestions. rewrite Hr, Hp.
  unfold push_if.
  destruct (includes m "input_token_count"), (includes m "PerDay");
    repeat (rewrite in_app_iff; cbn [In]); tauto.
Qed.

Lemma parseQuotaError_suggestions_prefix (m : string) :
  exists tail,
    suggestions (parseQuotaError m) =
    ((if includes m "free_tier" then freeTierSuggestions m
      else ["💳 Check your billing and payment details";
            "📈 You may need to increase your quota limits"]) ++ tail)%list.
Proof.
  unfold parseQuotaError. destruct (Regex.retryDelay_match m); cbn [suggestions].
  - eexists; reflexivity.
  - exists []. now rewrite app_nil_r.
Qed.

(** C2, the claim as written, fails: this message contains the three
    phrases and is classified [quota_exceeded], yet none of its suggestions
    mentions a minute, because the message does not contain the word
    requests, which guards the per-minute test in [parseQuotaError]. *)
Lemma C2_counterexample :
  let m := "You exceeded your current quota: free_tier PerMinute" in
  includes m "exceeded your current quota" = true /\
  includes m "free_tier" = true /\
  includes m "PerMinute" = true /\
  type (parseGeminiError m) = quota_exceeded /\
  existsb mentionsMinute (suggestions (parseGeminiError m)) = false.
Proof. vm_compute. repeat split. Qed.

(** C2 (amended).  Every message that contains the phrases
    [exceeded your current quota], [free_tier], [requests] and [PerMinute]
    is classified [quota_exceeded] and carries the suggestion that states
    the per-minute limit of the free tier.  Every message that contains
    [429] and [rate_limit_exceeded] and, in any case of letters, neither
    [exceeded your current quota] nor [quotafailure], is classified
    [rate_limit]. *)
Theorem C2_quota_and_rate_limit_classification (m : string) :
  (includes m "exceeded your current quota" = true ->
   includes m "free_tier" = true ->
   includes m "requests" = true ->
   includes m "PerMinute" = true ->
   type (parseGeminiError m) = quota_exceeded /\
   In perMinuteSuggestion (suggestions (parseGeminiError m)) /\
   mentionsMinute perMinuteSuggestion = true)
  /\
  (includes m "429" = true ->
   includes m "rate_limit_exceeded" = true ->
   includes (toLowerCase m) "exceeded your current quota" = false ->
   includes (toLowerCase m) "quotafailure" = false ->
   type (parseGeminiError m) = rate_limit).
Proof.
  split.
  - intros Hq Hf Hr Hp.
    assert (Hq' : includes (toLowerCase m) "exceeded your current quota"
                  || includes (toLowerCase m) "quotafailure" = true).
    { now rewrite (includes_toLowerCase _ _ eq_refl Hq). }
    rewrite (parseGeminiError_quota _ Hq').
    split; [apply parseQuotaError_type|]. split; [|reflexivity].
    destruct (parseQuotaError_suggestions_prefix m) as [tail ->].
    rewrite Hf. apply in_or_app. left. now apply freeTier_perMinute.
  - intros H4 Hr Hq1 Hq2. unfold parseGeminiError.
    rewrite Hq1, Hq2.
    rewrite (includes_toLowerCase _ _ eq_refl H4).
    now rewrite (includes_toLowerCase _ _ eq_refl Hr).
Qed.

Lemma C2_witness :
  (type (parseGeminiError
           "You exceeded your current quota: free_tier requests PerMinute")
   = quota_exceeded /\
   In perMinuteSuggestion
      (suggestions
         (parseGeminiError
            "You exceeded your current quota: free_tier requests PerMinute"))
   /\ mentionsMinute perMinuteSuggestion = true)
  /\ type (parseGeminiError "[429 Too Many Requests] rate_limit_exceeded")
     = rate_limit.
Proof.
  split.
  - apply (proj1 (C2_quota_and_rate_limit_classification _)); reflexivity.
  - apply (proj2 (C2_quota_and_rate_limit_classification _)); reflexivity.
Defined.

(** C10.  Only the quota branch of the classifier sets [retryAfter]: a
    classification of any other kind carries none.  So after a failure
    classified [rate_limit] the wait of the interactive retry is the default
    of 60 seconds, and [analyzeRepository], when the user picks the retry,
    counts down 60 seconds and starts again. *)
Theorem C10_retryAfter_only_on_quota :
  (forall m, type (parseGeminiError m) <> quota_exceeded ->
             retryAfter (parseGeminiError m) = None) /\
  (forall m, type (parseGeminiError m) = rate_limit ->
             waitTimeOf (parseGeminiError m) = Num 60) /\
  (forall fuel E config w name m w1,
      generateWithRetry E config
        (createAnalysisPrompt (scanned E) config) defaultMaxRetries
        (log Scanned w) = (Threw (PlainError name m), w1) ->
      type (parseGeminiError m) = rate_limit ->
      menuAnswer E (menusAsked w1) = retry ->
      analyzeRepository (S fuel) E config w =
      analyzeRepository fuel E config
        (log (CountedDown 60) (snd (askMenu E w1)))).
Proof.
  assert (A : forall m, type (parseGeminiError m) <> quota_exceeded ->
                        retryAfter (parseGeminiError m) = None).
  { intros m H. pose proof (parseGeminiError_not_quota _ H) as Hq.
    unfold parseGeminiError. rewrite Hq.
    repeat match goal with
           | |- context [if ?c then _ else _] => destruct c
           end; reflexivity. }
  split; [exact A|]. split.
  - intros m H. unfold waitTimeOf. rewrite A; [reflexivity|].
    rewrite H; discriminate.
  - intros fuel E config w name m w1 Hg Ht Hm.
    cbn [analyzeRepository]. rewrite Hg. cbv zeta. rewrite Ht.
    unfold askMenu. rewrite Hm. cbn [snd].
    unfold waitTimeOf. rewrite A; [reflexivity|]. rewrite Ht; discriminate.
Qed.

Lemma C10_witness :
  let m := "[429 Too Many Requests] rate_limit_exceeded, " ++ retryDelay30 in
  retryAfter (parseGeminiError m) = None /\
  waitTimeOf (parseGeminiError m) = Num 60.
Proof.
  split.
  - apply (proj1 C10_retryAfter_only_on_quota). vm_compute. discriminate.
  - apply (proj1 (proj2 C10_retryAfter_only_on_quota)). reflexivity.
Defined.

(** ** The retry-delay pattern *)

(** A byte that lower-cases to something other than a letter is that byte. *)
Lemma lower_char_other (c d : ascii) :
  lower_char c = d -> is_lower_letter d = false -> c = d.
Proof.
  intros <-. ascii_cases c; vm_compute; intros H;
    first [reflexivity | discriminate H].
Qed.

Lemma lower_char_s (c : ascii) :
  lower_char c = "s"%char -> c = "s"%char \/ c = "S"%char.
Proof.
  ascii_cases c; vm_compute; intros H;
    first [discriminate H | now left | now right].
Qed.

Lemma toLowerCase_app_inv (h a b : string) :
  toLowerCase h = a ++ b ->
  exists h1 h2, h = h1 ++ h2 /\ toLowerCase h1 = a /\ toLowerCase h2 = b.
Proof.
  revert h; induction a as [|c a IH]; intros h H.
  - now exists "", h.
  - destruct h as [|d h]; [discriminate|]. cbn in H. injection H as Hc Hh.
    destruct (IH _ Hh) as (h1 & h2 & -> & H1 & H2).
    exists (String d h1), h2. cbn. now rewrite Hc, H1.
Qed.

Section MatcherFacts.
Context {R : Type}.
Implicit Types (k : @Regex.Cont R) (s lit : string).

(** A literal consumes a head that equals it modulo case. *)
Lemma lit_ci_lower lit k h s :
  toLowerCase h = toLowerCase lit -> Regex.lit_ci lit k (h ++ s) = k s.
Proof.
  revert h; induction lit as [|l lit IH]; intros h H.
  - destruct h; [reflexivity | discriminate].
  - destruct h as [|c h]; [discriminate|]. cbn in H. injection H as Hc Hh.
    cbn [Regex.lit_ci Regex.class append]. rewrite Hc, Ascii.eqb_refl.
    now apply IH.
Qed.

(** A literal matches only where the lower-cased input starts with it. *)
Lemma lit_ci_prefix lit k s r :
  Regex.lit_ci lit k s = Some r ->
  String.prefix (toLowerCase lit) (toLowerCase s) = true.
Proof.
  revert s; induction lit as [|l lit IH]; intros s H.
  - now destruct s.
  - destruct s as [|c s]; [discriminate|].
    cbn [Regex.lit_ci Regex.class] in H.
    destruct (Ascii.eqb_spec (lower_char c) (lower_char l)) as [e|];
      [|discriminate].
    cbn [toLowerCase String.prefix]. rewrite e.
    destruct (ascii_dec (lower_char l) (lower_char l)) as [_|ne];
      [now apply IH | now elim ne].
Qed.
End MatcherFacts.

Lemma retryDelay_match_here (s cap : string) :
  Regex.retryDelay_here s = Some cap -> Regex.retryDelay_match s = Some cap.
Proof. intros H. destruct s; cbn [Regex.retryDelay_match]; now rewrite H. Qed.

(** What [retryDelay_within] decides. *)
Lemma retryDelay_within_spec (pre rest : string) :
  Regex.retryDelay_within pre rest = true <->
  exists a b cap,
    pre = a ++ b /\ b <> "" /\ Regex.retryDelay_here (b ++ rest) = Some cap.
Proof.
  induction pre as [|c pre IH]; cbn [Regex.retryDelay_within].
  - split; [discriminate|]. intros (a & b & cap & E & Hb & _).
    destruct a; [cbn in E; now subst b | discriminate].
  - destruct (Regex.retryDelay_here (String c pre ++ rest)) as [cap|] eqn:H.
    + split; [intros _ | reflexivity].
      exists "", (String c pre), cap. repeat split; [discriminate | exact H].
    + rewrite IH. split.
      * intros (a & b & cap & -> & Hb & Hh).
        exists (String c a), b, cap. repeat split; assumption.
      * intros (a & b & cap & E & Hb & Hh). destruct a as [|d a].
        -- cbn in E. subst b. rewrite Hh in H. discriminate.
        -- cbn in E. injection E as _ ->. now exists a, b, cap.
Qed.

(** A part of the message in which the pattern matches nowhere is passed
    over by the search. *)
Lemma retryDelay_match_skip (pre rest : string) :
  Regex.retryDelay_within pre rest = false ->
  Regex.retryDelay_match (pre ++ rest) = Regex.retryDelay_match rest.
Proof.
  induction pre as [|c pre IH]; [reflexivity|].
  cbn [Regex.retryDelay_within]. cbn [append Regex.retryDelay_match].
  change (String c (pre ++ rest)) with (String c pre ++ rest).
  destruct (Regex.retryDelay_here (String c pre ++ rest)); [discriminate|].
  exact IH.
Qed.

(** The pattern matches a head of the shape retryDelay: "30s", written in
    any case, and captures 30. *)
Lemma retryDelay_here_30 (hit post : string) :
  toLowerCase hit = toLowerCase retryDelay30 ->
  Regex.retryDelay_here (hit ++ post) = Some "30".
Proof.
  intros H.
  change (toLowerCase retryDelay30)
    with ("retrydelay" ++ (": " ++ String dquote ("30s" ++ String dquote "")))
    in H.
  apply toLowerCase_app_inv in H as (h1 & h2 & -> & H1 & H2).
  unfold Regex.retryDelay_here. rewrite string_app_assoc.
  rewrite lit_ci_lower by exact H1.
  do 7 (destruct h2 as [|? h2]; [discriminate|]).
  destruct h2; [|discriminate].
  cbn in H2. injection H2 as E1 E2 E3 E4 E5 E6 E7.
  apply lower_char_other in E1, E2, E3, E4, E5, E7; try reflexivity.
  subst. apply lower_char_s in E6 as [-> | ->]; reflexivity.
Qed.

(** C8, the claim as written, fails: the provider's rate-limit message with
    a retry delay of 30 seconds is classified [rate_limit], and that branch
    of the classifier does not look for the delay. *)
Lemma C8_counterexample :
  let m := "[429 Too Many Requests] rate_limit_exceeded, " ++ retryDelay30 in
  includes m retryDelay30 = true /\
  type (parseGeminiError m) = rate_limit /\
  retryAfter (parseGeminiError m) = None /\
  suggestions (parseGeminiError m) =
    ["🔄 The system will automatically retry with delays"].
Proof. vm_compute. repeat split. Qed.

(** On the quota branch the pattern takes its leftmost match: an earlier
    delay wins over a later one of 30 seconds. *)
Example retryDelay_leftmost_match :
  let m := "You exceeded your current quota. " ++ retryDelay7 ++ ", "
           ++ retryDelay30 in
  includes m retryDelay30 = true /\
  retryAfter (parseGeminiError m) = Some (Num 7).
Proof. vm_compute. split; reflexivity. Qed.

(** An earlier occurrence of the word retrydelay that the pattern does not
    match does not count, and white space outside ASCII is white space. *)
Example retryDelay_earlier_word :
  retryAfter
    (parseGeminiError
       ("You exceeded your current quota. retryDelay unknown; "
        ++ retryDelay30)) = Some (Num 30) /\
  retryAfter
    (parseGeminiError
       ("You exceeded your current quota. retryDelay:"
        ++ String (ascii_of_N 194) (String (ascii_of_N 160) "7s, ")
        ++ retryDelay30)) = Some (Num 7).
Proof. vm_compute. split; reflexivity. Qed.

(** C8 (amended).  Let a message be classified on the quota branch (it
    contains, in any case, [exceeded your current quota] or [quotafailure]),
    let it hold a text of the shape retryDelay: "30s", in any case, and let
    the retry-delay pattern of the classifier match at no position before
    that text.  Then the classification is [quota_exceeded], its
    [retryAfter] is 30, and its last suggestion states the 30 seconds. *)
Theorem C8_retryAfter_30_on_quota_branch (pre hit post : string) :
  toLowerCase hit = toLowerCase retryDelay30 ->
  Regex.retryDelay_within pre (hit ++ post) = false ->
  includes (toLowerCase (pre ++ hit ++ post)) "exceeded your current quota"
  || includes (toLowerCase (pre ++ hit ++ post)) "quotafailure" = true ->
  type (parseGeminiError (pre ++ hit ++ post)) = quota_exceeded /\
  retryAfter (parseGeminiError (pre ++ hit ++ post)) = Some (Num 30) /\
  exists before,
    suggestions (parseGeminiError (pre ++ hit ++ post)) =
    (before ++ ["⏰ Suggested retry time: 30 seconds"])%list.
Proof.
  intros Hhit Hpre Hq. rewrite (parseGeminiError_quota _ Hq).
  split; [apply parseQuotaError_type|].
  assert (Hm : Regex.retryDelay_match (pre ++ hit ++ post) = Some "30").
  { rewrite (retryDelay_match_skip _ _ Hpre).
    apply retryDelay_match_here, retryDelay_here_30, Hhit. }
  unfold parseQuotaError. rewrite Hm. cbn [retryAfter suggestions].
  split; [reflexivity|]. eexists; reflexivity.
Qed.

Lemma C8_witness :
  let m := "You exceeded your current quota. retryDelay unknown; "
           ++ "RetryDelay: " ++ String dquote ("30S" ++ String dquote "")
           ++ " (free_tier)" in
  type (parseGeminiError m) = quota_exceeded /\
  retryAfter (parseGeminiError m) = Some (Num 30) /\
  exists before,
    suggestions (parseGeminiError m) =
    (before ++ ["⏰ Suggested retry time: 30 seconds"])%list.
Proof.
  apply (C8_retryAfter_30_on_quota_branch
           "You exceeded your current quota. retryDelay unknown; "
           ("RetryDelay: " ++ String dquote ("30S" ++ String dquote ""))
           " (free_tier)"); reflexivity.
Defined.

(** ** The quota estimator *)

Lemma ceil_div_4 (a : N) :
  ceil_div a 4 = (if (a mod 4 =? 0)%N then a / 4 else a / 4 + 1)%N.
Proof.
  unfold ceil_div, N.div, N.modulo.
  now destruct (N.div_eucl a 4) as [q r].
Qed.

Lemma ceil_div_4_mono (a b : N) :
  (a <= b)%N -> (ceil_div a 4 <= ceil_div b 4)%N.
Proof.
  intros H. rewrite !ceil_div_4.
  pose proof (N.div_mod a 4 ltac:(discriminate)).
  pose proof (N.div_mod b 4 ltac:(discriminate)).
  pose proof (N.mod_lt a 4 ltac:(discriminate)).
  pose proof (N.mod_lt b 4 ltac:(discriminate)).
  set (qa := (a / 4)%N) in *; set (ra := (a mod 4)%N) in *.
  set (qb := (b / 4)%N) in *; set (rb := (b mod 4)%N) in *.
  clearbody qa ra qb rb.
  destruct (N.eqb_spec ra 0), (N.eqb_spec rb 0); lia.
Qed.

Lemma totalChars_from (files : list FileInfo) (acc : N) :
  fold_left (fun sum file => (sum + N.min (content_length file) 2000)%N)
            files acc
  = (acc + totalChars files)%N.
Proof.
  unfold totalChars. revert acc.
  induction files as [|f files IH]; intros acc; cbn [fold_left].
  - lia.
  - rewrite IH, (IH (0 + _)%N). lia.
Qed.

Lemma totalChars_app (l1 l2 : list FileInfo) :
  totalChars (l1 ++ l2) = (totalChars l1 + totalChars l2)%N.
Proof.
  unfold totalChars at 1. rewrite fold_left_app.
  fold (totalChars l1). apply totalChars_from.
Qed.

Lemma totalChars_cons (f : FileInfo) (l : list FileInfo) :
  totalChars (f :: l) = (N.min (content_length f) 2000 + totalChars l)%N.
Proof. unfold totalChars at 1. cbn [fold_left]. apply totalChars_from. Qed.

(** The reducer adds up, file by file, the length capped at 2000. *)
Lemma totalChars_sum (files : list FileInfo) :
  totalChars files =
  fold_right N.add 0%N (map (fun f => N.min (content_length f) 2000) files).
Proof.
  induction files as [|f files IH]; [reflexivity|].
  rewrite totalChars_cons, IH. reflexivity.
Qed.

(** [Math.ceil(a / 4)] is the least integer whose fourfold reaches [a]. *)
Lemma ceil_div_4_bounds (a : N) :
  (a <= 4 * ceil_div a 4 < a + 4)%N.
Proof.
  rewrite ceil_div_4.
  pose proof (N.div_mod a 4 ltac:(discriminate)).
  pose proof (N.mod_lt a 4 ltac:(discriminate)).
  set (q := (a / 4)%N) in *; set (r := (a mod 4)%N) in *. clearbody q r.
  destruct (N.eqb_spec r 0); lia.
Qed.

Lemma ceil_div_4_step (a c : N) :
  (4 * ceil_div (a + c) 4 <= 4 * ceil_div a 4 + c + 3)%N.
Proof.
  pose proof (ceil_div_4_bounds a). pose proof (ceil_div_4_bounds (a + c)).
  lia.
Qed.

(** C9.  The estimate of the empty list is 250.  The estimate of a list is
    the quarter, rounded up, of 1000 plus the lengths of the files, each
    length counted up to 2000 at most.  So adding a file does not lower the
    estimate and raises it by its capped length over four, 500 at most;
    replacing a file by one with a longer content does not lower it; and
    beyond 2000 characters the length of a file makes no difference. *)
Theorem C9_estimate_empty_and_monotone :
  estimateTokenUsage [] = 250%N /\
  (forall files,
      let counted :=
        fold_right N.add 0%N
                   (map (fun f => N.min (content_length f) 2000) files) in
      (1000 + counted <= 4 * estimateTokenUsage files < 1000 + counted + 4)%N)
  /\
  (forall l1 f l2,
      (estimateTokenUsage (l1 ++ l2) <= estimateTokenUsage (l1 ++ f :: l2))%N
      /\
      (4 * estimateTokenUsage (l1 ++ f :: l2)
       <= 4 * estimateTokenUsage (l1 ++ l2)
          + N.min (content_length f) 2000 + 3)%N /\
      (estimateTokenUsage (l1 ++ f :: l2)
       <= estimateTokenUsage (l1 ++ l2) + 500)%N) /\
  (forall l1 f f' l2,
      (content_length f <= content_length f')%N ->
      (estimateTokenUsage (l1 ++ f :: l2)
       <= estimateTokenUsage (l1 ++ f' :: l2))%N) /\
  (forall l1 f f' l2,
      (2000 <= content_length f)%N -> (2000 <= content_length f')%N ->
      estimateTokenUsage (l1 ++ f :: l2)
      = estimateTokenUsage (l1 ++ f' :: l2)).
Proof.
  split; [reflexivity|].
  assert (A : forall l1 f l2,
             totalChars (l1 ++ f :: l2) =
             (totalChars (l1 ++ l2) + N.min (content_length f) 2000)%N).
  { intros. rewrite !totalChars_app, totalChars_cons. lia. }
  split; [|split; [|split]].
  - intros files counted. unfold estimateTokenUsage, promptOverhead.
    pose proof (ceil_div_4_bounds (totalChars files + 1000)) as H.
    rewrite totalChars_sum in H. fold counted in H.
    rewrite totalChars_sum. fold counted. lia.
  - intros l1 f l2. unfold estimateTokenUsage, promptOverhead. rewrite A.
    set (a := (totalChars (l1 ++ l2) + 1000)%N).
    set (c := N.min (content_length f) 2000).
    replace (totalChars (l1 ++ l2) + c + 1000)%N with (a + c)%N
      by (subst a; lia).
    assert (Hc : (c <= 2000)%N) by (subst c; lia).
    pose proof (ceil_div_4_mono a (a + c) ltac:(lia)).
    pose proof (ceil_div_4_step a c). lia.
  - intros l1 f f' l2 H. unfold estimateTokenUsage. apply ceil_div_4_mono.
    rewrite !A. lia.
  - intros l1 f f' l2 H H'. unfold estimateTokenUsage. rewrite !A.
    now rewrite !N.min_r by assumption.
Qed.

Lemma C9_witness :
  (estimateTokenUsage [mkFile "a.ts" "let x = 1" 9 ".ts"]
   <= estimateTokenUsage [mkFile "a.ts" "let x = 1; let y = 2" 20 ".ts"])%N
  /\
  estimateTokenUsage [mkFile "a.ts" (repeat_char 2000 "x") 2000 ".ts"]
  = estimateTokenUsage [mkFile "a.ts" (repeat_char 5000 "x") 5000 ".ts"].
Proof.
  split.
  - apply (proj1 (proj2 (proj2 (proj2 C9_estimate_empty_and_monotone))) []).
    vm_compute. discriminate.
  - apply (proj2 (proj2 (proj2 (proj2 C9_estimate_empty_and_monotone))) []);
      vm_compute; discriminate.
Defined.

(** ** The prompt builder *)

(** A byte that continues a sequence takes no code unit. *)
Lemma code_units_continuation (x : N) :
  code_units (ascii_of_N (128 + x mod 64)) = 0.
Proof.
  unfold code_units, is_continuation.
  pose proof (N.mod_lt x 64 ltac:(discriminate)) as H.
  set (r := (x mod 64)%N) in *. clearbody r.
  rewrite N_ascii_embedding by lia.
  destruct (N.leb_spec 128 (128 + r)); [|lia].
  destruct (N.ltb_spec (128 + r) 192); [reflexivity | lia].
Qed.

(** The first half of a surrogate pair is one code unit. *)
Lemma high_surrogate_length (lead : ascii) (rest : string) :
  utf16_length (high_surrogate lead rest) = 1.
Proof.
  unfold high_surrogate. cbv zeta. cbn [utf16_length].
  rewrite !code_units_continuation. reflexivity.
Qed.

Lemma code_units_cases (c : ascii) :
  code_units c = 0 \/ code_units c = 1 \/ code_units c = 2.
Proof.
  unfold code_units.
  destruct (is_continuation c); [now left|].
  destruct (240 <=? N_of_ascii c)%N; [now right; right | now right; left].
Qed.

(** A slice has the code units asked for, or all there are. *)
Lemma slice0_length_min (n : nat) (s : string) :
  utf16_length (slice0 n s) = Nat.min n (utf16_length s).
Proof.
  revert n; induction s as [|c s IH]; intros n; cbn [slice0 utf16_length].
  - now rewrite Nat.min_0_r.
  - destruct (code_units_cases c) as [E|[E|E]]; rewrite E.
    + cbn [utf16_length]. rewrite E, IH. reflexivity.
    + destruct n as [|n]; [reflexivity|].
      cbn [utf16_length]. rewrite E, IH. reflexivity.
    + destruct n as [|[|n]]; [reflexivity| |].
      * now rewrite high_surrogate_length.
      * cbn [utf16_length]. rewrite E, IH. reflexivity.
Qed.

Lemma slice0_length (n : nat) (s : string) :
  utf16_length (slice0 n s) <= n.
Proof. rewrite slice0_length_min. apply Nat.le_min_l. Qed.

Lemma join_includes (sep x : string) (parts : list string) :
  In x parts -> exists a b, join sep parts = a ++ x ++ b.
Proof.
  induction parts as [|y parts IH]; [contradiction|].
  intros [->|H].
  - destruct parts as [|z parts].
    + exists "", "". cbn [join append]. now rewrite string_app_nil_r.
    + exists "", (sep ++ join sep (z :: parts)). reflexivity.
  - destruct parts as [|z parts]; [contradiction|].
    destruct (IH H) as (a & b & E).
    exists (y ++ sep ++ a), b. cbn [join]. cbn [join] in E. rewrite E.
    now rewrite !string_app_assoc.
Qed.

Lemma prompt_parts (a b c d e x f t : string) :
  (a ++ b ++ c ++ d ++ e ++ x ++ f) ++ t
  = (a ++ b ++ c ++ d ++ e) ++ x ++ (f ++ t).
Proof. now rewrite !string_app_assoc. Qed.

(** The prompt is a header, the rendered list of file blocks and a footer.
    Header and footer depend on the number of the files and on the
    configuration only: what the files are called and what they hold goes
    into the prompt through the blocks, and nowhere else. *)
Lemma createAnalysisPrompt_shape (total : nat) (config : GeminiConfig) :
  exists header footer,
    forall files,
      List.length files = total ->
      createAnalysisPrompt files config
      = header ++ fileList files config ++ footer.
Proof.
  unfold createAnalysisPrompt.
  destruct (modelType config), (enableAdvancedFeatures config);
    eexists; eexists; intros files Hn; rewrite Hn; cbv zeta;
    apply prompt_parts.
Qed.

(** The prompt contains the rendered list of file blocks. *)
Lemma createAnalysisPrompt_fileList (files : list FileInfo)
      (config : GeminiConfig) :
  exists a b, createAnalysisPrompt files config = a ++ fileList files config ++ b.
Proof.
  destruct (createAnalysisPrompt_shape (List.length files) config)
    as (a & b & H).
  exists a, b. now apply H.
Qed.

Lemma promptBlocks_in (files : list FileInfo) (config : GeminiConfig)
      (b : PromptBlock) :
  In b (promptBlocks files config) ->
  b = makeBlock config (block_file b) /\
  In (block_file b) files /\ (size (block_file b) < 30000)%N.
Proof.
  unfold promptBlocks. intros H. apply in_map_iff in H as (f & <- & H).
  split; [reflexivity|]. cbn [makeBlock block_file].
  assert (H' : In f (filter (fun f => (size f <? 30000)%N) files)).
  { rewrite <- (firstn_skipn (maxFiles config)). apply in_or_app. now left. }
  apply filter_In in H' as [Hin Hs]. split; [exact Hin|].
  now apply N.ltb_lt.
Qed.

(** A rendered block is part of the prompt. *)
Lemma renderBlock_in_prompt (files : list FileInfo) (config : GeminiConfig)
      (b : PromptBlock) :
  In b (promptBlocks files config) ->
  includes (createAnalysisPrompt files config) (renderBlock b) = true.
Proof.
  intros Hb.
  destruct (createAnalysisPrompt_fileList files config) as (a & c & ->).
  destruct (join_includes newline (renderBlock b)
              (map renderBlock (promptBlocks files config))) as (a' & c' & E').
  { now apply in_map. }
  unfold fileList. rewrite E'.
  replace (a ++ (a' ++ renderBlock b ++ c') ++ c)
    with ((a ++ a') ++ renderBlock b ++ (c' ++ c)).
  - apply includes_app.
  - now rewrite !string_app_assoc.
Qed.

(** C6.  In the standard tier the prompt holds at most 12 file blocks with
    content slices of at most 1200 characters (UTF-16 code units, as the
    source counts them), in the advanced tier at most 20 blocks with slices
    of at most 2000 characters.  Every block belongs to a file of the list
    whose size is below 30 000 bytes, so no file of 30 000 bytes or more is
    in the prompt; its slice is the head of the content; when the content
    is longer than the cap, the slice is followed by the marker, a line
    feed and the text ... (truncated); and the block, rendered, is part of
    the prompt.  The prompt is made of a header, these blocks and a footer,
    and header and footer are the same for all lists of as many files: no
    file gets into the prompt but through its block. *)
Theorem C6_prompt_caps (files : list FileInfo) (config : GeminiConfig) :
  let fileCap := match modelType config with
                 | standard => 12 | advanced => 20 end in
  let cap := match modelType config with
             | standard => 1200 | advanced => 2000 end in
  (exists header footer,
      forall files',
        List.length files' = List.length files ->
        createAnalysisPrompt files' config
        = header
          ++ join newline (map renderBlock (promptBlocks files' config))
          ++ footer) /\
  List.length (promptBlocks files config) <= fileCap /\
  (forall b, In b (promptBlocks files config) ->
     In (block_file b) files /\
     (size (block_file b) < 30000)%N /\
     block_content b = slice0 cap (content (block_file b)) /\
     utf16_length (block_content b) <= cap /\
     (cap < utf16_length (content (block_file b)) ->
      block_truncated b = String "010" "... (truncated)" /\
      renderBlock b =
      "File: " ++ path (block_file b) ++ newline ++ "Content:" ++ newline
      ++ block_content b ++ newline ++ "... (truncated)" ++ newline
      ++ "---" ++ newline) /\
     includes (createAnalysisPrompt files config) (renderBlock b) = true) /\
  (forall f, In f files -> (30000 <= size f)%N ->
     ~ In f (map block_file (promptBlocks files config))).
Proof.
  cbv zeta.
  change (match modelType config with standard => 12 | advanced => 20 end)
    with (maxFiles config).
  change (match modelType config with standard => 1200 | advanced => 2000 end)
    with (maxContentLength config).
  split; [apply createAnalysisPrompt_shape|].
  split.
  { unfold promptBlocks. rewrite length_map. apply firstn_le_length. }
  split.
  - intros b Hb. destruct (promptBlocks_in _ _ _ Hb) as (E & Hin & Hs).
    split; [exact Hin|]. split; [exact Hs|].
    split; [now rewrite E|].
    split; [rewrite E; apply slice0_length|].
    split; [|now apply renderBlock_in_prompt].
    intros Hlt.
    assert (Ht : block_truncated b = String "010" "... (truncated)").
    { rewrite E. cbn [makeBlock block_truncated].
      apply Nat.ltb_lt in Hlt. now rewrite Hlt. }
    split; [exact Ht|]. unfold renderBlock. rewrite Ht. reflexivity.
  - intros f Hin Hs Hb. apply in_map_iff in Hb as (b & <- & Hb).
    destruct (promptBlocks_in _ _ _ Hb) as (_ & _ & Hlt). lia.
Qed.

Lemma C6_witness :
  In (block_file (makeBlock standardConfig longFile)) [longFile] /\
  utf16_length (block_content (makeBlock standardConfig longFile)) <= 1200 /\
  block_truncated (makeBlock standardConfig longFile)
  = String "010" "... (truncated)".
Proof.
  destruct (C6_prompt_caps [longFile] standardConfig) as (_ & _ & H & _).
  destruct (H (makeBlock standardConfig longFile)) as
    (Hin & _ & _ & Hlen & Htr & _).
  - left. reflexivity.
  - split; [exact Hin|]. split; [exact Hlen|].
    apply Htr. apply Nat.ltb_lt. vm_compute. reflexivity.
Defined.

(** A file of 700 characters outside ASCII, two bytes each, is within the
    cap of the standard tier and is shown whole; a cut between the halves
    of a surrogate pair keeps the first half. *)
Example makeBlock_counts_code_units :
  let e := String (ascii_of_N 195) (String (ascii_of_N 169) "") in
  let text := concat "" (repeat e 700) in
  let f := mkFile "notes.md" text 1400 ".md" in
  String.length text = 1400 /\
  block_content (makeBlock standardConfig f) = text /\
  block_truncated (makeBlock standardConfig f) = "" /\
  slice0 2 ("a" ++ String (ascii_of_N 240) (String (ascii_of_N 159)
              (String (ascii_of_N 152) (String (ascii_of_N 128) ""))))
  = "a" ++ String (ascii_of_N 237) (String (ascii_of_N 160)
             (String (ascii_of_N 189) "")).
Proof. vm_compute. repeat split. Qed.

(** ** The fallback analyzer *)

Lemma stackIncludes_detect_keep files test label techStack x :
  stackIncludes techStack x = true ->
  stackIncludes (detect files test label techStack) x = true.
Proof.
  intros H. unfold detect, push_if. destruct (existsb test files); [|exact H].
  unfold stackIncludes in *. rewrite existsb_app, H. reflexivity.
Qed.

Lemma stackIncludes_detect_new files test label techStack :
  existsb test files = true ->
  stackIncludes (detect files test label techStack) label = true.
Proof.
  intros H. unfold detect, push_if. rewrite H.
  unfold stackIncludes. rewrite existsb_app. cbn [existsb].
  rewrite String.eqb_refl. now rewrite orb_true_r.
Qed.

Lemma includes_shorter (s p q : string) :
  includes s (p ++ q) = true -> includes s p = true.
Proof.
  intros H. destruct (includes_split _ _ H) as (a & b & ->).
  rewrite string_app_assoc. apply includes_app.
Qed.

(** C7, the claim as written, fails: for the single file main.go the
    technology list has Go, and the guess is the Go label, not the default. *)
Lemma C7_counterexample :
  let files := [mkFile "main.go" "package main" 12 ".go"] in
  stackIncludes (detectTechStack files) "Go" = true /\
  guessProjectType files (detectTechStack files) = "Go application" /\
  guessProjectType files (detectTechStack files) <> "software".
Proof. vm_compute. repeat split. discriminate. Qed.

(** C7 (amended).  For a file set whose only file is main.go the technology
    list is Go alone and the project-type guess is [Go application]; for
    every file set with a file whose path contains next.config.js the list
    has Next.js and the guess is [Next.js web application]. *)
Theorem C7_fallback_project_type :
  (forall text bytes,
      let files := [mkFile "main.go" text bytes ".go"] in
      detectTechStack files = ["Go"] /\
      stackIncludes (detectTechStack files) "Go" = true /\
      basic_projectType (generateBasicAnalysis files) = "Go application") /\
  (forall files f,
      In f files ->
      includes (path f) "next.config.js" = true ->
      stackIncludes (detectTechStack files) "Next.js" = true /\
      basic_projectType (generateBasicAnalysis files)
      = "Next.js web application").
Proof.
  split.
  - intros text bytes. cbv zeta. repeat split.
  - intros files f Hin Hp.
    assert (Hn : stackIncludes (detectTechStack files) "Next.js" = true).
    { unfold detectTechStack.
      do 3 apply stackIncludes_detect_keep.
      apply stackIncludes_detect_new. apply existsb_exists.
      exists f. split; [exact Hin|].
      now apply (includes_shorter _ "next.config" ".js"). }
    split; [exact Hn|].
    cbn [generateBasicAnalysis basic_projectType].
    unfold guessProjectType. now rewrite Hn.
Qed.

Lemma C7_witness :
  let files := [mkFile "pages/index.tsx" "export default Home" 19 ".tsx";
                mkFile "next.config.js" "module.exports = {}" 19 ".js"] in
  stackIncludes (detectTechStack files) "Next.js" = true /\
  basic_projectType (generateBasicAnalysis files) = "Next.js web application".
Proof.
  apply (proj2 C7_fallback_project_type _
               (mkFile "next.config.js" "module.exports = {}" 19 ".js")).
  - right. left. reflexivity.
  - reflexivity.
Defined.

(** ** The scanner *)

Section SortFacts.
Context {A : Type}.
Variable compare : A -> A -> Z.
Hypothesis le_total : forall a b, leBy compare a b \/ leBy compare b a.
Hypothesis le_trans : forall a b c,
    leBy compare a b -> leBy compare b c -> leBy compare a c.

Lemma insert_sorted_perm (x : A) (l : list A) :
  Permutation (x :: l) (insert_sorted compare x l).
Proof.
  induction l as [|y l IH]; cbn [insert_sorted]; [reflexivity|].
  destruct (compare x y <=? 0)%Z; [reflexivity|].
  rewrite perm_swap. now apply perm_skip.
Qed.

Lemma js_sort_perm (l : list A) : Permutation l (js_sort compare l).
Proof.
  induction l as [|x l IH]; cbn; [reflexivity|].
  rewrite <- insert_sorted_perm. now apply perm_skip.
Qed.

Lemma insert_sorted_sorted (x : A) (l : list A) :
  StronglySorted (leBy compare) l -> StronglySorted (leBy compare) (insert_sorted compare x l).
Proof.
  induction 1 as [|y l Hs IH Hall]; cbn [insert_sorted].
  - repeat constructor.
  - destruct (Z.leb_spec (compare x y) 0) as [Hle|Hgt].
    + constructor; [now constructor|].
      constructor; [exact Hle|].
      eapply Forall_impl; [|exact Hall]. intros z Hz. now apply (le_trans x y z).
    + constructor; [exact IH|].
      assert (Hyx : leBy compare y x).
      { destruct (le_total x y) as [H|H]; [unfold leBy in H; lia | exact H]. }
      eapply Permutation_Forall; [apply insert_sorted_perm|].
      now constructor.
Qed.

Lemma js_sort_sorted (l : list A) : StronglySorted (leBy compare) (js_sort compare l).
Proof.
  induction l as [|x l IH]; cbn; [constructor | now apply insert_sorted_sorted].
Qed.
End SortFacts.

Lemma scanLe_total (a b : FileInfo) : scanLe a b \/ scanLe b a.
Proof.
  unfold scanLe, leBy, scanCompare.
  destruct (hasImportantExtension (extension a)),
           (hasImportantExtension (extension b)); cbn; lia.
Qed.

Lemma scanLe_trans (a b c : FileInfo) : scanLe a b -> scanLe b c -> scanLe a c.
Proof.
  unfold scanLe, leBy, scanCompare.
  destruct (hasImportantExtension (extension a)),
           (hasImportantExtension (extension b)),
           (hasImportantExtension (extension c)); cbn; lia.
Qed.

(** What the scanner does guarantee: its output holds the files the loop
    collected, sorted by the comparator, which knows importance by
    extension only. *)
Lemma scanRepository_sorted (allFiles : list DirEntry) :
  StronglySorted scanLe (scanRepository allFiles) /\
  Permutation (fold_left scanStep allFiles []) (scanRepository allFiles).
Proof.
  split.
  - apply js_sort_sorted; [apply scanLe_total | apply scanLe_trans].
  - apply js_sort_perm.
Qed.

(** C5: the scanner run on a directory with notes.txt (5 bytes) and README
    (10 bytes).  The loop takes README for important, by its name; the
    comparator of the final sort looks at extensions only, takes neither
    file for important and orders by size, so the important README comes
    after the file that is not important. *)
Theorem C5_important_by_name_sorted_as_plain :
  isImportant readmeEntry = true /\
  isImportant notesEntry = false /\
  fileIsImportant readmeFile = true /\
  fileIsImportant notesFile = false /\
  scanRepository [readmeEntry; notesEntry] = [notesFile; readmeFile] /\
  scanRepository [notesEntry; readmeEntry] = [notesFile; readmeFile].
Proof. vm_compute. repeat split. Qed.

(** ** The orchestrator *)

Lemma retryLoop_step E config prompt maxRetries remaining attempt w :
  retryLoop E config prompt maxRetries (S remaining) attempt w =
  match gateway E (gatewayCalls w) config prompt with
  | Generated text => (Returned text, afterCall prompt w)
  | failure =>
      let error := thrownBy failure in
      if (attempt =? maxRetries)%nat then (Threw error, afterCall prompt w)
      else
        match errorMessage error with
        | Some message =>
            match type (parseGeminiError message) with
            | rate_limit =>
                retryLoop E config prompt maxRetries remaining (S attempt)
                  (log (Waited (2 ^ N.of_nat attempt * 1000)) (afterCall prompt w))
            | _ => (Threw error, afterCall prompt w)
            end
        | None => (Threw error, afterCall prompt w)
        end
  end.
Proof.
  cbn [retryLoop]. unfold callGateway.
  now destruct (gateway E (gatewayCalls w) config prompt).
Qed.

(** C1: the retry wrapper on a Gateway whose first two calls fail, the first
    with a rate limit.  With its two attempts the wrapper waits 2 seconds
    once, calls a second time and throws what the second call threw: there
    is no wait of 4 seconds and no third call, whatever the Gateway would
    answer to it. *)
Theorem C1_wrapper_throws_after_second_failure
        E config prompt w name1 message1 name2 message2 :
  gateway E (gatewayCalls w) config prompt = Failed name1 message1 ->
  type (parseGeminiError message1) = rate_limit ->
  gateway E (S (gatewayCalls w)) config prompt = Failed name2 message2 ->
  generateWithRetry E config prompt defaultMaxRetries w =
  (Threw (PlainError name2 message2),
   {| gatewayCalls := 2 + gatewayCalls w;
      menusAsked := menusAsked w;
      confirmsAsked := confirmsAsked w;
      passwordsAsked := passwordsAsked w;
      trace := (trace w ++ [GatewayCalled prompt; Waited 2000;
                            GatewayCalled prompt])%list |}).
Proof.
  intros H1 Ht H2. unfold generateWithRetry, defaultMaxRetries.
  rewrite retryLoop_step, H1. cbn [thrownBy errorMessage Nat.eqb]. cbv zeta. rewrite Ht.
  rewrite retryLoop_step.
  cbn [gatewayCalls log afterCall]. rewrite H2.
  cbn [thrownBy errorMessage Nat.eqb]. cbv zeta. f_equal. unfold afterCall, log.
  cbn [gatewayCalls menusAsked confirmsAsked passwordsAsked trace].
  f_equal. now rewrite <- !app_assoc.
Qed.

Lemma C1_witness :
  generateWithRetry (stubEnv flakyGateway fallback true) standardConfig
                    "prompt" defaultMaxRetries initialWorld =
  (Threw (PlainError "Error" rateLimitMessage),
   {| gatewayCalls := 2;
      menusAsked := 0;
      confirmsAsked := 0;
      passwordsAsked := 0;
      trace := [GatewayCalled "prompt"; Waited 2000;
                GatewayCalled "prompt"] |}).
Proof.
  apply (C1_wrapper_throws_after_second_failure
           (stubEnv flakyGateway fallback true) standardConfig "prompt"
           initialWorld "Error" rateLimitMessage "Error" rateLimitMessage);
    reflexivity.
Defined.

(** The whole run on that stub: after the second failure the user is shown
    the decision menu; the third call is not made. *)
Example flaky_run_reaches_menu :
  exists w,
    handleAnalysis 1 (stubEnv flakyGateway exit true) standardConfig
    = Some (Exited 0, w) /\
    gatewayCalls w = 2 /\
    trace w =
      [Scanned;
       GatewayCalled (createAnalysisPrompt [notesFile] standardConfig);
       Waited 2000;
       GatewayCalled (createAnalysisPrompt [notesFile] standardConfig);
       MenuAsked exit].
Proof. eexists. vm_compute. repeat split. Qed.

Lemma analyzeRepository_step fuel E config w :
  analyzeRepository (S fuel) E config w =
  match generateWithRetry E config (createAnalysisPrompt (scanned E) config)
                          defaultMaxRetries (log Scanned w) with
  | (Returned analysis, w1) =>
      Some (Returned {| report_files := scanned E;
                        report_analysis := AiText analysis;
                        report_modelUsed := model config;
                        report_modelType := modelType config |}, w1)
  | (Threw error, w1) =>
      match error with
      | UserExitError _ => Some (Threw error, w1)
      | PlainError _ message =>
          match type (parseGeminiError message) with
          | quota_exceeded | rate_limit =>
              match askMenu E w1 with
              | (fallback, w2) => Some (analyzeFallback E w2)
              | (retry, w2) =>
                  match countdown (waitTimeOf (parseGeminiError message)) with
                  | Some seconds =>
                      analyzeRepository fuel E config
                        (log (CountedDown seconds) w2)
                  | None => None
                  end
              | (exit, w2) =>
                  Some (Threw (UserExitError "User chose to exit"), w2)
              end
          | invalid_key =>
              match askConfirm E w1 with
              | (true, w2) =>
                  analyzeRepository fuel E
                    (withApiKey config (fst (askPassword E w2)))
                    (snd (askPassword E w2))
              | (false, w2) =>
                  Some (Threw (UserExitError
                                 "User chose not to provide new API key"), w2)
              end
          | _ => Some (Threw error, w1)
          end
      | NotAnError => Some (Threw error, w1)
      end
  end.
Proof. reflexivity. Qed.

(** A first call that fails with a fatal kind ends the wrapper at once. *)
Lemma generateWithRetry_fatal E config prompt w name message :
  gateway E (gatewayCalls w) config prompt = Failed name message ->
  type (parseGeminiError message) <> rate_limit ->
  generateWithRetry E config prompt defaultMaxRetries w =
  (Threw (PlainError name message), afterCall prompt w).
Proof.
  intros H Ht. unfold generateWithRetry, defaultMaxRetries.
  rewrite retryLoop_step, H. cbn [thrownBy errorMessage Nat.eqb]. cbv zeta.
  now destruct (type (parseGeminiError message)).
Qed.

(** C3.  When the first Gateway call fails with an error classified
    [content_too_large], [model_unavailable] or [unknown], the run ends
    there: [analyzeRepository] throws that very error after one scan and one
    Gateway call, with no wait and no question to the user, and
    [handleAnalysis] exits with status 1. *)
Theorem C3_fatal_kinds_fail_at_once :
  (forall fuel E config w name message,
      gateway E (gatewayCalls w) config
              (createAnalysisPrompt (scanned E) config) = Failed name message ->
      fatalKind (type (parseGeminiError message)) = true ->
      analyzeRepository (S fuel) E config w =
      Some (Threw (PlainError name message),
            {| gatewayCalls := S (gatewayCalls w);
               menusAsked := menusAsked w;
               confirmsAsked := confirmsAsked w;
               passwordsAsked := passwordsAsked w;
               trace :=
                 (trace w ++
                  [Scanned;
                   GatewayCalled (createAnalysisPrompt (scanned E) config)])%list
            |})) /\
  (forall fuel E config name message,
      gateway E 0 config (createAnalysisPrompt (scanned E) config)
      = Failed name message ->
      fatalKind (type (parseGeminiError message)) = true ->
      name <> "UserExitError" ->
      handleAnalysis (S fuel) E config =
      Some (Exited 1,
            {| gatewayCalls := 1;
               menusAsked := 0;
               confirmsAsked := 0;
               passwordsAsked := 0;
               trace :=
                 [Scanned;
                  GatewayCalled (createAnalysisPrompt (scanned E) config)]
            |})).
Proof.
  assert (A : forall fuel E config w name message,
      gateway E (gatewayCalls w) config
              (createAnalysisPrompt (scanned E) config) = Failed name message ->
      fatalKind (type (parseGeminiError message)) = true ->
      analyzeRepository (S fuel) E config w =
      Some (Threw (PlainError name message),
            {| gatewayCalls := S (gatewayCalls w);
               menusAsked := menusAsked w;
               confirmsAsked := confirmsAsked w;
               passwordsAsked := passwordsAsked w;
               trace :=
                 (trace w ++
                  [Scanned;
                   GatewayCalled (createAnalysisPrompt (scanned E) config)])%list
            |})).
  { intros fuel E config w name message Hg Hk.
    rewrite analyzeRepository_step.
    rewrite (generateWithRetry_fatal _ _ _ _ name message).
    - destruct (type (parseGeminiError message)); try discriminate Hk;
        unfold afterCall, log; cbn [gatewayCalls menusAsked confirmsAsked
                                    passwordsAsked trace];
        now rewrite <- app_assoc.
    - exact Hg.
    - intros E'. rewrite E' in Hk. discriminate. }
  split; [exact A|].
  intros fuel E config name message Hg Hk Hn.
  unfold handleAnalysis. rewrite (A fuel E config initialWorld name message Hg Hk).
  unfold isUserExit. cbn [errorName].
  apply String.eqb_neq in Hn. now rewrite Hn.
Qed.

Lemma C3_witness :
  handleAnalysis 1 (stubEnv (failingGateway "[400 Bad Request] payload too big")
                            fallback true) standardConfig =
  Some (Exited 1,
        {| gatewayCalls := 1;
           menusAsked := 0;
           confirmsAsked := 0;
           passwordsAsked := 0;
           trace :=
             [Scanned;
              GatewayCalled (createAnalysisPrompt [notesFile] standardConfig)]
        |}).
Proof.
  apply (proj2 C3_fatal_kinds_fail_at_once 0
               (stubEnv (failingGateway "[400 Bad Request] payload too big")
                        fallback true)
               standardConfig "Error" "[400 Bad Request] payload too big").
  - reflexivity.
  - reflexivity.
  - discriminate.
Defined.







(** * Facts about the embedding of JavaScript *)

(** ** White space *)

Lemma white_rest_shorter (s r : string) :
  white_rest s = Some r -> String.length r < String.length s.
Proof.
  unfold white_rest.
  destruct s as [|c1 [|c2 [|c3 s3]]]; try discriminate;
    repeat match goal with
           | |- context [if ?c then _ else _] => destruct c
           end;
    intros [= <-]; cbn [String.length]; lia.
Qed.

Lemma white_rest_app (s r rest : string) :
  white_rest s = Some r -> white_rest (s ++ rest) = Some (r ++ rest).
Proof.
  unfold white_rest.
  destruct s as [|c1 [|c2 [|c3 s3]]]; try discriminate; cbn [append];
    destruct (white1 c1); try (intros [= <-]; reflexivity);
    try discriminate;
    destruct (white2 c1 c2); try (intros [= <-]; reflexivity);
    try discriminate;
    destruct (white3 c1 c2 c3); try (intros [= <-]; reflexivity);
    discriminate.
Qed.

(** A byte of the ASCII range that is no white space does not start a
    white-space character. *)
Lemma white_rest_ascii (c : ascii) (t : string) :
  (N_of_ascii c < 128)%N -> white1 c = false ->
  white_rest (String c t) = None.
Proof.
  intros H H1. unfold white_rest. rewrite H1.
  assert (H2 : forall c2, white2 c c2 = false).
  { intros c2. unfold white2.
    destruct (N.eqb_spec (N_of_ascii c) 194); [lia | reflexivity]. }
  assert (H3 : forall c2 c3, white3 c c2 c3 = false).
  { intros c2 c3. unfold white3. cbv zeta.
    destruct (N.eqb_spec (N_of_ascii c) 225); [lia|].
    destruct (N.eqb_spec (N_of_ascii c) 226); [lia|].
    destruct (N.eqb_spec (N_of_ascii c) 227); [lia|].
    destruct (N.eqb_spec (N_of_ascii c) 239); [lia|]. reflexivity. }
  destruct t as [|c2 [|c3 t]]; [reflexivity| |]; rewrite H2;
    [reflexivity|]. now rewrite H3.
Qed.

Lemma trimStart_eq (s : string) :
  trimStart s = match white_rest s with
                | Some r => trimStart r
                | None => s
                end.
Proof.
  destruct s as [|c1 s1]; [reflexivity|].
  cbn [trimStart white_rest]. destruct (white1 c1); [reflexivity|].
  destruct s1 as [|c2 s2]; [reflexivity|]. cbv iota.
  destruct (white2 c1 c2); [reflexivity|].
  destruct s2 as [|c3 s3]; [reflexivity|]. cbv iota.
  now destruct (white3 c1 c2 c3).
Qed.

Lemma all_white_eq (s : string) :
  all_white s = match s with
                | EmptyString => true
                | String _ _ =>
                    match white_rest s with
                    | Some r => all_white r
                    | None => false
                    end
                end.
Proof.
  destruct s as [|c1 s1]; [reflexivity|].
  cbn [all_white white_rest]. destruct (white1 c1); [reflexivity|].
  destruct s1 as [|c2 s2]; [reflexivity|]. cbv iota.
  destruct (white2 c1 c2); [reflexivity|].
  destruct s2 as [|c3 s3]; [reflexivity|]. cbv iota.
  now destruct (white3 c1 c2 c3).
Qed.

(** Induction along the white-space characters at the head of a string. *)
Lemma white_ind (P : string -> Prop) :
  (forall s, (forall r, white_rest s = Some r -> P r) -> P s) ->
  forall s, P s.
Proof.
  intros Step s.
  assert (H : forall n s, String.length s < n -> P s).
  { induction n as [|n IH]; intros s' Hn; [lia|].
    apply Step. intros r Hr. apply IH.
    apply white_rest_shorter in Hr. lia. }
  apply (H (S (String.length s))). lia.
Qed.

Lemma trimStart_spaces (spaces s : string) :
  all_white spaces = true -> trimStart (spaces ++ s) = trimStart s.
Proof.
  revert spaces. apply (white_ind (fun spaces =>
    all_white spaces = true -> trimStart (spaces ++ s) = trimStart s)).
  intros spaces IH H. rewrite all_white_eq in H.
  destruct spaces as [|c spaces]; [reflexivity|].
  destruct (white_rest (String c spaces)) as [r|] eqn:W; [|discriminate].
  rewrite trimStart_eq, (white_rest_app _ _ s W). now apply IH.
Qed.

Lemma trimStart_stop (s : string) :
  white_rest s = None -> trimStart s = s.
Proof. intros H. now rewrite trimStart_eq, H. Qed.

(** What is left of [trimStart] does not start with white space. *)
Lemma trimStart_head (s : string) : white_rest (trimStart s) = None.
Proof.
  apply (white_ind (fun s => white_rest (trimStart s) = None)).
  intros s' IH. rewrite trimStart_eq.
  destruct (white_rest s') as [r|] eqn:W; [now apply IH | exact W].
Qed.

Lemma all_white_app (a b : string) :
  all_white a = true -> all_white b = true -> all_white (a ++ b) = true.
Proof.
  revert a. apply (white_ind (fun a =>
    all_white a = true -> all_white b = true -> all_white (a ++ b) = true)).
  intros a IH Ha Hb. rewrite all_white_eq in Ha.
  destruct a as [|c a]; [exact Hb|].
  destruct (white_rest (String c a)) as [r|] eqn:W; [|discriminate].
  rewrite all_white_eq. cbn [append].
  change (String c (a ++ b)) with (String c a ++ b).
  rewrite (white_rest_app _ _ b W). now apply IH.
Qed.

Section SpaceMatcher.
Context {R : Type}.
Implicit Types (k : @Regex.Cont R) (s : string).

Lemma star_space_eq k s :
  Regex.star_space k s =
  match white_rest s with
  | Some r =>
      match Regex.star_space k r with
      | Some x => Some x
      | None => k s
      end
  | None => k s
  end.
Proof.
  destruct s as [|c1 s1]; [reflexivity|].
  cbn [Regex.star_space white_rest]. destruct (white1 c1); [reflexivity|].
  destruct s1 as [|c2 s2]; [reflexivity|]. cbv iota.
  destruct (white2 c1 c2); [reflexivity|].
  destruct s2 as [|c3 s3]; [reflexivity|]. cbv iota.
  now destruct (white3 c1 c2 c3).
Qed.

Lemma star_space_passes k s r :
  Regex.star_space k s = Some r -> exists s', k s' = Some r.
Proof.
  revert s. apply (white_ind (fun s =>
    Regex.star_space k s = Some r -> exists s', k s' = Some r)).
  intros s IH. rewrite star_space_eq.
  destruct (white_rest s) as [t|] eqn:W; [|now exists s].
  destruct (Regex.star_space k t) as [x|] eqn:E; [|now exists s].
  intros [= ->]. now apply (IH t).
Qed.

(** White space in front does not keep [star_space] from a match that it
    finds behind it. *)
Lemma star_space_skip k xs rest r :
  all_white xs = true ->
  Regex.star_space k rest = Some r ->
  Regex.star_space k (xs ++ rest) = Some r.
Proof.
  intros Hx Hr. revert xs Hx. apply (white_ind (fun xs =>
    all_white xs = true -> Regex.star_space k (xs ++ rest) = Some r)).
  intros xs IH Hx. rewrite all_white_eq in Hx.
  destruct xs as [|c xs]; [exact Hr|].
  destruct (white_rest (String c xs)) as [t|] eqn:W; [|discriminate].
  rewrite star_space_eq, (white_rest_app _ _ rest W).
  now rewrite (IH t eq_refl Hx).
Qed.

Lemma star_space_stop k rest :
  white_rest rest = None -> Regex.star_space k rest = k rest.
Proof. intros H. now rewrite star_space_eq, H. Qed.
End SpaceMatcher.

(** * Further properties *)

(** ** Decimal numerals *)

Lemma all_chars_app (p : ascii -> bool) (a b : string) :
  all_chars p (a ++ b) = all_chars p a && all_chars p b.
Proof.
  induction a as [|c a IH]; cbn; [reflexivity|].
  now rewrite IH, andb_assoc.
Qed.

Lemma string_of_uint_digits (d : Decimal.uint) :
  all_chars is_digit (NilEmpty.string_of_uint d) = true.
Proof. induction d; cbn [NilEmpty.string_of_uint all_chars]; auto. Qed.

Lemma digits_from_stop (acc : N) (rest : string) :
  head_fails is_digit rest = true -> digits_from acc rest = acc.
Proof.
  destruct rest as [|c rest]; cbn; [reflexivity|].
  now destruct (is_digit c).
Qed.

Lemma digits_from_uint (d : Decimal.uint) (acc : N) (rest : string) :
  digits_from acc (NilEmpty.string_of_uint d ++ rest)
  = digits_from (uint_value acc d) rest.
Proof.
  revert acc; induction d; intros acc;
    cbn [NilEmpty.string_of_uint append uint_value]; [reflexivity|..];
    cbn [digits_from];
    match goal with
    | |- context [is_digit ?c] => change (is_digit c) with true
    end;
    cbv iota; rewrite <- IHd; f_equal;
    match goal with
    | |- context [digit_value ?c] =>
        let v := eval vm_compute in (digit_value c) in
        change (digit_value c) with v
    end; lia.
Qed.

Lemma uint_value_of_lu (d : Decimal.uint) (acc : N) :
  uint_value acc d
  = (Unsigned.of_lu (Decimal.rev d) + acc * 10 ^ Unsigned.usize d)%N.
Proof.
  revert acc; induction d; intros acc; cbn [uint_value Unsigned.usize];
    [cbn; lia|..];
    unfold Decimal.rev; cbn [Decimal.revapp];
    rewrite (Unsigned.of_lu_revapp d), IHd, N.pow_succ_r';
    cbn [Unsigned.of_lu]; ring.
Qed.

Lemma uint_value_to_uint (n : N) : uint_value 0 (N.to_uint n) = n.
Proof.
  rewrite uint_value_of_lu, <- Unsigned.of_uint_alt.
  change (Pos.of_uint (N.to_uint n)) with (N.of_uint (N.to_uint n)).
  rewrite DecimalN.Unsigned.of_to. lia.
Qed.

Lemma of_N_unfold (n : N) : of_N n = NilEmpty.string_of_uint (N.to_uint n).
Proof.
  unfold of_N, NilZero.string_of_uint.
  destruct (N.to_uint n) eqn:E; try reflexivity.
  assert (H : N.of_uint (N.to_uint n) = n) by apply DecimalN.Unsigned.of_to.
  rewrite E in H. cbn in H. subst n. cbv in E. discriminate E.
Qed.

(** The rendering of a number is a non-empty run of digits. *)
Lemma of_N_digits (n : N) :
  all_chars is_digit (of_N n) = true /\
  exists c t, of_N n = String c t /\ is_digit c = true.
Proof.
  rewrite of_N_unfold. split; [apply string_of_uint_digits|].
  pose proof (string_of_uint_digits (N.to_uint n)) as H.
  destruct (NilEmpty.string_of_uint (N.to_uint n)) as [|c t] eqn:E.
  - assert (Hn : N.of_uint (N.to_uint n) = n) by apply DecimalN.Unsigned.of_to.
    destruct (N.to_uint n) eqn:U; try discriminate E.
    cbn in Hn. subst n. cbv in U. discriminate U.
  - exists c, t. split; [reflexivity|]. cbn in H. now apply andb_true_iff in H.
Qed.

(** Reading back a rendered number gives the Number value of the number,
    whatever follows it that is not a digit. *)
Lemma parseInt10_of_N (n : N) (rest : string) :
  head_fails is_digit rest = true ->
  parseInt10 (of_N n ++ rest) = Number.of_N n.
Proof.
  intros H. destruct (of_N_digits n) as (_ & c & t & E & Hc).
  unfold parseInt10. rewrite E at 1. cbn [append]. rewrite Hc.
  rewrite of_N_unfold, digits_from_uint, uint_value_to_uint.
  now rewrite digits_from_stop.
Qed.

(** ** Numbers *)

(** Below 2^53 every natural number is a double. *)
Lemma round53_exact (n : N) : (n < 2 ^ 53)%N -> Number.round53 n = n.
Proof.
  intros H. unfold Number.round53.
  assert (L : (N.log2 n < 53)%N).
  { destruct (N.eq_dec n 0) as [->|Hn]; [reflexivity|].
    apply N.log2_lt_pow2; [lia | exact H]. }
  apply N.ltb_lt in L. now rewrite L.
Qed.

Lemma of_N_exact (n : N) :
  (n < 2 ^ 53)%N -> Number.of_N n = Num (Z.of_N n).
Proof.
  intros H. unfold Number.of_N. cbv zeta. rewrite (round53_exact n H).
  assert (L : (n < 2 ^ 1024)%N).
  { apply (N.lt_le_trans _ _ _ H). apply N.pow_le_mono_r; [discriminate|].
    discriminate. }
  apply N.ltb_lt in L. now rewrite L.
Qed.

(** The text of such a number is its decimal numeral. *)
Lemma toString_exact (n : N) :
  (n < 2 ^ 53)%N -> Number.toString (Num (Z.of_N n)) = of_N n.
Proof.
  intros H. unfold Number.toString, Number.natToString.
  destruct (Z.ltb_spec (Z.of_N n) 0) as [Hneg|_]; [lia|].
  rewrite Zabs2N.id. apply N.ltb_lt in H. now rewrite H.
Qed.

(** What [parseInt10] reads is not negative. *)
Lemma of_N_not_negative (n : N) :
  (exists z, Number.of_N n = Num z /\ (0 <= z)%Z)
  \/ Number.of_N n = Infinity false.
Proof.
  unfold Number.of_N. cbv zeta.
  destruct (_ <? _)%N; [left | now right].
  eexists. split; [reflexivity | lia].
Qed.

Lemma parseInt10_not_negative (s : string) :
  parseInt10 s = NaN \/
  (exists z, parseInt10 s = Num z /\ (0 <= z)%Z) \/
  parseInt10 s = Infinity false.
Proof.
  unfold parseInt10. destruct s as [|c s]; [now left|].
  destruct (is_digit c); [right; apply of_N_not_negative | now left].
Qed.

(** ** The countdown *)

(** From 2^53 + 3 on, what a number rounds to is at least 2^53 + 4. *)
Lemma round53_lower (n : N) :
  (2 ^ 53 + 3 <= n)%N -> (2 ^ 53 + 4 <= Number.round53 n)%N.
Proof.
  change (2 ^ 53)%N with 9007199254740992%N.
  intros Hn. unfold Number.round53.
  assert (Hpos : (0 < n)%N) by lia.
  destruct (N.log2_spec n Hpos) as [Hlo Hhi].
  set (k := N.log2 n) in *.
  assert (Hk : (53 <= k)%N).
  { destruct (N.le_gt_cases 53 k) as [H|H]; [exact H|].
    exfalso. assert (Hs : (N.succ k <= 53)%N) by lia.
    pose proof (N.pow_le_mono_r 2 _ _ ltac:(discriminate) Hs) as Hp.
    change (2 ^ 53)%N with 9007199254740992%N in Hp. lia. }
  destruct (N.ltb_spec k 53) as [H|_]; [lia|]. cbv zeta.
  set (shift := (k - 52)%N).
  rewrite !N.shiftl_mul_pow2, N.shiftr_div_pow2, N.mul_1_l.
  set (unit := (2 ^ shift)%N).
  assert (Hunit : (0 < unit)%N).
  { subst unit. apply N.neq_0_lt_0, N.pow_nonzero. discriminate. }
  pose proof (N.div_mod n unit ltac:(lia)) as Hdm.
  pose proof (N.mod_lt n unit ltac:(lia)) as Hmod.
  set (q := (n / unit)%N) in *. set (r := (n mod unit)%N) in *.
  clearbody q r. replace (n - q * unit)%N with r by nia.
  assert (Hsplit : (2 ^ k = 4503599627370496 * unit)%N).
  { subst unit shift. change 4503599627370496%N with (2 ^ 52)%N.
    rewrite <- N.pow_add_r. f_equal. lia. }
  set (q' := if ((2 ^ (shift - 1) <? r) || (r =? 2 ^ (shift - 1)) && N.odd q)%N
             then (q + 1)%N else q).
  assert (Hq' : (q <= q')%N) by (subst q'; destruct (_ || _); lia).
  destruct (N.eq_dec k 53) as [E|E].
  - assert (Hu : unit = 2%N) by (subst unit shift; now rewrite E).
    assert (Hh : (2 ^ (shift - 1) = 1)%N) by (subst shift; now rewrite E).
    clearbody unit. subst unit.
    destruct (N.le_gt_cases (9007199254740992 + 4) n) as [Hbig|Hsmall].
    + lia.
    + assert (Hqv : q = 4503599627370497%N) by lia.
      assert (Hrv : r = 1%N) by lia.
      subst q'. rewrite Hh, Hrv, Hqv. cbn. lia.
  - assert (Hk' : (54 <= k)%N) by lia.
    pose proof (N.pow_le_mono_r 2 _ _ ltac:(discriminate) Hk') as Hp.
    change (2 ^ 54)%N with 18014398509481984%N in Hp.
    assert (Hq : (4503599627370496 <= q)%N).
    { destruct (N.le_gt_cases 4503599627370496 q) as [L|G]; [exact L|].
      exfalso. clearbody unit.
      assert (q + 1 <= 4503599627370496)%N by lia.
      assert ((q + 1) * unit <= 4503599627370496 * unit)%N
        by (apply N.mul_le_mono_r; lia).
      nia. }
    clearbody unit q'.
    assert (4503599627370496 * unit <= q' * unit)%N
      by (apply N.mul_le_mono_r; lia).
    lia.
Qed.

Lemma countdown_above (n : N) :
  (2 ^ 53 + 3 <= n)%N -> countdown (Number.of_N n) = None.
Proof.
  intros Hn. pose proof (round53_lower n Hn) as H.
  unfold Number.of_N. cbv zeta.
  destruct (_ <? _)%N; [|reflexivity].
  unfold countdown.
  change (2 ^ 53)%N with 9007199254740992%N in H.
  change (2 ^ 53)%Z with 9007199254740992%Z.
  destruct (Z.leb_spec (Z.of_N (Number.round53 n)) 0); [lia|].
  destruct (Z.leb_spec (Z.of_N (Number.round53 n)) 9007199254740992); [lia|].
  destruct (Z.eqb_spec (Z.of_N (Number.round53 n)) (9007199254740992 + 2));
    [lia | reflexivity].
Qed.

(** The rounds of the countdown: a counter that is positive takes one
    round and goes on from the counter less 1, rounded to a double.  This
    is the loop of the source; [countdown] is its solution. *)
Lemma countdown_rounds (z : Z) :
  (0 < z)%Z -> Number.of_Z z = Num z ->
  countdown (Num z)
  = option_map N.succ (countdown (Number.decrement (Num z))).
Proof.
  intros Hz Hd. unfold Number.decrement.
  assert (Hof : Number.of_Z (z - 1) = Number.of_N (Z.to_N (z - 1))).
  { unfold Number.of_Z. destruct (z - 1)%Z eqn:E; try reflexivity; lia. }
  rewrite Hof.
  change (2 ^ 53)%Z with 9007199254740992%Z in *.
  destruct (Z.le_gt_cases z 9007199254740992) as [Hsmall|Hbig].
  - rewrite of_N_exact
      by (change (2 ^ 53)%N with 9007199254740992%N; lia).
    rewrite Z2N.id by lia. unfold countdown.
    change (2 ^ 53)%Z with 9007199254740992%Z.
    destruct (Z.leb_spec z 0); [lia|].
    destruct (Z.leb_spec z 9007199254740992); [|lia].
    destruct (Z.leb_spec (z - 1) 0).
    + cbn [option_map]. f_equal. lia.
    + destruct (Z.leb_spec (z - 1) 9007199254740992); [|lia].
      cbn [option_map]. f_equal. lia.
  - destruct (Z.eq_dec z (9007199254740992 + 1)) as [->|N1];
      [vm_compute in Hd; discriminate Hd|].
    destruct (Z.eq_dec z (9007199254740992 + 2)) as [->|N2];
      [vm_compute; reflexivity|].
    destruct (Z.eq_dec z (9007199254740992 + 3)) as [->|N3];
      [vm_compute in Hd; discriminate Hd|].
    rewrite countdown_above
      by (change (2 ^ 53)%N with 9007199254740992%N; lia).
    unfold countdown. change (2 ^ 53)%Z with 9007199254740992%Z.
    destruct (Z.leb_spec z 0); [lia|].
    destruct (Z.leb_spec z 9007199254740992); [lia|].
    destruct (Z.eqb_spec z (9007199254740992 + 2)); [lia | reflexivity].
Qed.

(** One round of the loop. *)
Lemma countdownLoop_step (fuel : nat) (x : JsNumber) :
  countdownLoop (S fuel) x =
  if Number.ltb (Num 0) x
  then option_map N.succ (countdownLoop fuel (Number.decrement x))
  else Some 0%N.
Proof. reflexivity. Qed.

(** A counter from 2^53 + 4 on stays there. *)
Lemma countdownLoop_stuck (fuel : nat) :
  forall x,
    x = Infinity false \/ (exists z, x = Num z /\ (2 ^ 53 + 4 <= z)%Z) ->
    countdownLoop fuel x = None.
Proof.
  change (2 ^ 53)%Z with 9007199254740992%Z.
  induction fuel as [|fuel IH]; intros x Hx; [reflexivity|].
  rewrite countdownLoop_step.
  destruct Hx as [-> | (z & -> & Hz)].
  - cbn [Number.ltb negb Number.decrement]. rewrite IH; [reflexivity|].
    now left.
  - cbn [Number.ltb]. destruct (Z.ltb_spec 0 z); [|lia].
    rewrite IH; [reflexivity|]. unfold Number.decrement.
    assert (Hof : Number.of_Z (z - 1) = Number.of_N (Z.to_N (z - 1))).
    { unfold Number.of_Z. destruct (z - 1)%Z eqn:E; try reflexivity; lia. }
    rewrite Hof. unfold Number.of_N. cbv zeta.
    pose proof (round53_lower (Z.to_N (z - 1))) as Hr.
    change (2 ^ 53)%N with 9007199254740992%N in Hr.
    destruct (_ <? _)%N; [right | now left].
    eexists. split; [reflexivity|]. lia.
Qed.

(** A counter up to 2^53 takes as many rounds as it says. *)
Lemma countdownLoop_exact (n : N) :
  (n <= 2 ^ 53)%N ->
  countdownLoop (S (N.to_nat n)) (Num (Z.of_N n)) = Some n.
Proof.
  change (2 ^ 53)%N with 9007199254740992%N.
  induction n as [|n IH] using N.peano_ind; intros Hn; [reflexivity|].
  rewrite N2Nat.inj_succ, countdownLoop_step.
  cbn [Number.ltb]. destruct (Z.ltb_spec 0 (Z.of_N (N.succ n))); [|lia].
  unfold Number.decrement.
  replace (Z.of_N (N.succ n) - 1)%Z with (Z.of_N n) by lia.
  assert (Hof : Number.of_Z (Z.of_N n) = Num (Z.of_N n)).
  { unfold Number.of_Z. destruct (Z.of_N n) eqn:E; try lia;
      rewrite <- E, Zabs2N.id;
      apply of_N_exact; change (2 ^ 53)%N with 9007199254740992%N; lia. }
  rewrite Hof, IH by lia. reflexivity.
Qed.

(** More fuel does not change the result of a loop that has ended. *)
Lemma countdownLoop_more (fuel : nat) :
  forall x n, countdownLoop fuel x = Some n ->
              countdownLoop (S fuel) x = Some n.
Proof.
  induction fuel as [|fuel IH]; intros x n; [discriminate|].
  intros H. rewrite countdownLoop_step. rewrite countdownLoop_step in H. destruct (Number.ltb (Num 0) x); [|exact H].
  destruct (countdownLoop fuel (Number.decrement x)) as [m|] eqn:E;
    [|discriminate H].
  now rewrite (IH _ _ E).
Qed.

Lemma countdownLoop_enough (fuel fuel' : nat) (x : JsNumber) (n : N) :
  countdownLoop fuel x = Some n -> fuel <= fuel' ->
  countdownLoop fuel' x = Some n.
Proof.
  intros H Hle. induction Hle as [|m _ IH]; [exact H|].
  now apply countdownLoop_more.
Qed.

(** The closed form is what the loop does.  For a counter that is a
    double: the loop ends after [n] rounds, given fuel enough, exactly
    when [countdown] says so, and when [countdown] says that it does not
    end, no fuel ends it. *)
Lemma countdown_is_the_loop (x : JsNumber) :
  match x with Num z => Number.of_Z z = Num z | _ => True end ->
  (forall n, countdown x = Some n <->
             exists fuel, countdownLoop fuel x = Some n) /\
  (countdown x = None -> forall fuel, countdownLoop fuel x = None).
Proof.
  intros Hd.
  assert (Ends : forall n, countdown x = Some n ->
                           exists fuel, countdownLoop fuel x = Some n).
  { intros n. destruct x as [|z|[|]]; cbn [countdown].
    - intros [= <-]. now exists 1.
    - change (2 ^ 53)%Z with 9007199254740992%Z.
      change (2 ^ 53)%N with 9007199254740992%N.
      destruct (Z.leb_spec z 0).
      { intros [= <-]. exists 1. cbn [countdownLoop Number.ltb].
        destruct (Z.ltb_spec 0 z); [lia | reflexivity]. }
      destruct (Z.leb_spec z 9007199254740992).
      { intros [= <-]. exists (S (N.to_nat (Z.to_N z))).
        rewrite <- (Z2N.id z) at 2 by lia.
        apply countdownLoop_exact.
        change (2 ^ 53)%N with 9007199254740992%N. lia. }
      destruct (Z.eqb_spec z (9007199254740992 + 2)) as [->|];
        [|discriminate].
      intros [= <-].
      assert (Top : (9007199254740992 <= 2 ^ 53)%N)
        by (change (2 ^ 53)%N with 9007199254740992%N; lia).
      pose proof (countdownLoop_exact 9007199254740992 Top) as E.
      revert E. generalize (S (N.to_nat 9007199254740992)) as fuel.
      intros fuel E. exists (S fuel).
      rewrite countdownLoop_step.
      replace (Number.decrement (Num (9007199254740992 + 2)))
        with (Num (Z.of_N 9007199254740992)) by (vm_compute; reflexivity).
      rewrite E. reflexivity.
    - intros [= <-]. now exists 1.
    - discriminate. }
  assert (Never : countdown x = None ->
                  forall fuel, countdownLoop fuel x = None).
  { intros H fuel. apply countdownLoop_stuck.
    change (2 ^ 53)%Z with 9007199254740992%Z.
    destruct x as [|z|[|]]; cbn [countdown] in H; try discriminate H;
      [|now left].
    change (2 ^ 53)%Z with 9007199254740992%Z in H.
    destruct (Z.leb_spec z 0); [discriminate H|].
    destruct (Z.leb_spec z 9007199254740992); [discriminate H|].
    destruct (Z.eqb_spec z (9007199254740992 + 2)); [discriminate H|].
    right. exists z. split; [reflexivity|].
    destruct (Z.eq_dec z (9007199254740992 + 1)) as [->|N1];
      [vm_compute in Hd; discriminate Hd|].
    destruct (Z.eq_dec z (9007199254740992 + 3)) as [->|N3];
      [vm_compute in Hd; discriminate Hd|].
    lia. }
  split; [|exact Never].
  intros n. split; [apply Ends|].
  intros [fuel H]. destruct (countdown x) as [m|] eqn:C.
  - destruct (Ends m eq_refl) as [fuel' H'].
    pose proof (countdownLoop_enough _ (Nat.max fuel fuel') _ _ H
                  (Nat.le_max_l _ _)) as A.
    pose proof (countdownLoop_enough _ (Nat.max fuel fuel') _ _ H'
                  (Nat.le_max_r _ _)) as B.
    congruence.
  - rewrite (Never eq_refl fuel) in H. discriminate H.
Qed.

(** At infinity subtracting 1 changes nothing. *)
Example countdown_at_infinity :
  Number.decrement (Infinity false) = Infinity false /\
  countdown (Infinity false) = None.
Proof. split; reflexivity. Qed.

(** ** The classifier, further *)

Section MatcherResults.
Context {R : Type}.
Implicit Types (k : @Regex.Cont R) (s : string).

Lemma class_passes p k s r :
  Regex.class p k s = Some r -> exists s', k s' = Some r.
Proof.
  destruct s as [|c s]; cbn; [discriminate|].
  destruct (p c); [|discriminate]. intros H. now exists s.
Qed.

Lemma lit_ci_passes lit k s r :
  Regex.lit_ci lit k s = Some r -> exists s', k s' = Some r.
Proof.
  revert s; induction lit as [|l lit IH]; intros s H.
  - now exists s.
  - cbn [Regex.lit_ci] in H. apply class_passes in H as [s' H]. eauto.
Qed.

Lemma star_passes p k s r :
  Regex.star p k s = Some r -> exists s', k s' = Some r.
Proof.
  induction s as [|c s IH]; cbn [Regex.star]; intros H.
  - now exists "".
  - destruct (p c); [|now exists (String c s)].
    destruct (Regex.star p k s) eqn:E.
    + injection H as <-. now apply IH.
    + now exists (String c s).
Qed.

(** A run of characters of the class in front does not keep [star] from a
    match that it finds behind the run. *)
Lemma star_skip p k xs rest r :
  all_chars p xs = true ->
  Regex.star p k rest = Some r -> Regex.star p k (xs ++ rest) = Some r.
Proof.
  intros Hx Hr. induction xs as [|c xs IH]; [exact Hr|].
  cbn in Hx. apply andb_true_iff in Hx as [Hc Hx].
  cbn [append Regex.star]. now rewrite Hc, (IH Hx).
Qed.

Lemma star_stop p k rest :
  head_fails p rest = true -> Regex.star p k rest = k rest.
Proof.
  destruct rest as [|c rest]; cbn; [reflexivity|].
  now destruct (p c).
Qed.
End MatcherResults.

Lemma star_cap_skip {R : Type} p (k : string -> @Regex.Cont R) d :
  forall acc rest r,
    all_chars p d = true ->
    Regex.star_cap p (acc ++ d) k rest = Some r ->
    Regex.star_cap p acc k (d ++ rest) = Some r.
Proof.
  induction d as [|c d IH]; intros acc rest r Hd Hr.
  - now rewrite string_app_nil_r in Hr.
  - cbn in Hd. apply andb_true_iff in Hd as [Hc Hd].
    cbn [append Regex.star_cap]. rewrite Hc.
    rewrite (IH (acc ++ String c "") rest r Hd); [reflexivity|].
    now rewrite string_app_assoc.
Qed.

Lemma star_cap_stop {R : Type} p (k : string -> @Regex.Cont R) acc rest :
  head_fails p rest = true -> Regex.star_cap p acc k rest = k acc rest.
Proof.
  destruct rest as [|c rest]; cbn; [reflexivity|].
  now destruct (p c).
Qed.

(** What the capturing group of the pattern hands on extends [acc] by
    digits. *)
Lemma star_cap_digits (q : ascii -> bool) (s acc r : string) :
  Regex.star_cap is_digit acc
    (fun cap => Regex.class q (fun _ => Some cap)) s = Some r ->
  exists d, r = acc ++ d /\ all_chars is_digit d = true.
Proof.
  revert acc; induction s as [|c s IH]; intros acc; cbn [Regex.star_cap].
  - discriminate.
  - assert (Hk : Regex.class q (fun _ => Some acc) (String c s) = Some r ->
                 exists d, r = acc ++ d /\ all_chars is_digit d = true).
    { cbn. destruct (q c); [|discriminate]. intros [= <-].
      exists "". now rewrite string_app_nil_r. }
    destruct (is_digit c) eqn:Hc; [|exact Hk].
    destruct (Regex.star_cap is_digit (acc ++ String c "") _ s) eqn:E;
      [|exact Hk].
    intros [= <-]. destruct (IH _ E) as (d & -> & Hd).
    exists (String c d). rewrite string_app_assoc. split; [reflexivity|].
    cbn. now rewrite Hc.
Qed.

(** Wherever the pattern matches, group 1 is a non-empty run of digits. *)
Lemma retryDelay_match_digits (s cap : string) :
  Regex.retryDelay_match s = Some cap ->
  exists c d, cap = String c d /\ is_digit c = true /\
              all_chars is_digit d = true.
Proof.
  assert (Here : forall s, Regex.retryDelay_here s = Some cap ->
            exists c d, cap = String c d /\ is_digit c = true /\
                        all_chars is_digit d = true).
  { clear s. intros s H. unfold Regex.retryDelay_here in H.
    apply lit_ci_passes in H as [s1 H]. apply class_passes in H as [s2 H].
    apply star_space_passes in H as [s3 H]. apply star_passes in H as [s4 H].
    unfold Regex.plus_cap in H. destruct s4 as [|c s4]; [discriminate|].
    destruct (is_digit c) eqn:Hc; [|discriminate].
    apply star_cap_digits in H as (d & -> & Hd).
    exists c, d. cbn. auto. }
  induction s as [|c s IH]; cbn [Regex.retryDelay_match].
  - destruct (Regex.retryDelay_here "") eqn:E; [|discriminate].
    intros [= <-]. eauto.
  - destruct (Regex.retryDelay_here (String c s)) eqn:E.
    + intros [= <-]. eauto.
    + exact IH.
Qed.

Lemma parseInt10_digits (c : ascii) (d : string) :
  is_digit c = true ->
  parseInt10 (String c d) = Number.of_N (digits_from 0 (String c d)).
Proof. intros H. unfold parseInt10. now rewrite H. Qed.

Lemma of_N_not_NaN (n : N) : Number.of_N n <> NaN.
Proof.
  destruct (of_N_not_negative n) as [(z & -> & _) | ->]; discriminate.
Qed.

(** The two shapes of the result of [parseQuotaError]. *)
Lemma parseQuotaError_retry (m : string) :
  (exists n before,
      retryAfter (parseQuotaError m) = Some n /\ n <> NaN /\
      suggestions (parseQuotaError m) = (before ++ [retrySuggestion n])%list /\
      forall x, In x before -> existsb (String.eqb x) suggestionPool = true)
  \/
  (retryAfter (parseQuotaError m) = None /\
   forall x, In x (suggestions (parseQuotaError m)) ->
             existsb (String.eqb x) suggestionPool = true).
Proof.
  assert (Pool : forall x,
             In x (if includes m "free_tier" then freeTierSuggestions m
                   else ["💳 Check your billing and payment details";
                         "📈 You may need to increase your quota limits"]) ->
             existsb (String.eqb x) suggestionPool = true).
  { intros x. unfold freeTierSuggestions, push_if.
    destruct (includes m "free_tier"), (includes m "input_token_count"),
      (includes m "requests"), (includes m "PerMinute"), (includes m "PerDay");
      cbn [app In]; intros H;
      repeat (destruct H as [<-|H]; [reflexivity|]); contradiction. }
  unfold parseQuotaError.
  destruct (Regex.retryDelay_match m) as [cap|] eqn:E.
  - left. destruct (retryDelay_match_digits _ _ E) as (c & d & -> & Hc & _).
    exists (parseInt10 (String c d)). eexists. cbn [retryAfter suggestions].
    split; [reflexivity|].
    split; [rewrite (parseInt10_digits c d Hc); apply of_N_not_NaN|].
    split; [reflexivity|]. exact Pool.
  - right. split; [reflexivity|]. exact Pool.
Qed.

Lemma retrySuggestion_not_in_pool (n : JsNumber) :
  existsb (String.eqb (retrySuggestion n)) suggestionPool = false.
Proof.
  destruct (existsb _ suggestionPool) eqn:E; [|reflexivity].
  apply existsb_exists in E as (x & Hin & Hx).
  apply String.eqb_eq in Hx. subst x.
  assert (P : String.prefix retrySuggestionHead (retrySuggestion n) = true)
    by apply prefix_app.
  assert (Q : forall x, In x suggestionPool ->
                        String.prefix retrySuggestionHead x = false).
  { intros x H. cbn [suggestionPool In] in H.
    repeat (destruct H as [<-|H]; [reflexivity|]). contradiction. }
  rewrite (Q _ Hin) in P. discriminate.
Qed.

Lemma strip_trailing_zeros_digits (s : string) :
  all_chars is_digit s = true ->
  all_chars is_digit (Number.strip_trailing_zeros s) = true.
Proof.
  induction s as [|c s IH]; cbn [Number.strip_trailing_zeros all_chars];
    [reflexivity|].
  intros H. apply andb_true_iff in H as [Hc H]. specialize (IH H).
  destruct (Number.strip_trailing_zeros s) as [|d r].
  - destruct (Ascii.eqb c "0"); cbn; [reflexivity | now rewrite Hc].
  - cbn [all_chars] in *. now rewrite Hc, IH.
Qed.

(** The text of a natural number starts with a digit. *)
Lemma natToString_head (x : N) :
  exists c t, Number.natToString x = String c t /\ is_digit c = true.
Proof.
  unfold Number.natToString.
  destruct (x <? 2 ^ 53)%N.
  { destruct (of_N_digits x) as (_ & c & t & E & Hc). now exists c, t. }
  cbv zeta. set (text := of_N (Number.shortest x)).
  assert (Ht : exists c t, text = String c t /\ is_digit c = true).
  { destruct (of_N_digits (Number.shortest x)) as (_ & c & t & E & Hc).
    now exists c, t. }
  destruct (_ <? _)%N; [exact Ht|].
  pose proof (strip_trailing_zeros_digits text
                (proj1 (of_N_digits (Number.shortest x)))) as Hs.
  destruct (Number.strip_trailing_zeros text) as [|d [|e more]];
    [exact Ht | |];
    cbn [all_chars] in Hs; apply andb_true_iff in Hs as [Hd _];
    eexists; eexists; (split; [reflexivity | exact Hd]).
Qed.

(** The text of a number other than NaN does not start with the letter N. *)
Lemma toString_head (n : JsNumber) :
  n <> NaN ->
  exists c t, Number.toString n = String c t /\ c <> "N"%char.
Proof.
  intros Hn. destruct n as [|z|[|]]; [now elim Hn | |..].
  - unfold Number.toString. destruct (z <? 0)%Z.
    + eexists; eexists. split; [reflexivity | discriminate].
    + destruct (natToString_head (Z.abs_N z)) as (c & t & -> & Hc).
      exists c, t. split; [reflexivity|]. intros ->. discriminate Hc.
  - eexists; eexists. split; [reflexivity | discriminate].
  - eexists; eexists. split; [reflexivity | discriminate].
Qed.

Lemma retrySuggestion_not_NaN (n : JsNumber) :
  n <> NaN -> retrySuggestion n <> "⏰ Suggested retry time: NaN seconds".
Proof.
  intros Hn. unfold retrySuggestion. intros H.
  destruct (toString_head n Hn) as (c & t & E & Hc). rewrite E in H.
  cbn in H. injection H as Hc'. now elim Hc.
Qed.

(** X1.  The kind of a classification does not depend on the case of the
    letters of the message. *)
Theorem X1_kind_ignores_case (m m' : string) :
  toLowerCase m = toLowerCase m' ->
  type (parseGeminiError m) = type (parseGeminiError m').
Proof.
  intros H. unfold parseGeminiError. rewrite H.
  repeat match goal with
         | |- context [if ?c then _ else _] => destruct c
         end; try reflexivity.
  now rewrite !parseQuotaError_type.
Qed.

Lemma X1_witness :
  type (parseGeminiError "429 Rate_Limit_Exceeded: QUOTAFAILURE")
  = type (parseGeminiError "429 rate_limit_exceeded: quotafailure").
Proof. apply X1_kind_ignores_case. reflexivity. Defined.

(** The tailoring of the quota suggestions, unlike the kind, reads the
    message as it is: a free-tier message in capitals is classified
    [quota_exceeded] and gets the suggestions of the paid tier. *)
Example free_tier_is_case_sensitive :
  parseGeminiError "EXCEEDED YOUR CURRENT QUOTA (FREE_TIER)" =
  {| type := quota_exceeded;
     message := "You have exceeded your API quota limits";
     suggestions := ["💳 Check your billing and payment details";
                     "📈 You may need to increase your quota limits"];
     retryAfter := None |}.
Proof. reflexivity. Qed.

(** X2.  A classification never shows a retry time that is not a number;
    when it carries [retryAfter], this is a number (not NaN), its kind is
    [quota_exceeded] and its last suggestion states that very number; and
    when it carries none, no suggestion states a retry time. *)
Theorem X2_retry_time_is_a_number_and_is_shown (m : string) :
  ~ In "⏰ Suggested retry time: NaN seconds"
       (suggestions (parseGeminiError m)) /\
  (forall n, retryAfter (parseGeminiError m) = Some n ->
             n <> NaN /\
             type (parseGeminiError m) = quota_exceeded /\
             exists before,
               suggestions (parseGeminiError m)
               = (before ++ [retrySuggestion n])%list) /\
  (retryAfter (parseGeminiError m) = None ->
   forall n, ~ In (retrySuggestion n) (suggestions (parseGeminiError m))).
Proof.
  assert (NoNaN : existsb (String.eqb "⏰ Suggested retry time: NaN seconds")
                          suggestionPool = false) by reflexivity.
  assert (Fixed : forall l,
             (forall x, In x l -> existsb (String.eqb x) suggestionPool = true) ->
             ~ In "⏰ Suggested retry time: NaN seconds" l /\
             forall n, ~ In (retrySuggestion n) l).
  { intros l Hl. split.
    - intros Hin. apply Hl in Hin. congruence.
    - intros n Hin. apply Hl in Hin.
      rewrite retrySuggestion_not_in_pool in Hin. discriminate. }
  unfold parseGeminiError.
  destruct (_ || _) eqn:Hq.
  - destruct (parseQuotaError_retry m)
      as [(n & before & Hr & Hn & Hs & Hpool) | (Hr & Hpool)].
    + rewrite Hr, Hs. split; [|split].
      * intros Hin. apply in_app_or in Hin as [Hin|[Hin|[]]].
        -- now apply (proj1 (Fixed _ Hpool)).
        -- now apply (retrySuggestion_not_NaN n Hn).
      * intros n' [= <-]. split; [exact Hn|].
        split; [apply parseQuotaError_type | eauto].
      * discriminate.
    + rewrite Hr. split; [apply (Fixed _ Hpool)|]. split; [discriminate|].
      intros _. apply (Fixed _ Hpool).
  - assert (Other : forall info : GeminiErrorInfo,
               retryAfter info = None ->
               (forall x, In x (suggestions info) ->
                          existsb (String.eqb x) suggestionPool = true) ->
               ~ In "⏰ Suggested retry time: NaN seconds" (suggestions info) /\
               (forall n, retryAfter info = Some n ->
                          n <> NaN /\
                          type info = quota_exceeded /\
                          exists before,
                            suggestions info
                            = (before ++ [retrySuggestion n])%list) /\
               (retryAfter info = None ->
                forall n, ~ In (retrySuggestion n) (suggestions info))).
    { intros info Hr Hpool. split; [apply (Fixed _ Hpool)|].
      split; [rewrite Hr; discriminate|]. intros _. apply (Fixed _ Hpool). }
    repeat match goal with
           | |- context [if ?c then _ else _] => destruct c
           end;
      apply Other; try reflexivity;
      try (cbn [suggestions In]; intros x H;
           repeat (destruct H as [<-|H]; [reflexivity|]); contradiction).
    unfold parseRateLimitError, push_if. intros x.
    destruct (includes m "requests per minute"), (includes m "quota metric");
      cbn [suggestions app In]; intros H;
      repeat (destruct H as [<-|H]; [reflexivity|]); contradiction.
Qed.

Lemma X2_witness :
  let m := "You exceeded your current quota, retryDelay:17s" in
  Num 17 <> NaN /\
  type (parseGeminiError m) = quota_exceeded /\
  exists before,
    suggestions (parseGeminiError m)
    = (before ++ [retrySuggestion (Num 17)])%list.
Proof.
  apply (proj1 (proj2 (X2_retry_time_is_a_number_and_is_shown _))).
  reflexivity.
Defined.
(** The character classes that follow one another in the pattern are
    disjoint. *)
Lemma digit_not_quote (c : ascii) :
  is_digit c = true -> Regex.is_quote c = false.
Proof. ascii_cases c; vm_compute; intros H; first [discriminate H | reflexivity]. Qed.

Lemma digit_not_white (c : ascii) (t : string) :
  is_digit c = true -> white_rest (String c t) = None.
Proof.
  intros H. apply white_rest_ascii; revert H; ascii_cases c; vm_compute;
    intros H; first [discriminate H | reflexivity].
Qed.

Lemma quote_not_white (c : ascii) (t : string) :
  Regex.is_quote c = true -> white_rest (String c t) = None.
Proof.
  intros H. apply white_rest_ascii; revert H; ascii_cases c; vm_compute;
    intros H; first [discriminate H | reflexivity].
Qed.

Lemma lower_s_not_digit (c : ascii) :
  lower_char c = "s"%char -> is_digit c = false.
Proof. intros H. now destruct (lower_char_s _ H) as [-> | ->]. Qed.

Lemma head_fails_cons (p : ascii -> bool) (c : ascii) (s : string) :
  p c = false -> head_fails p (String c s) = true.
Proof. intros H. cbn. now rewrite H. Qed.

(** The pattern matches the word, one separator, white space, quotes, a
    rendered number and the letter s, and captures the number. *)
Lemma retryDelay_here_number (word spaces quotes post : string)
      (sep ending : ascii) (n : N) :
  toLowerCase word = "retrydelay" ->
  Regex.is_quote_or_colon sep = true ->
  all_white spaces = true ->
  all_chars Regex.is_quote quotes = true ->
  lower_char ending = "s"%char ->
  Regex.retryDelay_here
    (word ++ String sep (spaces ++ quotes ++ of_N n ++ String ending post))
  = Some (of_N n).
Proof.
  intros Hw Hsep Hsp Hq He.
  destruct (of_N_digits n) as (Hall & c & t & E & Hc).
  unfold Regex.retryDelay_here.
  rewrite lit_ci_lower by exact Hw.
  cbn [Regex.class]. rewrite Hsep.
  assert (Hdigits :
            Regex.plus_cap is_digit
              (fun cap => Regex.class Regex.is_s_ci (fun _ => Some cap))
              (of_N n ++ String ending post) = Some (of_N n)).
  { rewrite E. cbn [append Regex.plus_cap]. rewrite Hc.
    apply star_cap_skip.
    - rewrite E in Hall. cbn in Hall. now apply andb_true_iff in Hall.
    - rewrite star_cap_stop
        by (apply head_fails_cons, lower_s_not_digit, He).
      cbn [Regex.class append]. unfold Regex.is_s_ci.
      now rewrite He. }
  assert (Hquotes :
            Regex.star Regex.is_quote
              (Regex.plus_cap is_digit
                 (fun cap => Regex.class Regex.is_s_ci (fun _ => Some cap)))
              (quotes ++ of_N n ++ String ending post) = Some (of_N n)).
  { apply star_skip; [exact Hq|]. rewrite star_stop; [exact Hdigits|].
    rewrite E. cbn [append]. now apply head_fails_cons, digit_not_quote. }
  apply star_space_skip; [exact Hsp|].
  rewrite star_space_stop; [exact Hquotes|].
  destruct quotes as [|q quotes].
  - rewrite E. cbn [append]. now apply digit_not_white.
  - cbn in Hq. apply andb_true_iff in Hq as [Hq _].
    cbn [append]. now apply quote_not_white.
Qed.

(** X3.  Round trip of the retry delay.  Let a message be classified on the
    quota branch, and let it hold the word retrydelay, in any case, followed
    by a quote or a colon, any white space, any quotes, the decimal
    rendering of a number [n] and the letter s, with no match of the
    pattern before it.  Then the classification carries as [retryAfter] the
    Number value of [n], the double next to it, and its last suggestion
    states that number.  Below 2^53 this is [n] itself in its decimal
    rendering. *)
Theorem X3_retry_delay_round_trip
        (pre word spaces quotes post : string) (sep ending : ascii) (n : N) :
  toLowerCase word = "retrydelay" ->
  Regex.is_quote_or_colon sep = true ->
  all_white spaces = true ->
  all_chars Regex.is_quote quotes = true ->
  lower_char ending = "s"%char ->
  Regex.retryDelay_within
    pre (word ++ String sep (spaces ++ quotes ++ of_N n ++ String ending post))
  = false ->
  forall m,
    m = pre ++ word
        ++ String sep (spaces ++ quotes ++ of_N n ++ String ending post) ->
    includes (toLowerCase m) "exceeded your current quota"
    || includes (toLowerCase m) "quotafailure" = true ->
    retryAfter (parseGeminiError m) = Some (Number.of_N n) /\
    (exists before,
        suggestions (parseGeminiError m)
        = (before ++ [retrySuggestion (Number.of_N n)])%list) /\
    ((n < 2 ^ 53)%N ->
     retryAfter (parseGeminiError m) = Some (Num (Z.of_N n)) /\
     exists before,
       suggestions (parseGeminiError m)
       = (before
          ++ [("⏰ Suggested retry time: " ++ of_N n ++ " seconds")%string])%list).
Proof.
  intros Hw Hsep Hsp Hq He Hpre m -> Hquota.
  rewrite (parseGeminiError_quota _ Hquota).
  assert (Hm : Regex.retryDelay_match
                 (pre ++ word ++
                  String sep (spaces ++ quotes ++ of_N n ++ String ending post))
               = Some (of_N n)).
  { rewrite (retryDelay_match_skip _ _ Hpre).
    now apply retryDelay_match_here, retryDelay_here_number. }
  unfold parseQuotaError. rewrite Hm.
  assert (Hp : parseInt10 (of_N n) = Number.of_N n).
  { rewrite <- (string_app_nil_r (of_N n)). now apply parseInt10_of_N. }
  cbn [retryAfter suggestions]. rewrite Hp.
  split; [reflexivity|]. split; [eauto|].
  intros Hn. rewrite (of_N_exact n Hn). split; [reflexivity|].
  unfold retrySuggestion. rewrite (toString_exact n Hn). eauto.
Qed.

Lemma X3_witness :
  retryAfter
    (parseGeminiError
       ("Resource exhausted (QuotaFailure). retryDelay soon. RetryDelay:'"
        ++ of_N 86400 ++ "s'")) = Some (Num 86400) /\
  exists before,
    suggestions
      (parseGeminiError
         ("Resource exhausted (QuotaFailure). retryDelay soon. RetryDelay:'"
          ++ of_N 86400 ++ "s'"))
    = (before
       ++ [("⏰ Suggested retry time: " ++ of_N 86400 ++ " seconds")%string])%list.
Proof.
  apply (proj2 (proj2 (X3_retry_delay_round_trip
           "Resource exhausted (QuotaFailure). retryDelay soon. "
           "RetryDelay" "" "'" "'" ":"%char "s"%char 86400
           eq_refl eq_refl eq_refl eq_refl eq_refl eq_refl _ eq_refl
           eq_refl))).
  reflexivity.
Defined.

(** From 2^53 on the delay is rounded to a double, and the suggestion
    shows the shortest decimal that denotes it; a delay beyond the doubles
    is infinite. *)
Example retry_delay_is_a_double :
  let info digits :=
    parseGeminiError ("quotaFailure, retryDelay: " ++ digits ++ "s") in
  retryAfter (info "9007199254740993") = Some (Num 9007199254740992) /\
  retryAfter (info "1152921504606846977") = Some (Num 1152921504606846976) /\
  last (suggestions (info "1152921504606846977")) ""
  = "⏰ Suggested retry time: 1152921504606847000 seconds" /\
  last (suggestions (info "1180591620717411303424")) ""
  = "⏰ Suggested retry time: 1.1805916207174113e+21 seconds" /\
  retryAfter (info (repeat_char 400 "9")) = Some (Infinity false) /\
  last (suggestions (info (repeat_char 400 "9"))) ""
  = "⏰ Suggested retry time: Infinity seconds".
Proof. vm_compute. repeat split. Qed.

(** X4.  Every classification has between 1 and 11 suggestions.  The kind
    [unknown] hands on the message of the error as it is; every other kind
    replaces it by one of seven fixed texts. *)
Theorem X4_classification_shape (m : string) :
  1 <= List.length (suggestions (parseGeminiError m)) <= 11 /\
  (type (parseGeminiError m) = unknown -> message (parseGeminiError m) = m) /\
  (type (parseGeminiError m) <> unknown ->
   In (message (parseGeminiError m)) fixedMessages).
Proof.
  unfold parseGeminiError.
  destruct (_ || _).
  - unfold parseQuotaError, freeTierSuggestions, push_if.
    destruct (Regex.retryDelay_match m), (includes m "free_tier"),
      (includes m "input_token_count"), (includes m "requests"),
      (includes m "PerMinute"), (includes m "PerDay");
      cbn [suggestions type message fixedMessages In];
      rewrite ?length_app; cbn [List.length];
      (split; [lia|]); (split; [discriminate | intros _; tauto]).
  - destruct (_ && _).
    + unfold parseRateLimitError, push_if.
      destruct (includes m "requests per minute"), (includes m "quota metric");
        cbn [suggestions type message fixedMessages In];
        rewrite ?length_app; cbn [List.length];
        (split; [lia|]); (split; [discriminate | intros _; tauto]).
    + repeat match goal with
             | |- context [if ?c then _ else _] => destruct c
             end;
        cbn [suggestions type message List.length fixedMessages In];
        (split; [lia|]);
        (split; [first [discriminate | reflexivity]
                | first [intros _; tauto | intros H; now elim H]]).
Qed.

Lemma X4_witness :
  message (parseGeminiError "socket hang up") = "socket hang up".
Proof.
  apply (proj1 (proj2 (X4_classification_shape "socket hang up"))).
  reflexivity.
Defined.

(** ** The retry wrapper, further *)

Lemma afterCalls_zero (w : World) : afterCalls 0 [] w = w.
Proof.
  destruct w. unfold afterCalls. cbn. now rewrite Nat.add_0_r, app_nil_r.
Qed.

(** While the Gateway fails with a rate limit and attempts are left, the
    loop calls, waits and goes on. *)
Lemma retryLoop_retries E config prompt maxRetries :
  forall retries remaining attempt w,
    (forall i, i < retries ->
               rateLimitedAt E config prompt (gatewayCalls w + i)) ->
    retries < remaining ->
    attempt + remaining = S maxRetries ->
    retryLoop E config prompt maxRetries remaining attempt w =
    retryLoop E config prompt maxRetries (remaining - retries)
              (attempt + retries)
              (afterCalls retries (retriedEvents prompt retries attempt) w).
Proof.
  induction retries as [|retries IH]; intros remaining attempt w Hfail Hlt Hinv.
  - now rewrite Nat.sub_0_r, Nat.add_0_r, afterCalls_zero.
  - destruct remaining as [|remaining]; [lia|].
    rewrite retryLoop_step.
    destruct (Hfail 0 ltac:(lia)) as (name & message & Hg & Ht).
    rewrite Nat.add_0_r in Hg. rewrite Hg.
    cbn [thrownBy errorMessage]. cbv zeta.
    assert (Hne : (attempt =? maxRetries)%nat = false)
      by (apply Nat.eqb_neq; lia).
    rewrite Hne, Ht.
    rewrite (IH remaining (S attempt)); [| |lia|lia].
    + f_equal; [lia|].
      unfold afterCalls, log, afterCall.
      cbn [gatewayCalls menusAsked confirmsAsked passwordsAsked trace
           retriedEvents].
      f_equal; [lia|]. now rewrite <- !app_assoc.
    + intros i Hi. cbn [gatewayCalls log afterCall].
      replace (S (gatewayCalls w) + i) with (gatewayCalls w + S i) by lia.
      apply Hfail. lia.
Qed.

Lemma totalWait_retried (prompt : string) (retries attempt : nat) :
  (totalWait (retriedEvents prompt retries attempt) + 2 ^ N.of_nat attempt * 1000
   = 2 ^ N.of_nat (attempt + retries) * 1000)%N.
Proof.
  revert attempt; induction retries as [|retries IH]; intros attempt.
  - cbn. now rewrite Nat.add_0_r.
  - cbn [retriedEvents totalWait].
    specialize (IH (S attempt)).
    replace (attempt + S retries) with (S attempt + retries) by lia.
    rewrite Nat2N.inj_succ, N.pow_succ_r' in IH. lia.
Qed.

Lemma totalWait_app (a b : list Event) :
  totalWait (a ++ b) = (totalWait a + totalWait b)%N.
Proof.
  induction a as [|e a IH]; [reflexivity|].
  destruct e; simpl; rewrite IH; lia.
Qed.

(** X5.  The automatic retry, for any budget.  If the first [retries] calls
    fail with a rate limit, [retries] is below [maxRetries] and the next
    call returns a text, then the wrapper returns that text after
    [retries + 1] calls, having waited 2, 4, 8, ... seconds between them,
    in total [2^(retries+1) - 2] seconds, and having asked the user
    nothing. *)
Theorem X5_retry_succeeds_within_budget
        E config prompt maxRetries retries text w :
  (forall i, i < retries ->
             rateLimitedAt E config prompt (gatewayCalls w + i)) ->
  retries < maxRetries ->
  gateway E (gatewayCalls w + retries) config prompt = Generated text ->
  generateWithRetry E config prompt maxRetries w =
  (Returned text,
   afterCalls (S retries) (backoffEvents prompt (S retries) 1) w) /\
  (totalWait (backoffEvents prompt (S retries) 1) + 2000
   = 2 ^ N.of_nat (S retries) * 1000)%N.
Proof.
  intros Hfail Hlt Hok. split.
  - unfold generateWithRetry.
    rewrite (retryLoop_retries _ _ _ _ retries); [|exact Hfail|lia|lia].
    destruct (maxRetries - retries) as [|remaining] eqn:Hr; [lia|].
    rewrite retryLoop_step. cbn [afterCalls gatewayCalls]. rewrite Hok.
    f_equal. unfold afterCall, afterCalls, backoffEvents.
    cbn [gatewayCalls menusAsked confirmsAsked passwordsAsked trace].
    f_equal; [lia|]. now rewrite <- app_assoc.
  - unfold backoffEvents. rewrite totalWait_app. cbn [totalWait].
    pose proof (totalWait_retried prompt retries 1) as H.
    cbn [Nat.add] in H. change (2 ^ N.of_nat 1 * 1000)%N with 2000%N in H.
    lia.
Qed.

Lemma X5_witness :
  generateWithRetry (stubEnv flakyGateway fallback true) standardConfig
                    "prompt" 3 initialWorld =
  (Returned "analysis of the third call",
   afterCalls 3 (backoffEvents "prompt" 3 1) initialWorld) /\
  (totalWait (backoffEvents "prompt" 3 1) + 2000 = 2 ^ N.of_nat 3 * 1000)%N.
Proof.
  apply (X5_retry_succeeds_within_budget
           (stubEnv flakyGateway fallback true) standardConfig "prompt" 3 2).
  - intros i Hi. exists "Error", rateLimitMessage.
    destruct i as [|[|i]]; [now split | now split | lia].
  - lia.
  - reflexivity.
Defined.

(** X6.  The budget is a number of attempts.  If the first [maxRetries - 1]
    calls fail with a rate limit and the call number [maxRetries] fails in
    any way, the wrapper throws what this last call threw, after exactly
    [maxRetries] calls and [maxRetries - 1] waits. *)
Theorem X6_budget_exhausted E config prompt retries w :
  (forall i, i < retries ->
             rateLimitedAt E config prompt (gatewayCalls w + i)) ->
  (forall text,
      gateway E (gatewayCalls w + retries) config prompt <> Generated text) ->
  generateWithRetry E config prompt (S retries) w =
  (Threw (thrownBy (gateway E (gatewayCalls w + retries) config prompt)),
   afterCalls (S retries) (backoffEvents prompt (S retries) 1) w).
Proof.
  intros Hfail Hlast. unfold generateWithRetry.
  rewrite (retryLoop_retries _ _ _ _ retries); [|exact Hfail|lia|lia].
  replace (S retries - retries) with 1 by lia.
  rewrite retryLoop_step. cbn [afterCalls gatewayCalls].
  assert (Hend : (1 + retries =? S retries)%nat = true)
    by (apply Nat.eqb_eq; lia).
  assert (Hw : afterCall prompt
                 (afterCalls retries (retriedEvents prompt retries 1) w)
               = afterCalls (S retries) (backoffEvents prompt (S retries) 1) w).
  { unfold afterCall, afterCalls, backoffEvents.
    cbn [gatewayCalls menusAsked confirmsAsked passwordsAsked trace].
    f_equal; [lia|]. now rewrite <- app_assoc. }
  destruct (gateway E (gatewayCalls w + retries) config prompt) as [t| |] eqn:G.
  - now elim (Hlast t).
  - cbv zeta. now rewrite Hend, Hw.
  - cbv zeta. now rewrite Hend, Hw.
Qed.

Lemma X6_witness :
  generateWithRetry (stubEnv (failingGateway rateLimitMessage) fallback true)
                    standardConfig "prompt" 4 initialWorld =
  (Threw (PlainError "Error" rateLimitMessage),
   afterCalls 4 (backoffEvents "prompt" 4 1) initialWorld).
Proof.
  apply (X6_budget_exhausted
           (stubEnv (failingGateway rateLimitMessage) fallback true)
           standardConfig "prompt" 3 initialWorld).
  - intros i Hi. exists "Error", rateLimitMessage. now split.
  - discriminate.
Defined.

(** X7.  What is not a rate limit is not retried.  Whatever the budget,
    when the first call throws a value that is no [Error], or an error that
    the classifier does not take for a rate limit, the wrapper throws it
    after this one call and without waiting; and with a budget of 0 it
    throws [Max retries exceeded] without calling the Gateway. *)
Theorem X7_no_retry_unless_rate_limited E config prompt w :
  (forall maxRetries,
      gateway E (gatewayCalls w) config prompt = FailedNotAnError ->
      generateWithRetry E config prompt (S maxRetries) w
      = (Threw NotAnError, afterCall prompt w)) /\
  (forall maxRetries name message,
      gateway E (gatewayCalls w) config prompt = Failed name message ->
      type (parseGeminiError message) <> rate_limit ->
      generateWithRetry E config prompt (S maxRetries) w
      = (Threw (PlainError name message), afterCall prompt w)) /\
  generateWithRetry E config prompt 0 w
  = (Threw (PlainError "Error" "Max retries exceeded"), w).
Proof.
  split; [|split].
  - intros maxRetries G. unfold generateWithRetry.
    rewrite retryLoop_step, G. cbn [thrownBy errorMessage]. cbv zeta.
    now destruct (1 =? S maxRetries)%nat.
  - intros maxRetries name message G Ht. unfold generateWithRetry.
    rewrite retryLoop_step, G. cbn [thrownBy errorMessage]. cbv zeta.
    destruct (1 =? S maxRetries)%nat; [reflexivity|].
    now destruct (type (parseGeminiError message)).
  - reflexivity.
Qed.

Lemma X7_witness :
  generateWithRetry
    (stubEnv (failingGateway "You exceeded your current quota") fallback true)
    standardConfig "prompt" 5 initialWorld
  = (Threw (PlainError "Error" "You exceeded your current quota"),
     afterCall "prompt" initialWorld).
Proof.
  apply (proj1 (proj2 (X7_no_retry_unless_rate_limited
                         (stubEnv (failingGateway
                                     "You exceeded your current quota")
                                  fallback true)
                         standardConfig "prompt" initialWorld)) 4).
  - reflexivity.
  - vm_compute. discriminate.
Defined.

(** The shape of every run of the wrapper. *)
Lemma wrapper_run_shape E config prompt maxRetries w :
  exists calls,
    calls <= maxRetries /\
    (1 <= maxRetries -> 1 <= calls) /\
    snd (generateWithRetry E config prompt maxRetries w)
    = afterCalls calls (backoffEvents prompt calls 1) w.
Proof.
  unfold generateWithRetry.
  assert (Loop : forall remaining attempt w,
             attempt + remaining = S maxRetries ->
             exists calls,
               calls <= remaining /\ (1 <= remaining -> 1 <= calls) /\
               snd (retryLoop E config prompt maxRetries remaining attempt w)
               = afterCalls calls (backoffEvents prompt calls attempt) w).
  { clear w. induction remaining as [|remaining IH]; intros attempt w Hinv.
    - exists 0. split; [lia|]. split; [lia|].
      cbn [retryLoop snd backoffEvents]. now rewrite afterCalls_zero.
    - assert (One : afterCall prompt w
                    = afterCalls 1 (backoffEvents prompt 1 attempt) w).
      { unfold afterCall, afterCalls, backoffEvents.
        cbn [retriedEvents app]. f_equal. lia. }
      rewrite retryLoop_step.
      destruct (gateway E (gatewayCalls w) config prompt) as [t|name message|];
        cbn [thrownBy errorMessage]; cbv zeta.
      + exists 1. split; [lia|]. split; [lia|]. exact One.
      + destruct (Nat.eqb_spec attempt maxRetries) as [He|Hne].
        * exists 1. split; [lia|]. split; [lia|]. exact One.
        * destruct (type (parseGeminiError message));
            try (exists 1; split; [lia|]; split; [lia|]; exact One).
          destruct (IH (S attempt)
                       (log (Waited (2 ^ N.of_nat attempt * 1000))
                            (afterCall prompt w)) ltac:(lia))
            as (calls & Hle & Hpos & Hw).
          assert (1 <= calls) by (apply Hpos; lia).
          destruct calls as [|calls]; [lia|].
          exists (S (S calls)). split; [lia|]. split; [lia|].
          rewrite Hw. unfold afterCalls, log, afterCall, backoffEvents.
          cbn [gatewayCalls menusAsked confirmsAsked passwordsAsked trace
               retriedEvents].
          f_equal; [lia|]. rewrite <- !app_assoc. reflexivity.
      + destruct (attempt =? maxRetries)%nat;
          exists 1; (split; [lia|]); (split; [lia|]); exact One. }
  destruct (Loop maxRetries 1 w ltac:(lia)) as (calls & Hle & Hpos & Hw).
  exists calls. auto.
Qed.

(** X8.  Every run of the wrapper, whatever the Gateway does, makes at
    most [maxRetries] calls (and at least one when the budget is not 0),
    has the shape of a backoff (each call but the last followed by its
    wait) and asks the user nothing. *)
Theorem X8_wrapper_run_shape E config prompt maxRetries w :
  exists calls,
    Nat.min 1 maxRetries <= calls <= maxRetries /\
    snd (generateWithRetry E config prompt maxRetries w)
    = afterCalls calls (backoffEvents prompt calls 1) w.
Proof.
  destruct (wrapper_run_shape E config prompt maxRetries w)
    as (calls & Hle & Hpos & Hw).
  exists calls. split; [|exact Hw]. lia.
Qed.

(** ** The orchestrator, further *)

(** A text that the wrapper returns is a text that the Gateway generated
    for this configuration and prompt. *)
Lemma retryLoop_returned E config prompt maxRetries :
  forall remaining attempt w text w1,
    retryLoop E config prompt maxRetries remaining attempt w
    = (Returned text, w1) ->
    exists n, gateway E n config prompt = Generated text.
Proof.
  induction remaining as [|remaining IH]; intros attempt w text w1.
  - discriminate.
  - rewrite retryLoop_step.
    destruct (gateway E (gatewayCalls w) config prompt) as [t|name message|]
      eqn:G; cbn [thrownBy errorMessage]; cbv zeta.
    + intros [= <- <-]. now exists (gatewayCalls w).
    + destruct (attempt =? maxRetries)%nat; [discriminate|].
      destruct (type (parseGeminiError message)); try discriminate.
      apply IH.
    + destruct (attempt =? maxRetries)%nat; discriminate.
Qed.

(** A first call that fails with anything but a rate limit ends the
    wrapper of [analyzeRepository] at once. *)
Lemma generateWithRetry_first_failure E config prompt w name message :
  gateway E (gatewayCalls w) config prompt = Failed name message ->
  type (parseGeminiError message) <> rate_limit ->
  generateWithRetry E config prompt defaultMaxRetries w
  = (Threw (PlainError name message), afterCall prompt w).
Proof.
  intros G Ht. unfold generateWithRetry, defaultMaxRetries.
  rewrite retryLoop_step, G. cbn [thrownBy errorMessage Nat.eqb]. cbv zeta.
  now destruct (type (parseGeminiError message)).
Qed.

Lemma retryAfter_quota (m : string) (n : JsNumber) :
  retryAfter (parseGeminiError m) = Some n ->
  type (parseGeminiError m) = quota_exceeded.
Proof.
  unfold parseGeminiError.
  destruct (_ || _); [intros _; apply parseQuotaError_type|].
  repeat match goal with
         | |- context [if ?c then _ else _] => destruct c
         end; discriminate.
Qed.

(** X9.  The fallback.  When the first Gateway call fails with an error
    classified [quota_exceeded] and the user picks the basic analysis, the
    run returns the report of the fallback analyzer, made from the scanned
    files and labelled with the model [fallback-analyzer], after this one
    Gateway call and one question; and [handleAnalysis] serves it. *)
Theorem X9_fallback_after_quota_failure fuel E config name message :
  gateway E 0 config (createAnalysisPrompt (scanned E) config)
  = Failed name message ->
  type (parseGeminiError message) = quota_exceeded ->
  menuAnswer E 0 = fallback ->
  handleAnalysis (S fuel) E config =
  Some (Serving (fallbackReport E),
        {| gatewayCalls := 1;
           menusAsked := 1;
           confirmsAsked := 0;
           passwordsAsked := 0;
           trace := [Scanned;
                     GatewayCalled (createAnalysisPrompt (scanned E) config);
                     MenuAsked fallback;
                     Scanned] |}).
Proof.
  intros G Ht Hm. unfold handleAnalysis.
  rewrite analyzeRepository_step.
  rewrite (generateWithRetry_first_failure _ _ _ _ name message);
    [|exact G|rewrite Ht; discriminate].
  rewrite Ht. unfold askMenu. cbn [menusAsked afterCall log initialWorld].
  rewrite Hm. reflexivity.
Qed.

Lemma X9_witness :
  handleAnalysis 1
    (stubEnv (failingGateway "You exceeded your current quota") fallback true)
    standardConfig
  = Some (Serving
            (fallbackReport
               (stubEnv (failingGateway "You exceeded your current quota")
                        fallback true)),
          {| gatewayCalls := 1;
             menusAsked := 1;
             confirmsAsked := 0;
             passwordsAsked := 0;
             trace := [Scanned;
                       GatewayCalled
                         (createAnalysisPrompt [notesFile] standardConfig);
                       MenuAsked fallback;
                       Scanned] |}).
Proof.
  apply (X9_fallback_after_quota_failure 0
           (stubEnv (failingGateway "You exceeded your current quota")
                    fallback true)
           standardConfig "Error" "You exceeded your current quota");
    reflexivity.
Defined.

(** X10.  One report, never a mix.  Whatever the Gateway and the user do
    and however often the run starts again, a report that
    [analyzeRepository] returns is made of the scanned files and is either
    the text that the Gateway generated, labelled with the model and tier
    of the configuration the run started with, or the basic analysis,
    labelled [fallback-analyzer]. *)
Theorem X10_report_is_ai_or_fallback fuel E :
  forall config w report w',
    analyzeRepository fuel E config w = Some (Returned report, w') ->
    (exists text n key,
        report = aiReport E config text /\
        gateway E n (withApiKey config key)
                (createAnalysisPrompt (scanned E) config)
        = Generated text) \/
    report = fallbackReport E.
Proof.
  induction fuel as [|fuel IH]; intros config w report w' H.
  - discriminate.
  - rewrite analyzeRepository_step in H.
    destruct (generateWithRetry E config _ defaultMaxRetries (log Scanned w))
      as [[text|thrown] w1] eqn:G.
    + injection H as <- <-. left.
      apply retryLoop_returned in G as [n G].
      exists text, n, (apiKey config). split; [reflexivity|].
      now destruct config.
    + destruct thrown as [?|name message|]; try discriminate.
      destruct (type (parseGeminiError message)); try discriminate.
      1, 2: unfold askMenu in H;
        destruct (menuAnswer E (menusAsked w1));
        [ injection H as <- <-; now right
        | destruct (countdown (waitTimeOf (parseGeminiError message)));
          [exact (IH _ _ _ _ H) | discriminate H]
        | discriminate H ].
      unfold askConfirm in H.
      destruct (confirmAnswer E (confirmsAsked w1)); [|discriminate].
      destruct (IH _ _ _ _ H) as [(text & n & key & -> & Hg) | ->];
        [left | now right].
      exists text, n, key. split; [reflexivity|]. exact Hg.
Qed.

Lemma X10_witness :
  exists report w',
    analyzeRepository 2 (stubEnv flakyGateway retry true) standardConfig
                      initialWorld = Some (Returned report, w') /\
    ((exists text n key,
         report = aiReport (stubEnv flakyGateway retry true) standardConfig
                           text /\
         gateway (stubEnv flakyGateway retry true) n
                 (withApiKey standardConfig key)
                 (createAnalysisPrompt [notesFile] standardConfig)
         = Generated text) \/
     report = fallbackReport (stubEnv flakyGateway retry true)).
Proof.
  destruct (analyzeRepository 2 (stubEnv flakyGateway retry true)
                              standardConfig initialWorld)
    as [[[report|thrown] w']|] eqn:H.
  - exists report, w'. split; [reflexivity|].
    exact (X10_report_is_ai_or_fallback _ _ _ _ _ _ H).
  - vm_compute in H. discriminate H.
  - vm_compute in H. discriminate H.
Defined.

Lemma createAnalysisPrompt_ignores_key (files : list FileInfo)
      (config : GeminiConfig) (key : string) :
  createAnalysisPrompt files (withApiKey config key)
  = createAnalysisPrompt files config.
Proof. reflexivity. Qed.

(** X11.  A new key.  When the first call fails with an error classified
    [invalid_key], the user agrees to enter a new key, and the Gateway
    answers the next call, made with that key, the run returns the report
    of this answer under the model of the configuration.  The second call
    carries the same prompt as the first: the key is no part of it. *)
Theorem X11_retry_with_new_key fuel E config name message text :
  let prompt := createAnalysisPrompt (scanned E) config in
  let newKey := passwordAnswer E 0 in
  gateway E 0 config prompt = Failed name message ->
  type (parseGeminiError message) = invalid_key ->
  confirmAnswer E 0 = true ->
  gateway E 1 (withApiKey config newKey) prompt = Generated text ->
  analyzeRepository (S (S fuel)) E config initialWorld =
  Some (Returned (aiReport E config text),
        {| gatewayCalls := 2;
           menusAsked := 0;
           confirmsAsked := 1;
           passwordsAsked := 1;
           trace := [Scanned; GatewayCalled prompt; ConfirmAsked true;
                     PasswordAsked; Scanned; GatewayCalled prompt] |}).
Proof.
  intros prompt newKey G1 Ht Hc G2.
  rewrite analyzeRepository_step.
  rewrite (generateWithRetry_first_failure _ _ _ _ name message);
    [|exact G1|rewrite Ht; discriminate].
  rewrite Ht. unfold askConfirm.
  cbn [confirmsAsked afterCall log initialWorld]. rewrite Hc.
  rewrite analyzeRepository_step.
  rewrite createAnalysisPrompt_ignores_key.
  unfold generateWithRetry, defaultMaxRetries. rewrite retryLoop_step.
  unfold askPassword.
  cbn [snd fst gatewayCalls passwordsAsked log afterCall initialWorld].
  fold prompt. fold newKey. rewrite G2. reflexivity.
Qed.

Lemma X11_witness :
  analyzeRepository 2 keyCheckingEnv standardConfig initialWorld =
  Some (Returned (aiReport keyCheckingEnv standardConfig "analysis"),
        {| gatewayCalls := 2;
           menusAsked := 0;
           confirmsAsked := 1;
           passwordsAsked := 1;
           trace :=
             [Scanned;
              GatewayCalled
                (createAnalysisPrompt (scanned keyCheckingEnv) standardConfig);
              ConfirmAsked true;
              PasswordAsked;
              Scanned;
              GatewayCalled
                (createAnalysisPrompt (scanned keyCheckingEnv) standardConfig)]
        |}).
Proof.
  exact (X11_retry_with_new_key 0 keyCheckingEnv standardConfig "Error"
           "[401] API_KEY invalid" "analysis"
           eq_refl eq_refl eq_refl eq_refl).
Defined.

(** X12.  The run starts again only when the user asks for it.  With a user
    who never picks the retry in the menu and never agrees to enter a new
    key, [analyzeRepository] ends in its first round whatever the Gateway
    does, after at most two Gateway calls and at most one question, and
    without asking for a key. *)
Theorem X12_one_round_without_retry E config w :
  (forall n, menuAnswer E n <> retry) ->
  (forall n, confirmAnswer E n = false) ->
  exists outcome w',
    analyzeRepository 1 E config w = Some (outcome, w') /\
    gatewayCalls w <= gatewayCalls w' <= gatewayCalls w + 2 /\
    menusAsked w' + confirmsAsked w' <= menusAsked w + confirmsAsked w + 1 /\
    passwordsAsked w' = passwordsAsked w.
Proof.
  intros Hmenu Hconfirm. rewrite analyzeRepository_step.
  destruct (wrapper_run_shape E config
              (createAnalysisPrompt (scanned E) config) defaultMaxRetries
              (log Scanned w)) as (calls & Hle & _ & Hw).
  unfold defaultMaxRetries in Hle.
  destruct (generateWithRetry E config _ defaultMaxRetries (log Scanned w))
    as [[text|thrown] w1].
  - cbn [snd] in Hw. subst w1. eexists; eexists. split; [reflexivity|].
    cbn. lia.
  - cbn [snd] in Hw. subst w1.
    destruct thrown as [?|name message|];
      try (eexists; eexists; split; [reflexivity|]; cbn; lia).
    destruct (type (parseGeminiError message));
      try (eexists; eexists; split; [reflexivity|]; cbn; lia).
    1, 2: unfold askMenu;
      destruct (menuAnswer E _) eqn:Hm;
      [ eexists; eexists; split; [reflexivity|]; cbn; lia
      | now elim (Hmenu _ Hm)
      | eexists; eexists; split; [reflexivity|]; cbn; lia ].
    unfold askConfirm. rewrite Hconfirm.
    eexists; eexists. split; [reflexivity|]. cbn. lia.
Qed.

Lemma X12_witness :
  exists outcome w',
    analyzeRepository 1 (stubEnv flakyGateway fallback false) standardConfig
                      initialWorld = Some (outcome, w') /\
    0 <= gatewayCalls w' <= 0 + 2 /\
    menusAsked w' + confirmsAsked w' <= 0 + 0 + 1 /\
    passwordsAsked w' = 0.
Proof.
  apply (X12_one_round_without_retry (stubEnv flakyGateway fallback false)
                                     standardConfig initialWorld).
  - intros n. discriminate.
  - reflexivity.
Defined.

(** What the classifier reads as a delay is read by [parseInt10]. *)
Lemma retryAfter_parsed (m : string) (n : JsNumber) :
  retryAfter (parseGeminiError m) = Some n -> exists cap, n = parseInt10 cap.
Proof.
  unfold parseGeminiError.
  destruct (_ || _).
  - unfold parseQuotaError.
    destruct (Regex.retryDelay_match m) as [cap|]; [|discriminate].
    cbn [retryAfter]. intros [= <-]. now exists cap.
  - repeat match goal with
           | |- context [if ?c then _ else _] => destruct c
           end; discriminate.
Qed.

Lemma waitTimeOf_countdownFor (info : GeminiErrorInfo) :
  waitTimeOf info = countdownFor (retryAfter info).
Proof.
  unfold waitTimeOf, countdownFor.
  destruct (retryAfter info) as [[|z|negative]|]; try reflexivity.
  unfold Number.truthy. now destruct z.
Qed.

(** X13.  Wait and retry.  When the wrapper fails with a quota or rate-limit
    error and the user picks the retry, the wait is the delay that the
    classifier read from the message, or 60 seconds when it read none or
    read 0.  The run counts it down, one second a round, and starts again
    with the same configuration: for a wait of up to 2^53 seconds after as
    many rounds, never none.  A countdown from above 2^53 + 2, where
    subtracting 1 no longer changes the counter, does not end, and neither
    does the run. *)
Theorem X13_wait_and_retry fuel E config w name message w1 :
  generateWithRetry E config (createAnalysisPrompt (scanned E) config)
                    defaultMaxRetries (log Scanned w)
  = (Threw (PlainError name message), w1) ->
  menuKind (type (parseGeminiError message)) = true ->
  menuAnswer E (menusAsked w1) = retry ->
  let waitTime := countdownFor (retryAfter (parseGeminiError message)) in
  analyzeRepository (S fuel) E config w =
  match countdown waitTime with
  | Some seconds =>
      analyzeRepository fuel E config
        (log (CountedDown seconds) (snd (askMenu E w1)))
  | None => None
  end /\
  (forall n, waitTime = Num (Z.of_N n) -> (n <= 2 ^ 53)%N ->
             analyzeRepository (S fuel) E config w =
             analyzeRepository fuel E config
               (log (CountedDown n) (snd (askMenu E w1))) /\
             (1 <= n)%N) /\
  (forall seconds, countdown waitTime = Some seconds -> (1 <= seconds)%N) /\
  (forall z, waitTime = Num z -> (2 ^ 53 + 2 < z)%Z ->
             analyzeRepository (S fuel) E config w = None) /\
  (waitTime = Infinity false -> analyzeRepository (S fuel) E config w = None).
Proof.
  intros G Hk Hm waitTime.
  assert (Step : analyzeRepository (S fuel) E config w =
                 match countdown waitTime with
                 | Some seconds =>
                     analyzeRepository fuel E config
                       (log (CountedDown seconds) (snd (askMenu E w1)))
                 | None => None
                 end).
  { rewrite analyzeRepository_step, G. unfold askMenu. rewrite Hm.
    cbn [snd]. rewrite waitTimeOf_countdownFor. fold waitTime.
    now destruct (type (parseGeminiError message)). }
  assert (Positive : waitTime = Infinity false \/
                     exists z, waitTime = Num z /\ (1 <= z)%Z).
  { subst waitTime. unfold countdownFor.
    destruct (retryAfter (parseGeminiError message)) as [n|] eqn:R;
      [|right; exists 60%Z; split; [reflexivity | lia]].
    destruct (retryAfter_parsed _ _ R) as [cap ->].
    destruct (parseInt10_not_negative cap)
      as [-> | [(z & -> & Hz) | ->]].
    - right. exists 60%Z. split; [reflexivity | lia].
    - right. destruct z as [|p|p]; [| |lia].
      + exists 60%Z. split; [reflexivity | lia].
      + exists (Z.pos p). split; [reflexivity | lia].
    - now left. }
  change (2 ^ 53)%Z with 9007199254740992%Z.
  change (2 ^ 53)%N with 9007199254740992%N.
  split; [exact Step|]. split; [|split; [|split]].
  - intros n Hn Hle. rewrite Step, Hn.
    destruct Positive as [Hinf | (z & Hz & Hpos)];
      [rewrite Hinf in Hn; discriminate Hn|].
    rewrite Hz in Hn. injection Hn as ->.
    unfold countdown. change (2 ^ 53)%Z with 9007199254740992%Z.
    destruct (Z.leb_spec (Z.of_N n) 0); [lia|].
    destruct (Z.leb_spec (Z.of_N n) 9007199254740992); [|lia].
    rewrite N2Z.id. split; [reflexivity | lia].
  - intros seconds Hs.
    destruct Positive as [Hinf | (z & Hz & Hpos)];
      [rewrite Hinf in Hs; discriminate Hs|].
    rewrite Hz in Hs. unfold countdown in Hs.
    change (2 ^ 53)%Z with 9007199254740992%Z in Hs.
    destruct (Z.leb_spec z 0); [lia|].
    destruct (Z.leb_spec z 9007199254740992);
      [injection Hs as <-; lia|].
    destruct (Z.eqb_spec z (9007199254740992 + 2));
      [injection Hs as <-; change (2 ^ 53)%N with 9007199254740992%N; lia
      | discriminate Hs].
  - intros z Hz Hbig. rewrite Step, Hz. unfold countdown.
    change (2 ^ 53)%Z with 9007199254740992%Z.
    destruct (Z.leb_spec z 0); [lia|].
    destruct (Z.leb_spec z 9007199254740992); [lia|].
    destruct (Z.eqb_spec z (9007199254740992 + 2)); [lia | reflexivity].
  - intros Hinf. now rewrite Step, Hinf.
Qed.

Lemma X13_witness :
  let E := stubEnv (failingGateway
                      "You exceeded your current quota, retryDelay:17s")
                   retry true in
  analyzeRepository 2 E standardConfig initialWorld =
  analyzeRepository 1 E standardConfig
    (log (CountedDown 17)
         (snd (askMenu E
                 (afterCall (createAnalysisPrompt [notesFile] standardConfig)
                            (log Scanned initialWorld))))) /\
  (1 <= 17)%N.
Proof.
  cbv zeta.
  apply (proj1 (proj2 (X13_wait_and_retry 1
           (stubEnv (failingGateway
                       "You exceeded your current quota, retryDelay:17s")
                    retry true)
           standardConfig initialWorld "Error"
           "You exceeded your current quota, retryDelay:17s"
           (afterCall (createAnalysisPrompt [notesFile] standardConfig)
                      (log Scanned initialWorld))
           eq_refl eq_refl eq_refl)) 17%N).
  - reflexivity.
  - vm_compute. discriminate.
Defined.

(** A run that is told to wait longer than a double can count down never
    returns, whatever the fuel. *)
Example endless_countdown (fuel : nat) :
  analyzeRepository (S fuel)
    (stubEnv (failingGateway
                "You exceeded your current quota, retryDelay:9007199254740996s")
             retry true)
    standardConfig initialWorld = None.
Proof. rewrite analyzeRepository_step. reflexivity. Qed.

(** ** The prompt builder, further *)

(** A slice is a head of the string, or such a head and the first half
    of the surrogate pair of the character that follows it. *)
Lemma slice0_prefix (n : nat) (s : string) :
  exists kept dropped,
    s = kept ++ dropped /\
    (slice0 n s = kept \/
     exists lead rest,
       dropped = String lead rest /\ code_units lead = 2 /\
       slice0 n s = kept ++ high_surrogate lead rest).
Proof.
  revert n; induction s as [|c s IH]; intros n.
  - exists "", "". split; [reflexivity | now left].
  - assert (Lift : forall m,
               exists kept dropped,
                 String c s = kept ++ dropped /\
                 (String c (slice0 m s) = kept \/
                  exists lead rest,
                    dropped = String lead rest /\ code_units lead = 2 /\
                    String c (slice0 m s) = kept ++ high_surrogate lead rest)).
    { intros m. destruct (IH m) as (kept & dropped & E & H).
      exists (String c kept), dropped. split; [cbn; now rewrite <- E|].
      destruct H as [-> | (lead & rest & Hd & Hu & ->)];
        [now left | right; now exists lead, rest]. }
    assert (Stop : exists kept dropped,
               String c s = kept ++ dropped /\
               ("" = kept \/
                exists lead rest,
                  dropped = String lead rest /\ code_units lead = 2 /\
                  "" = kept ++ high_surrogate lead rest)).
    { exists "", (String c s). split; [reflexivity | now left]. }
    cbn [slice0].
    destruct (code_units_cases c) as [E|[E|E]]; rewrite E.
    + apply Lift.
    + destruct n as [|n]; [exact Stop | apply Lift].
    + destruct n as [|[|n]]; [exact Stop | | apply Lift].
      exists "", (String c s). split; [reflexivity|]. right.
      now exists c, s.
Qed.

Lemma slice0_all (n : nat) (s : string) :
  utf16_length s <= n -> slice0 n s = s.
Proof.
  revert n; induction s as [|c s IH]; intros n; cbn [slice0 utf16_length];
    [reflexivity|].
  destruct (code_units_cases c) as [E|[E|E]]; rewrite E; intros H.
  - now rewrite IH.
  - destruct n as [|n]; [lia|]. rewrite IH; [reflexivity | lia].
  - destruct n as [|[|n]]; [lia | lia |]. rewrite IH; [reflexivity | lia].
Qed.

(** X14.  What a file block shows.  The content of a block has the
    characters (UTF-16 code units) that the cap allows, or all that the
    file has; it is a head of the content of the file, followed by the
    first half of a surrogate pair when the cut falls between the two
    halves; and a file within the cap is shown whole and without the
    truncation marker. *)
Theorem X14_block_shows_head_of_file files config b :
  In b (promptBlocks files config) ->
  utf16_length (block_content b)
  = Nat.min (maxContentLength config)
            (utf16_length (content (block_file b))) /\
  (exists kept dropped,
      content (block_file b) = kept ++ dropped /\
      (block_content b = kept \/
       exists lead rest,
         dropped = String lead rest /\ code_units lead = 2 /\
         block_content b = kept ++ high_surrogate lead rest)) /\
  (utf16_length (content (block_file b)) <= maxContentLength config ->
   block_content b = content (block_file b) /\
   block_truncated b = "" /\
   renderBlock b =
   "File: " ++ path (block_file b) ++ newline ++ "Content:" ++ newline
   ++ content (block_file b) ++ newline ++ "---" ++ newline).
Proof.
  intros Hb. destruct (promptBlocks_in _ _ _ Hb) as (E & _ & _).
  rewrite E. cbn [makeBlock block_file block_content block_truncated].
  split; [apply slice0_length_min|]. split; [apply slice0_prefix|].
  intros Hle.
  assert (Hn : (maxContentLength config
                <? utf16_length (content (block_file b)))%nat = false)
    by (apply Nat.ltb_ge; exact Hle).
  split; [now apply slice0_all|]. split; [now rewrite Hn|].
  unfold renderBlock.
  cbn [makeBlock block_file block_content block_truncated].
  now rewrite Hn, slice0_all.
Qed.

Lemma X14_witness :
  block_content (makeBlock standardConfig notesFile) = content notesFile /\
  block_truncated (makeBlock standardConfig notesFile) = "" /\
  renderBlock (makeBlock standardConfig notesFile) =
  "File: " ++ path notesFile ++ newline ++ "Content:" ++ newline
  ++ content notesFile ++ newline ++ "---" ++ newline.
Proof.
  apply (proj2 (proj2 (X14_block_shows_head_of_file
                         [notesFile] standardConfig
                         (makeBlock standardConfig notesFile)
                         (or_introl eq_refl)))).
  vm_compute. lia.
Defined.

Lemma filter_all_true {A : Type} (p : A -> bool) (l : list A) :
  Forall (fun x => p x = true) l -> filter p l = l.
Proof.
  induction 1 as [|x l Hx _ IH]; cbn; [reflexivity|].
  now rewrite Hx, IH.
Qed.

(** X15.  The prompt never shows more file blocks than the number that its
    header announces, the minimum of the cap and the number of files; it
    shows exactly that many when every file is smaller than 30 000 bytes. *)
Theorem X15_blocks_and_header files config :
  List.length (promptBlocks files config)
  <= Nat.min (maxFiles config) (List.length files) /\
  (Forall (fun f => (size f < 30000)%N) files ->
   List.length (promptBlocks files config)
   = Nat.min (maxFiles config) (List.length files)).
Proof.
  unfold promptBlocks. rewrite length_map, length_firstn. split.
  - pose proof (filter_length_le (fun f => (size f <? 30000)%N) files). lia.
  - intros H. rewrite filter_all_true; [reflexivity|].
    eapply Forall_impl; [|exact H]. intros f Hf. now apply N.ltb_lt.
Qed.

Lemma X15_witness :
  List.length (promptBlocks [notesFile; readmeFile] standardConfig)
  = Nat.min (maxFiles standardConfig) 2.
Proof.
  apply (proj2 (X15_blocks_and_header [notesFile; readmeFile] standardConfig)).
  repeat constructor.
Defined.

Lemma endsWith_app (a s : string) : endsWith (a ++ s) s = true.
Proof.
  induction a as [|c a IH]; cbn [append].
  - destruct s; cbn [endsWith]; now rewrite String.eqb_refl.
  - cbn [endsWith]. rewrite IH. apply orb_true_r.
Qed.

(** X16.  The instructions of the prompt and the generation parameters go
    together: in the enhanced mode (advanced tier with the advanced
    features on) the prompt ends with the enhanced instructions and the
    request allows 8192 output tokens; otherwise, also for an advanced
    model with the features off, it ends with the concise instruction and
    the request allows 2048.  The prompt does not depend on the API key or
    on the name of the model. *)
Theorem X16_prompt_mode_matches_generation files config :
  (if usesEnhancedMode config
   then endsWith (createAnalysisPrompt files config) enhancedInstructions
        = true /\
        maxOutputTokens (getGenerationConfig config) = 8192%N
   else endsWith (createAnalysisPrompt files config) conciseInstruction
        = true /\
        maxOutputTokens (getGenerationConfig config) = 2048%N) /\
  (forall name key,
      createAnalysisPrompt files
        {| model := name; apiKey := key; modelType := modelType config;
           enableAdvancedFeatures := enableAdvancedFeatures config |}
      = createAnalysisPrompt files config).
Proof.
  split; [|reflexivity].
  unfold usesEnhancedMode, getGenerationConfig, createAnalysisPrompt.
  destruct (modelType config), (enableAdvancedFeatures config);
    (split; [|reflexivity]); cbv zeta;
    match goal with
    | |- endsWith (?body ++ ?tail) _ = true => exact (endsWith_app body tail)
    end.
Qed.

(** ** The quota estimator, further *)

Lemma totalChars_bound (files : list FileInfo) :
  (totalChars files <= 2000 * N.of_nat (List.length files))%N.
Proof.
  induction files as [|f files IH]; [cbn; lia|].
  rewrite totalChars_cons. cbn [List.length]. lia.
Qed.

Lemma totalChars_perm (l l' : list FileInfo) :
  Permutation l l' -> totalChars l = totalChars l'.
Proof.
  induction 1; rewrite ?totalChars_cons; lia.
Qed.

Lemma ceil_div_4_exact (q : N) : ceil_div (q * 4) 4 = q.
Proof.
  rewrite ceil_div_4, N.Div0.mod_mul, N.div_mul by discriminate.
  reflexivity.
Qed.

(** X17.  The estimate lies between 250 and 250 plus 500 tokens per file,
    and does not depend on the order of the files.  So the warning of
    [checkQuotaLimits] about a high token usage is only ever printed for 64
    files or more. *)
Theorem X17_estimate_bounds files :
  (250 <= estimateTokenUsage files
   <= 250 + 500 * N.of_nat (List.length files))%N /\
  (forall files', Permutation files files' ->
                  estimateTokenUsage files = estimateTokenUsage files') /\
  (checkQuotaLimits files = true -> 64 <= List.length files).
Proof.
  assert (B : (250 <= estimateTokenUsage files
               <= 250 + 500 * N.of_nat (List.length files))%N).
  { unfold estimateTokenUsage, promptOverhead. split.
    - rewrite <- (ceil_div_4_exact 250). apply ceil_div_4_mono. lia.
    - rewrite <- (ceil_div_4_exact (250 + 500 * N.of_nat (List.length files))).
      apply ceil_div_4_mono. pose proof (totalChars_bound files). lia. }
  split; [exact B|]. split.
  - intros files' H. unfold estimateTokenUsage.
    now rewrite (totalChars_perm _ _ H).
  - unfold checkQuotaLimits, tokensPerMinute. intros H.
    apply N.ltb_lt in H. lia.
Qed.

Lemma X17_witness :
  estimateTokenUsage [notesFile; readmeFile]
  = estimateTokenUsage [readmeFile; notesFile].
Proof.
  apply (proj1 (proj2 (X17_estimate_bounds [notesFile; readmeFile]))).
  apply perm_swap.
Defined.

(** ** The scanner, further *)

Lemma scanStep_cases (files : list FileInfo) (e : DirEntry) :
  scanStep files e = files \/
  exists text,
    entry_text e = Some text /\
    (entry_size e <= 1024 * 1024)%N /\
    (isImportant e = true \/ List.length files < 50) /\
    scanStep files e = (files ++ [fileOfEntry e text])%list.
Proof.
  unfold scanStep.
  destruct (N.ltb_spec (1024 * 1024) (entry_size e)) as [|Hs]; [now left|].
  destruct (isImportant e) eqn:Hi; cbn [orb].
  - destruct (entry_text e) as [text|]; [|now left].
    right. exists text. auto.
  - destruct (Nat.ltb_spec (List.length files) 50) as [Hl|]; [|now left].
    destruct (entry_text e) as [text|]; [|now left].
    right. exists text. auto.
Qed.

Lemma scanStep_adds (files : list FileInfo) (e : DirEntry) (text : string) :
  (entry_size e <= 1024 * 1024)%N ->
  entry_text e = Some text ->
  isImportant e = true \/ List.length files < 50 ->
  scanStep files e = (files ++ [fileOfEntry e text])%list.
Proof.
  intros Hs Ht Hc. unfold scanStep.
  destruct (N.ltb_spec (1024 * 1024) (entry_size e)) as [Hbig|_]; [lia|].
  assert (H : isImportant e || (List.length files <? 50)%nat = true).
  { destruct Hc as [-> | Hl]; [reflexivity|].
    apply Nat.ltb_lt in Hl. rewrite Hl. apply orb_true_r. }
  now rewrite H, Ht.
Qed.

Lemma scan_loop_keeps (entries : list DirEntry) :
  forall files f,
    In f files -> In f (fold_left scanStep entries files).
Proof.
  induction entries as [|e entries IH]; intros files f Hin; [exact Hin|].
  cbn [fold_left]. apply IH.
  destruct (scanStep_cases files e) as [-> | (text & _ & _ & _ & ->)];
    [exact Hin | apply in_or_app; now left].
Qed.

Lemma scan_loop_length (entries : list DirEntry) :
  forall files,
    List.length (fold_left scanStep entries files)
    <= List.length files + List.length entries.
Proof.
  induction entries as [|e entries IH]; intros files; cbn [fold_left].
  - cbn. lia.
  - specialize (IH (scanStep files e)). cbn [List.length].
    destruct (scanStep_cases files e) as [E | (text & _ & _ & _ & E)];
      rewrite E in IH |- *; [lia|].
    rewrite length_app in IH. cbn in IH. lia.
Qed.

Lemma scan_loop_origin (entries : list DirEntry) :
  forall files f,
    In f (fold_left scanStep entries files) ->
    In f files \/
    exists e, In e entries /\
              entry_text e = Some (content f) /\
              f = fileOfEntry e (content f) /\
              (entry_size e <= 1024 * 1024)%N.
Proof.
  induction entries as [|e entries IH]; intros files f H; [now left|].
  cbn [fold_left] in H. destruct (IH _ _ H) as [Hin | (e' & He' & Hrest)].
  - destruct (scanStep_cases files e) as [E | (text & Ht & Hs & _ & E)];
      rewrite E in Hin; [now left|].
    apply in_app_or in Hin as [Hin | [<- | []]]; [now left|].
    right. exists e. cbn [fileOfEntry content]. repeat split; auto.
    now left.
  - right. exists e'. split; [now right | exact Hrest].
Qed.

Lemma scanRepository_in (allFiles : list DirEntry) (f : FileInfo) :
  In f (scanRepository allFiles) <-> In f (fold_left scanStep allFiles []).
Proof.
  destruct (scanRepository_sorted allFiles) as [_ P]. split; intros H.
  - eapply Permutation_in; [apply Permutation_sym, P | exact H].
  - eapply Permutation_in; [exact P | exact H].
Qed.

(** X18.  Where the scanned files come from.  Every file of the result
    records one entry of the directory as it is: its path, its size, its
    extension and the text that was read for it; and its size is at most
    1 MiB.  An entry that is larger or cannot be read as text is in no
    result. *)
Theorem X18_scanned_files_come_from_entries allFiles f :
  In f (scanRepository allFiles) ->
  (size f <= 1024 * 1024)%N /\
  exists e, In e allFiles /\
            entry_text e = Some (content f) /\
            f = fileOfEntry e (content f).
Proof.
  intros H. apply scanRepository_in in H.
  destruct (scan_loop_origin _ _ _ H) as [[] | (e & He & Ht & Hf & Hs)].
  split; [rewrite Hf; exact Hs | eauto].
Qed.

Lemma X18_witness :
  (size notesFile <= 1024 * 1024)%N /\
  exists e, In e [readmeEntry; notesEntry] /\
            entry_text e = Some (content notesFile) /\
            notesFile = fileOfEntry e (content notesFile).
Proof.
  apply (X18_scanned_files_come_from_entries [readmeEntry; notesEntry]).
  vm_compute. auto.
Defined.

(** X19.  What the scanner is sure to include.  An entry of at most 1 MiB
    whose text can be read is in the result when the loop takes it for
    important, however many files came before it, and also when fewer than
    50 entries come before it in the listing. *)
Theorem X19_scanner_includes before e after text :
  (entry_size e <= 1024 * 1024)%N ->
  entry_text e = Some text ->
  isImportant e = true \/ List.length before < 50 ->
  In (fileOfEntry e text) (scanRepository (before ++ e :: after)).
Proof.
  intros Hs Ht Hc. apply scanRepository_in.
  rewrite fold_left_app. cbn [fold_left]. apply scan_loop_keeps.
  rewrite (scanStep_adds _ _ text Hs Ht).
  - apply in_or_app. right. now left.
  - destruct Hc as [Hi | Hl]; [now left|]. right.
    pose proof (scan_loop_length before []). cbn in H. lia.
Qed.

Lemma X19_witness :
  In (fileOfEntry readmeEntry "0123456789")
     (scanRepository ([notesEntry] ++ readmeEntry :: [])).
Proof.
  apply (X19_scanner_includes [notesEntry] readmeEntry [] "0123456789").
  - vm_compute. discriminate.
  - reflexivity.
  - left. reflexivity.
Defined.

Lemma filter_length_perm {A : Type} (p : A -> bool) (l l' : list A) :
  Permutation l l' ->
  List.length (filter p l) = List.length (filter p l').
Proof.
  induction 1 as [|x l l' _ IH|x y l|l l' l'' _ IH1 _ IH2]; cbn.
  - reflexivity.
  - destruct (p x); cbn; now rewrite IH.
  - destruct (p x), (p y); reflexivity.
  - now rewrite IH1.
Qed.

Lemma scan_loop_plain (entries : list DirEntry) :
  forall files,
    List.length (plainFiles files) <= 50 ->
    List.length (plainFiles (fold_left scanStep entries files)) <= 50.
Proof.
  induction entries as [|e entries IH]; intros files H; [exact H|].
  cbn [fold_left]. apply IH.
  destruct (scanStep_cases files e) as [-> | (text & _ & _ & Hc & ->)];
    [exact H|].
  unfold plainFiles in *. rewrite filter_app, length_app.
  cbn [filter]. change (fileIsImportant (fileOfEntry e text))
    with (isImportant e).
  destruct (isImportant e) eqn:Hi; cbn [negb List.length]; [lia|].
  destruct Hc as [Hc | Hl]; [discriminate|].
  pose proof (filter_length_le (fun f => negb (fileIsImportant f)) files).
  lia.
Qed.

(** X20.  The cap of the scanner.  However large the directory, the result
    holds at most 50 files that the loop did not take for important; only
    important files can make the result longer than 50. *)
Theorem X20_at_most_50_plain_files allFiles :
  List.length (plainFiles (scanRepository allFiles)) <= 50 /\
  (50 < List.length (scanRepository allFiles) ->
   exists f, In f (scanRepository allFiles) /\ fileIsImportant f = true).
Proof.
  assert (H : List.length (plainFiles (scanRepository allFiles)) <= 50).
  { unfold plainFiles.
    rewrite <- (filter_length_perm _ _ _
                  (proj2 (scanRepository_sorted allFiles))).
    apply (scan_loop_plain allFiles []). cbn. lia. }
  split; [exact H|]. intros Hlen.
  destruct (existsb fileIsImportant (scanRepository allFiles)) eqn:Hex.
  - apply existsb_exists in Hex as (f & Hin & Hf). eauto.
  - exfalso. unfold plainFiles in H. rewrite filter_all_true in H; [lia|].
    apply Forall_forall. intros f Hin.
    destruct (fileIsImportant f) eqn:Hf; [|reflexivity].
    assert (Hc : existsb fileIsImportant (scanRepository allFiles) = true)
      by (apply existsb_exists; eauto).
    congruence.
Qed.

Lemma X20_witness :
  exists f,
    In f (scanRepository
            (repeat (mkEntry "src/a.ts" 1 ".ts" (Some "x")) 51)) /\
    fileIsImportant f = true.
Proof.
  apply (proj2 (X20_at_most_50_plain_files
                  (repeat (mkEntry "src/a.ts" 1 ".ts" (Some "x")) 51))).
  apply Nat.ltb_lt. vm_compute. reflexivity.
Defined.

Lemma StronglySorted_before {A : Type} (R : A -> A -> Prop)
      (l1 l2 : list A) (a b : A) :
  StronglySorted R (l1 ++ a :: l2) -> In b l2 -> R a b.
Proof.
  induction l1 as [|x l1 IH]; cbn [app]; intros H Hb.
  - apply StronglySorted_inv in H as [_ H].
    rewrite Forall_forall in H. now apply H.
  - apply StronglySorted_inv in H as [H _]. now apply IH.
Qed.

(** X21.  The order of the result.  Of two files of the result, the one
    that stands first has an extension of the allow-list whenever the other
    has, and when both or neither have one it is not the larger of the
    two. *)
Theorem X21_scanner_order allFiles l1 a l2 b l3 :
  scanRepository allFiles = (l1 ++ a :: l2 ++ b :: l3)%list ->
  (hasImportantExtension (extension b) = true ->
   hasImportantExtension (extension a) = true) /\
  (hasImportantExtension (extension a) = hasImportantExtension (extension b) ->
   (size a <= size b)%N).
Proof.
  intros E. destruct (scanRepository_sorted allFiles) as [S _].
  rewrite E in S.
  assert (H : scanLe a b).
  { apply (StronglySorted_before _ _ _ _ _ S).
    apply in_or_app. right. now left. }
  unfold scanLe, leBy, scanCompare in H.
  destruct (hasImportantExtension (extension a)),
           (hasImportantExtension (extension b));
    cbn in H; split; intros; try reflexivity; try discriminate; lia.
Qed.

Lemma X21_witness :
  (hasImportantExtension (extension readmeFile) = true ->
   hasImportantExtension (extension notesFile) = true) /\
  (hasImportantExtension (extension notesFile)
   = hasImportantExtension (extension readmeFile) ->
   (size notesFile <= size readmeFile)%N).
Proof.
  apply (X21_scanner_order [readmeEntry; notesEntry] [] notesFile []
                           readmeFile []).
  reflexivity.
Defined.

(** ** The fallback analyzer, further *)

(** X22.  The technology list is the recognition table read in order: it
    holds, in the order of the table, the labels whose test some file
    passes.  So it has no label twice and at most seven labels. *)
Theorem X22_tech_stack_reads_the_table files :
  detectTechStack files
  = map fst (filter (fun entry => anyFile files (snd entry)) techTable) /\
  NoDup (detectTechStack files) /\
  List.length (detectTechStack files) <= 7.
Proof.
  assert (E : detectTechStack files
              = map fst (filter (fun entry => anyFile files (snd entry))
                                techTable)).
  { unfold detectTechStack, detect, push_if, techTable, anyFile.
    cbn [filter snd].
    repeat match goal with
           | |- context [existsb ?t files] =>
               let b := fresh "b" in
               generalize (existsb t files); intros b
           end.
    repeat match goal with b : bool |- _ => destruct b end; reflexivity. }
  split; [exact E|]. rewrite E. split.
  - unfold techTable. cbn [filter snd].
    repeat match goal with
           | |- context [anyFile files ?t] =>
               let b := fresh "b" in
               generalize (anyFile files t); intros b
           end.
    repeat match goal with b : bool |- _ => destruct b end;
      cbn [map fst];
      repeat (constructor;
              [cbn [In]; intros H;
               repeat (destruct H as [H|H]; [discriminate H|]); exact H|]);
      constructor.
  - rewrite length_map.
    pose proof (filter_length_le (fun entry => anyFile files (snd entry))
                                 techTable) as H.
    exact H.
Qed.

(** X23.  The project type is decided by the first test that some file
    passes, in this order: a path with next.config; an extension .tsx or
    .jsx; a path with package.json; an extension .py; an extension .go.
    It is [software] exactly when no file passes any of them: TypeScript
    and Tailwind alone do not name a project type. *)
Theorem X23_project_type_priority files :
  let next := anyFile files (fun f => includes (path f) "next.config") in
  let react := anyFile files (fun f => String.eqb (extension f) ".tsx"
                                       || String.eqb (extension f) ".jsx") in
  let node := anyFile files (fun f => includes (path f) "package.json") in
  let python := anyFile files (fun f => String.eqb (extension f) ".py") in
  let go := anyFile files (fun f => String.eqb (extension f) ".go") in
  basic_projectType (generateBasicAnalysis files) =
  (if next then "Next.js web application"
   else if react then "React application"
   else if node then "Node.js application"
   else if python then "Python application"
   else if go then "Go application"
   else "software") /\
  (basic_projectType (generateBasicAnalysis files) = "software" <->
   next || react || node || python || go = false).
Proof.
  cbv zeta.
  cbn [generateBasicAnalysis basic_projectType].
  unfold guessProjectType, stackIncludes, detectTechStack, detect, push_if,
    anyFile.
  repeat match goal with
         | |- context [existsb ?t files] =>
             let b := fresh "b" in
             generalize (existsb t files); intros b
         end.
  repeat match goal with b : bool |- _ => destruct b end;
    (split; [reflexivity|]); split; intros H;
    first [reflexivity | discriminate H].
Qed.

Lemma X23_witness :
  basic_projectType
    (generateBasicAnalysis [mkFile "src/util.ts" "export {}" 9 ".ts";
                            mkFile "tailwind.css" "" 0 ".css"])
  = "software".
Proof.
  apply (proj2 (X23_project_type_priority _)). reflexivity.
Defined.

Lemma totalLines_from (files : list FileInfo) (acc : N) :
  fold_left (fun sum file => (sum + split_count "010"%char (content file))%N)
            files acc
  = (acc + totalLines files)%N.
Proof.
  unfold totalLines. revert acc.
  induction files as [|f files IH]; intros acc; cbn [fold_left].
  - lia.
  - rewrite IH, (IH (0 + _)%N). lia.
Qed.

Lemma split_count_split_on (sep : ascii) (s : string) :
  split_count sep s = N.of_nat (List.length (split_on sep s)) /\
  split_on sep s <> [].
Proof.
  induction s as [|c s [IH Hne]]; cbn [split_count split_on].
  - split; [reflexivity | discriminate].
  - destruct (Ascii.eqb c sep).
    + split; [|discriminate]. rewrite IH. cbn [List.length]. lia.
    + destruct (split_on sep s) as [|x xs]; [now elim Hne|].
      split; [|discriminate]. rewrite IH. cbn [List.length]. lia.
Qed.

(** X24.  The line count.  The count of a file is the length of the array
    that [split] gives for its content, one more than its number of line
    feeds, so an empty file counts one line; the total is the sum over the
    files and is at least their number. *)
Theorem X24_total_lines files :
  (forall s, split_count "010"%char s
             = N.of_nat (List.length (split_on "010"%char s)) /\
             (1 <= split_count "010"%char s)%N) /\
  (forall more, totalLines (files ++ more)
                = (totalLines files + totalLines more)%N) /\
  (N.of_nat (List.length files) <= totalLines files)%N.
Proof.
  assert (S1 : forall s, split_count "010"%char s
                         = N.of_nat (List.length (split_on "010"%char s)) /\
                         (1 <= split_count "010"%char s)%N).
  { intros s. destruct (split_count_split_on "010"%char s) as [E Hne].
    split; [exact E|]. rewrite E.
    destruct (split_on "010"%char s); [now elim Hne | cbn; lia]. }
  split; [exact S1|]. split.
  - intros more. unfold totalLines at 1. rewrite fold_left_app.
    fold (totalLines files). apply totalLines_from.
  - induction files as [|f files IH]; [cbn; lia|].
    unfold totalLines. cbn [fold_left]. rewrite totalLines_from.
    cbn [List.length]. destruct (S1 (content f)) as [_ H1]. lia.
Qed.

(** ** Ports *)

Lemma findPortLoop_some (available : N -> bool) :
  forall remaining port p,
    findPortLoop available remaining port = Some p <->
    (port <= p < port + N.of_nat remaining)%N /\
    available p = true /\
    (forall q, (port <= q < p)%N -> available q = false).
Proof.
  induction remaining as [|remaining IH]; intros port p;
    cbn [findPortLoop].
  - split; [discriminate | lia].
  - destruct (available port) eqn:A.
    + split.
      * intros [= <-]. split; [lia|]. split; [exact A|]. lia.
      * intros (Hr & Hp & Hq). f_equal.
        destruct (N.eq_dec port p) as [|Hne]; [assumption|].
        rewrite (Hq port) in A; [discriminate | lia].
    + rewrite IH. split.
      * intros (Hr & Hp & Hq). split; [lia|]. split; [exact Hp|].
        intros q Hq'. destruct (N.eq_dec q port) as [->|]; [exact A|].
        apply Hq. lia.
      * intros (Hr & Hp & Hq).
        assert (port <> p) by (intros ->; congruence).
        split; [lia|]. split; [exact Hp|]. intros q Hq'. apply Hq. lia.
Qed.

Lemma findPortLoop_none (available : N -> bool) :
  forall remaining port,
    findPortLoop available remaining port = None <->
    (forall q, (port <= q < port + N.of_nat remaining)%N ->
               available q = false).
Proof.
  induction remaining as [|remaining IH]; intros port; cbn [findPortLoop].
  - split; [lia | reflexivity].
  - destruct (available port) eqn:A.
    + split; [discriminate|]. intros H. rewrite (H port) in A;
        [discriminate | lia].
    + rewrite IH. split; intros H q Hq.
      * destruct (N.eq_dec q port) as [->|]; [exact A | apply H; lia].
      * apply H. lia.
Qed.

Lemma findAvailablePort_spec available startPort maxAttempts :
  (forall p,
      findAvailablePort available startPort maxAttempts = Returned p <->
      (startPort <= p < startPort + maxAttempts)%N /\
      available p = true /\
      (forall q, (startPort <= q < p)%N -> available q = false)) /\
  ((exists error,
       findAvailablePort available startPort maxAttempts = Threw error) <->
   (forall q, (startPort <= q < startPort + maxAttempts)%N ->
              available q = false)).
Proof.
  unfold findAvailablePort. split.
  - intros p.
    destruct (findPortLoop available (N.to_nat maxAttempts) startPort)
      as [found|] eqn:F.
    + apply findPortLoop_some in F. rewrite N2Nat.id in F.
      split.
      * intros [= <-]. exact F.
      * intros H. f_equal.
        assert (F' : findPortLoop available (N.to_nat maxAttempts) startPort
                     = Some p)
          by (apply findPortLoop_some; now rewrite N2Nat.id).
        assert (F'' : findPortLoop available (N.to_nat maxAttempts) startPort
                      = Some found)
          by (apply findPortLoop_some; now rewrite N2Nat.id).
        congruence.
    + split; [discriminate|]. intros (Hr & Hp & _).
      rewrite findPortLoop_none, N2Nat.id in F.
      rewrite (F p Hr) in Hp. discriminate.
  - destruct (findPortLoop available (N.to_nat maxAttempts) startPort)
      as [found|] eqn:F.
    + apply findPortLoop_some in F. rewrite N2Nat.id in F.
      destruct F as (Hr & Hp & _). split.
      * intros [error H]. discriminate.
      * intros H. rewrite (H found Hr) in Hp. discriminate.
    + rewrite findPortLoop_none, N2Nat.id in F. split; [|eauto].
      intros _. exact F.
Qed.

(** X25.  [findAvailablePort] returns the lowest available port of the
    range from [startPort] to [startPort + maxAttempts - 1], and throws
    exactly when no port of the range is available. *)
Theorem X25_lowest_available_port available startPort maxAttempts :
  (forall p,
      findAvailablePort available startPort maxAttempts = Returned p <->
      (startPort <= p < startPort + maxAttempts)%N /\
      available p = true /\
      (forall q, (startPort <= q < p)%N -> available q = false)) /\
  ((exists error,
       findAvailablePort available startPort maxAttempts = Threw error) <->
   (forall q, (startPort <= q < startPort + maxAttempts)%N ->
              available q = false)).
Proof. apply findAvailablePort_spec. Qed.

Lemma X25_witness :
  findAvailablePort (fun p => (2003 <=? p)%N) 2001 10 = Returned 2003%N.
Proof.
  apply (proj1 (X25_lowest_available_port (fun p => (2003 <=? p)%N) 2001 10)).
  split; [lia|]. split; [reflexivity|].
  intros q Hq. apply N.leb_gt. lia.
Defined.

Lemma of_N_head (n : N) (rest : string) :
  exists c t, of_N n ++ rest = String c t /\ is_digit c = true.
Proof.
  destruct (of_N_digits n) as (_ & c & t & E & Hc).
  exists c, (t ++ rest). now rewrite E.
Qed.

(** A text that starts with neither white space nor a sign is read as it
    is. *)
Lemma parseInt_unsigned (c : ascii) (s : string) :
  white_rest (String c s) = None ->
  Ascii.eqb c "-" || Ascii.eqb c "+" = false ->
  parseInt (String c s) = parseInt10 (String c s).
Proof.
  intros Hw Hc. unfold parseInt. rewrite (trimStart_stop _ Hw).
  generalize parseInt10 as read. intros read.
  revert Hc. ascii_cases c; cbn; intros Hc;
    first [discriminate Hc | reflexivity].
Qed.

Lemma digit_not_sign (c : ascii) :
  is_digit c = true -> Ascii.eqb c "-" || Ascii.eqb c "+" = false.
Proof. ascii_cases c; vm_compute; intros H; first [discriminate H | reflexivity]. Qed.

(** Reading a rendered number behind white space and in front of anything
    that is no digit gives the Number value of the number. *)
Lemma parseInt_of_N (spaces rest : string) (n : N) :
  all_white spaces = true ->
  head_fails is_digit rest = true ->
  parseInt (spaces ++ of_N n ++ rest) = Number.of_N n.
Proof.
  intros Hs Hr.
  assert (Skip : parseInt (spaces ++ of_N n ++ rest)
                 = parseInt (of_N n ++ rest)).
  { unfold parseInt. now rewrite (trimStart_spaces _ _ Hs). }
  rewrite Skip, <- (parseInt10_of_N n rest Hr).
  destruct (of_N_head n rest) as (c & t & -> & Hc).
  apply parseInt_unsigned;
    [now apply digit_not_white | now apply digit_not_sign].
Qed.

(** A number above the range of the ports stays above it as a double. *)
Lemma of_N_above (n : N) :
  (65535 < n)%N -> Number.ltb (Num 65535) (Number.of_N n) = true.
Proof.
  intros Hn.
  destruct (N.lt_ge_cases n (2 ^ 53)) as [Hsmall|Hbig].
  - rewrite (of_N_exact n Hsmall). cbn [Number.ltb]. apply Z.ltb_lt. lia.
  - change (2 ^ 53)%N with 9007199254740992%N in Hbig.
    assert (Hr : (9007199254740992 <= Number.round53 n)%N).
    { destruct (N.eq_dec n 9007199254740992) as [->|N0];
        [vm_compute; discriminate|].
      destruct (N.eq_dec n (9007199254740992 + 1)) as [->|N1];
        [vm_compute; discriminate|].
      destruct (N.eq_dec n (9007199254740992 + 2)) as [->|N2];
        [vm_compute; discriminate|].
      pose proof (round53_lower n) as H.
      change (2 ^ 53)%N with 9007199254740992%N in H. lia. }
    unfold Number.of_N. cbv zeta.
    destruct (_ <? _)%N; [|reflexivity].
    cbn [Number.ltb]. apply Z.ltb_lt. lia.
Qed.

(** X26.  The port check of the default command, as a function of the text
    that it gets as [options.port].  A port that it accepts is an integer
    from 1024 to 65535, the number that [Number.parseInt] reads from the
    text.  A text that renders such a number is accepted with that number,
    also behind white space (ASCII or not) and in front of any text that
    does not start with a digit; a text that renders a number outside the
    range, however large, is refused; and so is a text whose first
    character after white space is a minus sign. *)
Theorem X26_port_option :
  (forall value port,
      parsePortOption value = Some port ->
      exists p, port = Num (Z.of_N p) /\ (1024 <= p <= 65535)%N /\
                parseInt value = Num (Z.of_N p)) /\
  (forall spaces n rest,
      (1024 <= n <= 65535)%N ->
      all_white spaces = true ->
      head_fails is_digit rest = true ->
      parsePortOption (spaces ++ of_N n ++ rest) = Some (Num (Z.of_N n))) /\
  (forall spaces n rest,
      (n < 1024)%N \/ (65535 < n)%N ->
      all_white spaces = true ->
      head_fails is_digit rest = true ->
      parsePortOption (spaces ++ of_N n ++ rest) = None) /\
  (forall spaces rest,
      all_white spaces = true ->
      parsePortOption (spaces ++ String "-"%char rest) = None).
Proof.
  split; [|split; [|split]].
  - intros value port. unfold parsePortOption. cbv zeta.
    destruct (parseInt value) as [|z|negative]; cbn [Number.isNaN orb].
    + discriminate.
    + cbn [Number.ltb]. destruct (Z.ltb_spec z 1024); [discriminate|].
      destruct (Z.ltb_spec 65535 z); [discriminate|].
      cbn [orb]. intros [= <-]. exists (Z.to_N z).
      rewrite Z2N.id by lia. repeat split; lia.
    + destruct negative; discriminate.
  - intros spaces n rest Hn Hs Hr. unfold parsePortOption. cbv zeta.
    rewrite (parseInt_of_N _ _ _ Hs Hr).
    rewrite of_N_exact
      by (change (2 ^ 53)%N with 9007199254740992%N; lia).
    cbn [Number.isNaN Number.ltb orb].
    destruct (Z.ltb_spec (Z.of_N n) 1024); [lia|].
    destruct (Z.ltb_spec 65535 (Z.of_N n)); [lia|]. reflexivity.
  - intros spaces n rest Hn Hs Hr. unfold parsePortOption. cbv zeta.
    rewrite (parseInt_of_N _ _ _ Hs Hr).
    destruct Hn as [Hlow|Hhigh].
    + rewrite of_N_exact
        by (change (2 ^ 53)%N with 9007199254740992%N; lia).
      cbn [Number.isNaN Number.ltb orb].
      destruct (Z.ltb_spec (Z.of_N n) 1024); [reflexivity | lia].
    + rewrite (of_N_above n Hhigh). now rewrite orb_true_r.
  - intros spaces rest Hs. unfold parsePortOption, parseInt. cbv zeta.
    rewrite (trimStart_spaces _ _ Hs).
    rewrite trimStart_stop by (now apply white_rest_ascii).
    destruct (parseInt10_not_negative rest) as [-> | [(z & -> & Hz) | ->]].
    + reflexivity.
    + cbn [Number.negate Number.isNaN Number.ltb orb].
      destruct (Z.ltb_spec (- z) 1024); [reflexivity | lia].
    + reflexivity.
Qed.

Lemma X26_witness :
  parsePortOption
    (String (ascii_of_N 194) (String (ascii_of_N 160) " ")
     ++ of_N 3000 ++ "/tcp")
  = Some (Num 3000).
Proof.
  apply (proj1 (proj2 X26_port_option)
               (String (ascii_of_N 194) (String (ascii_of_N 160) " "))
               3000%N "/tcp").
  - lia.
  - reflexivity.
  - reflexivity.
Defined.

Lemma validateCustomPort_accepts (available : N -> bool) (input : string) :
  validateCustomPort available input = None ->
  exists z, parseInt input = Num z /\ (1024 <= z <= 65535)%Z /\
            available (Z.to_N z) = true.
Proof.
  unfold validateCustomPort. cbv zeta.
  destruct (parseInt input) as [|z|negative]; cbn [Number.isNaN orb].
  - discriminate.
  - cbn [Number.ltb portNumber].
    destruct (Z.ltb_spec z 1024); [discriminate|].
    destruct (Z.ltb_spec 65535 z); [discriminate|].
    cbn [orb]. destruct (available (Z.to_N z)) eqn:A; [|discriminate].
    intros _. exists z. repeat split; try lia. exact A.
  - destruct negative; discriminate.
Qed.

Lemma promptForCustomPort_valid (available : N -> bool)
      (inputs : nat -> string) :
  forall fuel asked port,
    promptForCustomPort available inputs fuel asked = Some port ->
    exists z, port = Num z /\ (1024 <= z <= 65535)%Z /\
              available (Z.to_N z) = true.
Proof.
  induction fuel as [|fuel IH]; intros asked port; cbn [promptForCustomPort].
  - discriminate.
  - destruct (validateCustomPort available (inputs asked)) eqn:V;
      [apply IH|].
    destruct (validateCustomPort_accepts _ _ V) as (z & -> & Hr & Ha).
    intros [= <-]. now exists z.
Qed.

Lemma getPortSuggestions_range (currentPort p : N) :
  In p (getPortSuggestions currentPort) ->
  (1024 <= p <= 65535)%N /\ p <> currentPort.
Proof.
  unfold getPortSuggestions. intros H. apply filter_In in H as [H Hne].
  apply negb_true_iff, N.eqb_neq in Hne. split; [|exact Hne].
  cbn [In] in H. repeat (destruct H as [<-|H]; [lia|]). contradiction.
Qed.

(** X27.  The port of the server.  Whichever way [startServer] gets its
    port (the preferred port, a port of the menu, a custom port, the
    automatic search), a port that it gets is an integer and was found
    available; it is the preferred port exactly when that one is
    available; and for a preferred port from 1024 to 65525 it lies between
    1024 and 65535. *)
Theorem X27_server_port_is_available
        available choice inputs fuel preferredPort port :
  serverPort available choice inputs fuel preferredPort
  = Some (Returned port) ->
  (forall p, choice = listedPort p ->
             In p (availableSuggestions available preferredPort)) ->
  exists z,
    port = Num z /\
    (0 <= z)%Z /\
    available (Z.to_N z) = true /\
    (z = Z.of_N preferredPort <-> available preferredPort = true) /\
    ((1024 <= preferredPort <= 65525)%N -> (1024 <= z <= 65535)%Z).
Proof.
  intros H Hlisted.
  assert (Auto : forall p,
             findAvailablePort available (preferredPort + 1)
                               defaultMaxAttempts = Returned p ->
             available p = true /\
             (preferredPort + 1 <= p < preferredPort + 11)%N).
  { intros p F.
    apply (proj1 (findAvailablePort_spec available (preferredPort + 1)
                    defaultMaxAttempts) p) in F.
    unfold defaultMaxAttempts in F. destruct F as (Hr & Hp & _).
    split; [exact Hp | lia]. }
  assert (Core : exists z,
             port = Num z /\ (0 <= z)%Z /\ available (Z.to_N z) = true /\
             ((1024 <= preferredPort <= 65525)%N ->
              (1024 <= z <= 65535)%Z)).
  { unfold serverPort in H.
    destruct (available preferredPort) eqn:A.
    - injection H as <-. exists (Z.of_N preferredPort).
      rewrite N2Z.id. split; [reflexivity|]. split; [lia|].
      split; [exact A|]. lia.
    - unfold promptForPort in H.
      assert (FromAuto :
                Some (match findAvailablePort available (preferredPort + 1)
                              defaultMaxAttempts with
                      | Returned p => Returned (Num (Z.of_N p))
                      | Threw error => Threw error
                      end) = Some (Returned port) ->
                exists z,
                  port = Num z /\ (0 <= z)%Z /\
                  available (Z.to_N z) = true /\
                  ((1024 <= preferredPort <= 65525)%N ->
                   (1024 <= z <= 65535)%Z)).
      { destruct (findAvailablePort available (preferredPort + 1)
                                    defaultMaxAttempts) as [p|] eqn:F;
          [|discriminate].
        intros [= <-]. destruct (Auto p eq_refl) as [Hp Hr].
        exists (Z.of_N p). rewrite N2Z.id. split; [reflexivity|].
        split; [lia|]. split; [exact Hp|]. lia. }
      assert (FromCustom :
                match promptForCustomPort available inputs fuel 0 with
                | Some p => Some (Returned p)
                | None => None
                end = Some (Returned port) ->
                exists z,
                  port = Num z /\ (0 <= z)%Z /\
                  available (Z.to_N z) = true /\
                  ((1024 <= preferredPort <= 65525)%N ->
                   (1024 <= z <= 65535)%Z)).
      { destruct (promptForCustomPort available inputs fuel 0) as [p|] eqn:C;
          [|discriminate].
        intros [= <-].
        destruct (promptForCustomPort_valid _ _ _ _ _ C) as (z & -> & Hr & Hp).
        exists z. split; [reflexivity|]. split; [lia|].
        split; [exact Hp|]. intros _. exact Hr. }
      destruct (availableSuggestions available preferredPort) as [|s rest]
        eqn:S.
      + destruct choice; auto.
      + destruct choice as [p| |]; auto.
        injection H as <-. specialize (Hlisted p eq_refl).
        rewrite <- S in Hlisted. unfold availableSuggestions in Hlisted.
        apply filter_In in Hlisted as [Hin Hp].
        assert (Hin' : In p (getPortSuggestions preferredPort)).
        { rewrite <- (firstn_skipn 5). apply in_or_app. now left. }
        destruct (getPortSuggestions_range _ _ Hin') as [Hr _].
        exists (Z.of_N p). rewrite N2Z.id. split; [reflexivity|].
        split; [lia|]. split; [exact Hp|]. lia. }
  destruct Core as (z & -> & H0 & Ha & Hr). exists z.
  split; [reflexivity|]. split; [exact H0|]. split; [exact Ha|].
  split; [|exact Hr]. split.
  - intros ->. now rewrite N2Z.id in Ha.
  - intros A. unfold serverPort in H. rewrite A in H.
    injection H as Hz. exact (eq_sym Hz).
Qed.

Lemma X27_witness :
  exists z,
    Num 3001 = Num z /\
    (0 <= z)%Z /\
    (fun p => (p =? 3001)%N) (Z.to_N z) = true /\
    (z = Z.of_N 2000 <-> (fun p => (p =? 3001)%N) 2000%N = true) /\
    ((1024 <= 2000 <= 65525)%N -> (1024 <= z <= 65535)%Z).
Proof.
  apply (X27_server_port_is_available
           (fun p => (p =? 3001)%N) (listedPort 3001) (fun _ => "") 0 2000%N).
  - reflexivity.
  - intros p [= <-]. left. reflexivity.
Defined.

(** ** The report *)

Lemma all_chars_impl (p q : ascii -> bool) (s : string) :
  (forall c, p c = true -> q c = true) ->
  all_chars p s = true -> all_chars q s = true.
Proof.
  intros Hpq. induction s as [|c s IH]; cbn; [reflexivity|].
  intros H. apply andb_true_iff in H as [Hc H]. now rewrite (Hpq _ Hc), IH.
Qed.

Lemma split_on_no_separator (sep : ascii) (s : string) :
  Forall (fun line => all_chars (fun c => negb (Ascii.eqb c sep)) line = true)
         (split_on sep s).
Proof.
  induction s as [|c s IH]; cbn [split_on].
  - repeat constructor.
  - destruct (Ascii.eqb c sep) eqn:E.
    + constructor; [reflexivity | exact IH].
    + destruct (split_on sep s) as [|x xs].
      * repeat constructor. cbn. now rewrite E.
      * inversion IH as [|? ? Hx Hxs]; subst. constructor; [|exact Hxs].
        cbn. now rewrite E, Hx.
Qed.

Lemma remove_chars_keeps (p q : ascii -> bool) (s : string) :
  all_chars q s = true -> all_chars q (remove_chars p s) = true.
Proof.
  induction s as [|c s IH]; cbn; [reflexivity|].
  intros H. apply andb_true_iff in H as [Hc H].
  destruct (p c); cbn; [now apply IH | now rewrite Hc, IH].
Qed.

Lemma remove_chars_removes (p : ascii -> bool) (s : string) :
  all_chars (fun c => negb (p c)) (remove_chars p s) = true.
Proof.
  induction s as [|c s IH]; cbn; [reflexivity|].
  destruct (p c) eqn:E; cbn; [exact IH | now rewrite E, IH].
Qed.

(** The white-space character at the head of a string is a part of it. *)
Lemma white_rest_suffix (s r : string) :
  white_rest s = Some r -> exists w, s = w ++ r.
Proof.
  unfold white_rest.
  destruct s as [|c1 [|c2 [|c3 s3]]]; try discriminate;
    destruct (white1 c1);
    try (intros [= <-]; now exists (String c1 ""));
    try discriminate;
    destruct (white2 c1 c2);
    try (intros [= <-]; now exists (String c1 (String c2 "")));
    try discriminate;
    destruct (white3 c1 c2 c3); [|discriminate].
  intros [= <-]. now exists (String c1 (String c2 (String c3 ""))).
Qed.

Lemma trimStart_keeps (q : ascii -> bool) (s : string) :
  all_chars q s = true -> all_chars q (trimStart s) = true.
Proof.
  apply (white_ind (fun s =>
    all_chars q s = true -> all_chars q (trimStart s) = true)).
  intros s' IH H. rewrite trimStart_eq.
  destruct (white_rest s') as [r|] eqn:W; [|exact H].
  destruct (white_rest_suffix _ _ W) as [w ->].
  rewrite all_chars_app in H. apply andb_true_iff in H as [_ H].
  now apply IH.
Qed.

Lemma trimEnd_keeps (q : ascii -> bool) (s : string) :
  all_chars q s = true -> all_chars q (trimEnd s) = true.
Proof.
  induction s as [|c s IH]; cbn [trimEnd all_chars]; [reflexivity|].
  intros H. apply andb_true_iff in H as [Hc H].
  destruct (all_white (String c s)); [reflexivity|].
  cbn [all_chars]. now rewrite Hc, IH.
Qed.

(** What [trimEnd] cuts is white space. *)
Lemma trimEnd_split (s : string) :
  exists w, s = trimEnd s ++ w /\ all_white w = true.
Proof.
  induction s as [|c s (w & E & Hw)]; [now exists ""|].
  cbn [trimEnd]. destruct (all_white (String c s)) eqn:A.
  - now exists (String c s).
  - exists w. split; [cbn; now rewrite <- E | exact Hw].
Qed.

Lemma trimEnd_idempotent (s : string) : trimEnd (trimEnd s) = trimEnd s.
Proof.
  induction s as [|c s IH]; [reflexivity|].
  cbn [trimEnd]. destruct (all_white (String c s)) eqn:A; [reflexivity|].
  cbn [trimEnd]. rewrite IH.
  destruct (all_white (String c (trimEnd s))) eqn:B; [|reflexivity].
  destruct (trimEnd_split s) as (w & E & Hw).
  pose proof (all_white_app _ _ B Hw) as C.
  cbn [append] in C. rewrite <- E in C. congruence.
Qed.

(** What is left of [trimEnd] starts with white space only if the string
    does. *)
Lemma trimEnd_head (s : string) :
  white_rest s = None -> white_rest (trimEnd s) = None.
Proof.
  intros H. destruct (white_rest (trimEnd s)) as [r|] eqn:W; [|reflexivity].
  destruct (trimEnd_split s) as (w & E & _).
  apply (white_rest_app _ _ w) in W. rewrite <- E in W. congruence.
Qed.

(** Trimming what is trimmed changes nothing. *)
Lemma trim_idempotent (s : string) : trim (trim s) = trim s.
Proof.
  unfold trim.
  rewrite (trimStart_stop (trimEnd (trimStart s))).
  - apply trimEnd_idempotent.
  - apply trimEnd_head, trimStart_head.
Qed.

(** X28.  The description of a report is never empty, is one line without
    heading or emphasis marks and without white space at its ends; it is
    the cleaned first line of the analysis that mentions purpose, project
    or does, and the default text when there is no such line or nothing is
    left of it.  Unless it is the default text it has no hyphen either. *)
Theorem X28_description analysis :
  extractDescription analysis <> "" /\
  trim (extractDescription analysis) = extractDescription analysis /\
  all_chars plainChar (extractDescription analysis) = true /\
  (extractDescription analysis <> defaultDescription ->
   all_chars (fun c => negb (is_markup c)) (extractDescription analysis)
   = true) /\
  (Forall (fun line => describes line = false)
          (split_on "010"%char analysis) ->
   extractDescription analysis = defaultDescription).
Proof.
  unfold extractDescription.
  destruct (find describes (split_on "010"%char analysis)) as [line|] eqn:F.
  - apply find_some in F as [Hin Hd].
    assert (Hline : all_chars (fun c => negb (Ascii.eqb c "010"%char)) line
                    = true).
    { pose proof (split_on_no_separator "010"%char analysis) as H.
      rewrite Forall_forall in H. now apply H. }
    set (cleaned := trim (remove_chars is_markup line)).
    assert (Hmark : all_chars (fun c => negb (is_markup c)) cleaned = true).
    { unfold cleaned, trim. apply trimEnd_keeps, trimStart_keeps.
      apply remove_chars_removes. }
    assert (Hnl : all_chars (fun c => negb (Ascii.eqb c "010"%char)) cleaned
                  = true).
    { unfold cleaned, trim. apply trimEnd_keeps, trimStart_keeps.
      now apply remove_chars_keeps. }
    assert (Hplain : all_chars plainChar cleaned = true).
    { clear - Hmark Hnl. induction cleaned as [|c s IH]; [reflexivity|].
      cbn in *. apply andb_true_iff in Hmark as [Hm Hmark].
      apply andb_true_iff in Hnl as [Hn Hnl].
      rewrite (IH Hmark Hnl), andb_true_r.
      unfold plainChar, is_markup in *.
      destruct (Ascii.eqb c "#"), (Ascii.eqb c "*"), (Ascii.eqb c "010");
        cbn in *; congruence. }
    assert (Htrim : trim cleaned = cleaned) by apply trim_idempotent.
    destruct cleaned as [|c s] eqn:E.
    + split; [discriminate|]. split; [reflexivity|]. split; [reflexivity|].
      split; [intros H; now elim H|]. intros _. reflexivity.
    + split; [discriminate|]. split; [exact Htrim|]. split; [exact Hplain|].
      split; [intros _; exact Hmark|].
      intros H. rewrite Forall_forall in H. rewrite (H _ Hin) in Hd.
      discriminate.
  - split; [discriminate|]. split; [reflexivity|]. split; [reflexivity|].
    split; [intros H; now elim H|]. reflexivity.
Qed.

Lemma X28_witness :
  extractDescription ("# Report" ++ newline ++ "no match here")
  = defaultDescription.
Proof.
  apply (proj2 (proj2 (proj2 (proj2 (X28_description _))))).
  repeat constructor.
Defined.

Lemma includes_middle (s a p b : string) :
  includes s (a ++ p ++ b) = true -> includes s p = true.
Proof.
  intros H. destruct (includes_split _ _ H) as (x & y & ->).
  replace (x ++ (a ++ p ++ b) ++ y) with ((x ++ a) ++ p ++ (b ++ y))
    by now rewrite !string_app_assoc.
  apply includes_app.
Qed.

Lemma includes_without (s p a b whole : string) :
  includes s p = false -> whole = a ++ p ++ b -> includes s whole = false.
Proof.
  intros H ->. destruct (includes s (a ++ p ++ b)) eqn:E; [|reflexivity].
  apply includes_middle in E. congruence.
Qed.

(** X29.  The key files.  [identifyKeyFiles] returns at most 10 entries.
    Each of them has importance [high] and belongs to a file of the list
    whose name, in lower case, contains one of the eleven names of the
    table, with the purpose that [getPurpose] gives for its path; and
    the purpose [Core project file] only goes to a name with main.js or
    main.ts: every other name of the table is recognised by one of the
    earlier tests. *)
Theorem X29_key_files files :
  List.length (identifyKeyFiles files) <= 10 /\
  (forall k, In k (identifyKeyFiles files) ->
     key_importance k = high /\
     exists f, In f files /\ isKeyFile f = true /\
               key_path k = path f /\
               key_purpose k = getPurpose (path f) /\
               (key_purpose k = "Core project file" ->
                includes (toLowerCase (basename (path f))) "main.js"
                || includes (toLowerCase (basename (path f))) "main.ts"
                = true)).
Proof.
  unfold identifyKeyFiles. split; [apply firstn_le_length|].
  intros k Hk.
  assert (Hk' : In k (map (fun file =>
                             {| key_path := path file;
                                key_purpose := getPurpose (path file);
                                key_importance := high |})
                          (filter isKeyFile files))).
  { rewrite <- (firstn_skipn 10). apply in_or_app. now left. }
  apply in_map_iff in Hk' as (f & <- & Hf). apply filter_In in Hf as [Hin Hkey].
  split; [reflexivity|]. exists f.
  cbn [key_path key_purpose]. repeat split; auto.
  unfold getPurpose. unfold isKeyFile in Hkey.
  set (name := toLowerCase (basename (path f))) in *.
  cbn [keyFileNames existsb] in Hkey.
  repeat match type of Hkey with
         | context [toLowerCase ?lit] =>
             let v := eval vm_compute in (toLowerCase lit) in
             change (toLowerCase lit) with v in Hkey
         end.
  destruct (includes name "package.json") eqn:H1; [discriminate|].
  destruct (includes name "readme") eqn:H2; [discriminate|].
  destruct (includes name "index") eqn:H3; [discriminate|].
  destruct (includes name "app") eqn:H4; [discriminate|].
  destruct (includes name "config") eqn:H5; [discriminate|].
  destruct (includes name "route"); [discriminate|].
  destruct (includes name "component"); [discriminate|].
  intros _.
  rewrite (includes_without name "readme" "" ".md" "readme.md" H2 eq_refl),
    (includes_without name "index" "" ".js" "index.js" H3 eq_refl),
    (includes_without name "index" "" ".ts" "index.ts" H3 eq_refl),
    (includes_without name "app" "" ".js" "app.js" H4 eq_refl),
    (includes_without name "app" "" ".ts" "app.ts" H4 eq_refl),
    (includes_without name "config" "next." ".js" "next.config.js" H5 eq_refl),
    (includes_without name "config" "vite." ".js" "vite.config.js" H5 eq_refl),
    (includes_without name "config" "webpack." ".js" "webpack.config.js" H5
                      eq_refl)
    in Hkey.
  cbn [orb] in Hkey. now rewrite orb_false_r in Hkey.
Qed.

Lemma X29_witness :
  includes (toLowerCase (basename "src/Main.ts")) "main.js"
  || includes (toLowerCase (basename "src/Main.ts")) "main.ts" = true.
Proof.
  destruct (X29_key_files [mkFile "src/Main.ts" "" 0 ".ts"]) as [_ H].
  destruct (H {| key_path := "src/Main.ts";
                 key_purpose := "Core project file";
                 key_importance := high |}) as (_ & f & Hin & _ & Hpath & _ & Hcore).
  - left. reflexivity.
  - destruct Hin as [<- | []]. apply Hcore. reflexivity.
Defined.

(** ** The configuration *)

(** The key question returns the first input that passes the validation. *)
Lemma askApiKey_first (inputs : nat -> string) :
  forall fuel from key,
    askApiKey inputs fuel from = Some key ->
    exists asked,
      from <= asked < from + fuel /\
      key = inputs asked /\
      validateApiKey (inputs asked) = None /\
      (forall earlier, from <= earlier < asked ->
                       validateApiKey (inputs earlier) <> None).
Proof.
  induction fuel as [|fuel IH]; intros from key; cbn [askApiKey].
  - discriminate.
  - destruct (validateApiKey (inputs from)) eqn:V.
    + intros H. destruct (IH _ _ H) as (asked & Hr & -> & Hv & He).
      exists asked. split; [lia|]. split; [reflexivity|].
      split; [exact Hv|]. intros earlier Hi.
      destruct (Nat.eq_dec earlier from) as [->|Hne].
      * rewrite V. discriminate.
      * apply He. lia.
    + intros [= <-]. exists from. split; [lia|]. split; [reflexivity|].
      split; [exact V|]. intros earlier Hi. lia.
Qed.

Lemma validateApiKey_accepts (input : string) :
  validateApiKey input = None -> 20 <= utf16_length (trim input).
Proof.
  unfold validateApiKey. destruct (_ || _); [discriminate|].
  destruct (Nat.ltb_spec (utf16_length (trim input)) 20); [discriminate|].
  intros _. assumption.
Qed.

(** X30.  The configuration that the questions produce.  Its model is the
    entry of the list that the user picked, with the tier of that entry,
    which is advanced exactly for the names that end in -advanced.  Its API
    key is the first input that passed the validation, without the white
    space at its ends, and has at least 20 characters.  The advanced
    features are on exactly when the tier is advanced and the user agreed.
    The Gateway maps the model name by its table to the model of the
    provider, the name without -advanced: gemini-1.5-pro or
    gemini-1.5-flash.  The table, not the default, decides: it also has
    gemini-1.0-pro, and the default stands for every name that is neither
    in the table nor inherited by it. *)
Theorem X30_configuration picked keyInputs fuel enableAdvanced config :
  getGeminiConfig picked keyInputs fuel enableAdvanced = Some config ->
  (exists chosen,
      nth_error GEMINI_MODELS picked = Some chosen /\
      model config = info_value chosen /\
      modelType config = info_modelType chosen) /\
  (exists asked,
      asked < fuel /\
      validateApiKey (keyInputs asked) = None /\
      (forall earlier, earlier < asked ->
                       validateApiKey (keyInputs earlier) <> None) /\
      apiKey config = trim (keyInputs asked)) /\
  20 <= utf16_length (apiKey config) /\
  trim (apiKey config) = apiKey config /\
  (modelType config = advanced <->
   endsWith (model config) "-advanced" = true) /\
  enableAdvancedFeatures config
  = match modelType config with
    | advanced => enableAdvanced
    | standard => false
    end /\
  usesEnhancedMode config = enableAdvancedFeatures config /\
  (exists actual,
      mapToActualModel (model config) = Some actual /\
      (model config = actual \/ model config = actual ++ "-advanced") /\
      (actual = "gemini-1.5-pro" \/ actual = "gemini-1.5-flash")) /\
  mapToActualModel "gemini-1.0-pro" = Some "gemini-1.0-pro" /\
  (forall name,
      existsb (String.eqb name)
              ["gemini-1.5-pro-advanced"; "gemini-1.5-flash-advanced";
               "gemini-1.5-flash"; "gemini-1.5-pro"; "gemini-1.0-pro"]
      = false ->
      existsb (String.eqb name) objectPrototypeKeys = false ->
      mapToActualModel name = Some "gemini-1.5-flash").
Proof.
  unfold getGeminiConfig.
  destruct (nth_error GEMINI_MODELS picked) as [choice|] eqn:Hc;
    [|discriminate].
  assert (Default : forall name,
             existsb (String.eqb name)
                     ["gemini-1.5-pro-advanced"; "gemini-1.5-flash-advanced";
                      "gemini-1.5-flash"; "gemini-1.5-pro"; "gemini-1.0-pro"]
             = false ->
             existsb (String.eqb name) objectPrototypeKeys = false ->
             mapToActualModel name = Some "gemini-1.5-flash").
  { intros name Ht Hp. unfold mapToActualModel. rewrite Hp.
    cbn [existsb] in Ht. cbn [modelMap find fst snd].
    repeat rewrite orb_false_iff in Ht.
    destruct Ht as (H1 & H2 & H3 & H4 & H5 & _).
    rewrite String.eqb_sym in H1, H2, H3, H4, H5.
    now rewrite H1, H2, H3, H4, H5. }
  destruct (askApiKey keyInputs fuel 0) as [key|] eqn:Hk.
  - destruct (askApiKey_first _ _ _ _ Hk) as (asked & Hr & -> & Hv & He).
    pose proof (validateApiKey_accepts _ Hv) as Hlen.
    assert (Key : exists asked0,
               asked0 < fuel /\
               validateApiKey (keyInputs asked0) = None /\
               (forall earlier, earlier < asked0 ->
                                validateApiKey (keyInputs earlier) <> None) /\
               trim (keyInputs asked) = trim (keyInputs asked0)).
    { exists asked. split; [lia|]. split; [exact Hv|].
      split; [intros earlier Hi; apply He; lia | reflexivity]. }
    do 4 (destruct picked as [|picked];
          [ injection Hc as <-; cbn [find GEMINI_MODELS info_value String.eqb];
            cbn; intros [= <-];
            cbn [apiKey model modelType enableAdvancedFeatures];
            (split; [eexists; split; [reflexivity|]; split; reflexivity|]);
            (split; [exact Key|]);
            (split; [exact Hlen|]); (split; [apply trim_idempotent|]);
            (split; [split; intros H;
                     first [reflexivity | discriminate H
                           | vm_compute in H; discriminate H]|]);
            (split; [reflexivity|]);
            (split; [now destruct enableAdvanced|]);
            (split; [eexists; split; [reflexivity|];
                     split; [first [now left | now right]
                            | first [now left | now right]]|]);
            (split; [reflexivity | exact Default])
          | ]);
    cbn in Hc; destruct picked; discriminate Hc.
  - destruct (find _ GEMINI_MODELS); discriminate.
Qed.

Lemma X30_witness :
  let config := {| model := "gemini-1.5-pro-advanced";
                   apiKey := "AIzaSy-0123456789-abcdefghij";
                   modelType := advanced;
                   enableAdvancedFeatures := true |} in
  exists actual,
    mapToActualModel (model config) = Some actual /\
    (model config = actual \/ model config = actual ++ "-advanced") /\
    (actual = "gemini-1.5-pro" \/ actual = "gemini-1.5-flash").
Proof.
  apply (X30_configuration 0
           (fun n => match n with
                     | 0 => "short"
                     | _ => String (ascii_of_N 194) (String (ascii_of_N 160)
                              " AIzaSy-0123456789-abcdefghij ")
                     end)
           2 true).
  reflexivity.
Defined.

(** A run of the questions: the first input is refused, the second is
    accepted and loses the white space at its ends, a no-break space
    included. *)
Example configuration_of_a_run :
  getGeminiConfig 1
    (fun n => match n with
              | 0 => "short"
              | _ => String (ascii_of_N 194) (String (ascii_of_N 160)
                       " AIzaSy-0123456789-abcdefghij ")
              end)
    2 false
  = Some {| model := "gemini-1.5-flash-advanced";
            apiKey := "AIzaSy-0123456789-abcdefghij";
            modelType := advanced;
            enableAdvancedFeatures := false |}.
Proof. reflexivity. Qed.
